(** * Clarity DOM mirroring: snapshot traversal and incremental node processor

    A shallow embedding of
      - [packages/clarity-js/src/insight/snapshot.ts] (module [Snapshot]) and
      - [packages/clarity-js/src/layout/node.ts]      (module [Layout]),
    with the properties the specification states about them. *)

From stdpp Require Import gmap strings list fin_maps.
From Stdlib Require Import ZArith Lia.

Set Default Proof Using "Type".
Set Warnings "-register-all".

(** ** JavaScript values shared by both modules *)

(** A value that was thrown.  The [catch] clause of [getCssRules] tests the
    thrown value for truthiness before it reads [e.name], so a thrown value is
    either falsy ([throw null]) or an error object with a name. *)
Inductive Exn :=
  | ExnFalsy
  | ExnError (name : string).

(** Completion of a piece of code: normal, or abrupt by [throw]. *)
Inductive Result (A : Type) :=
  | Ok (a : A)
  | Throw (e : Exn).
Arguments Ok {A} a.
Arguments Throw {A} e.

(** The value of [idMap.get(x)] and of the identifier fields of a record:
    [null], [undefined] or a number. *)
Inductive JsId :=
  | Null
  | Undefined
  | Num (n : Z).

(** Truthiness of a string and of a possibly-null string. *)
Definition truthy (s : string) : bool := negb (String.eqb s "").

Definition truthy_opt (s : option string) : bool :=
  match s with
  | Some s => truthy s
  | None => false
  end.

(** [output[name] = value] on an object made by the literal [{}], read as a
    finite map from names to strings.  One name is special: [__proto__] is an
    accessor inherited from [Object.prototype], so the assignment calls its
    setter, which ignores a value that is neither an object nor [null]: no
    entry is made.  Every other name gets an own entry (the other members
    of [Object.prototype] are plain data properties, which an assignment
    shadows). *)
Definition assign (name value : string) (output : gmap string string)
  : gmap string string :=
  if String.eqb name "__proto__" then output else <[name := value]> output.

(** [Array.prototype.indexOf(x) < 0] on an array of strings. *)
Definition absent (x : string) (l : list string) : bool :=
  negb (existsb (String.eqb x) l).

(** The [nodeType] constants of the DOM. *)
Module NodeType.
Definition ELEMENT_NODE : Z := 1.
Definition TEXT_NODE : Z := 3.
Definition COMMENT_NODE : Z := 8.
Definition DOCUMENT_NODE : Z := 9.
Definition DOCUMENT_TYPE_NODE : Z := 10.
Definition DOCUMENT_FRAGMENT_NODE : Z := 11.
End NodeType.

(** ** The [Constant] enum

    [Constant] is declared in [@clarity-types/layout], which is not part of
    the sources at hand; the code refers to its members by name only. *)
Module Constant.

(** Modelled from the spec: the member named [Empty], the empty string. *)
Definition Empty : string := "".

(** Modelled from the spec: the tag of [INPUT] elements. *)
Definition InputTag : string := "INPUT".

(** Modelled from the spec: the [value] attribute of an [INPUT]. *)
Definition Value : string := "value".

(** Modelled from the spec: the [property] key of a [META] tag. *)
Definition Property : string := "property".

(** Modelled from the spec: the [name] key of a [META] tag. *)
Definition Name : string := "name".

(** Modelled from the spec: the [content] key of a [META] tag. *)
Definition Content : string := "content".

(** Modelled from the spec: the open-graph title, [property="og:title"]. *)
Definition ogTitle : string := "og:title".

(** Modelled from the spec: the [src] attribute of media elements. *)
Definition Src : string := "src".

(** The members whose spelling the spec leaves open are a parameter of the
    embedding: a record with one field per member. *)
Record t := {
  SvgPrefix : string;
  IFramePrefix : string;
  SvgNamespace : string;
  Type_ : string;
  Base : string;
  SameOrigin : string;
  Function : string;
  NativeCode : string;
  DocumentTag : string;
  ShadowDomTag : string;
  PolyfillShadowDomTag : string;
  TextTag : string;
  JsonLD : string;
  HTML : string;
  Generator : string;
  ogType : string;
  StyleSheet : string
}.
End Constant.

(** A sample value of the parameter, to evaluate the definitions at concrete
    inputs. *)
Definition sample_constants : Constant.t := {|
  Constant.SvgPrefix := "svg:";
  Constant.IFramePrefix := "iframe:";
  Constant.SvgNamespace := "http://www.w3.org/2000/svg";
  Constant.Type_ := "type";
  Constant.Base := "*B";
  Constant.SameOrigin := "*O";
  Constant.Function := "function";
  Constant.NativeCode := "[native code]";
  Constant.DocumentTag := "*D";
  Constant.ShadowDomTag := "*S";
  Constant.PolyfillShadowDomTag := "*P";
  Constant.TextTag := "*T";
  Constant.JsonLD := "application/ld+json";
  Constant.HTML := "html";
  Constant.Generator := "generator";
  Constant.ogType := "og:type";
  Constant.StyleSheet := "stylesheet"
|}.

(** * insight/snapshot.ts *)
Module Snapshot.

(** ** The document tree as the traversal reads it *)

(** The intrinsic properties of a DOM node.  [key] stands for the identity of
    the JavaScript object: [WeakMap] keys and [===] compare it. *)
Record Props := {
  key : positive;
  nodeType : Z;
  tagName : string;
  nodeValue : option string;
  attributes : list (string * string);
  name : string;
  publicId : string;
  systemId : string
}.

(** A subtree: a node and its child list in document order. *)
Inductive Tree :=
  | T (p : Props) (kids : list Tree).

(** A [Node] reference: the node together with what its navigation properties
    reach.  [childTrees] are the subtrees below it, [followingTrees] those of
    its later siblings. *)
Record Node := {
  props : Props;
  parentNode : option Props;
  previousSibling : option Props;
  childTrees : list Tree;
  followingTrees : list Tree
}.

Definition parentElement (n : Node) : option Props :=
  match parentNode n with
  | Some p => if (nodeType p =? NodeType.ELEMENT_NODE)%Z then Some p else None
  | None => None
  end.

Definition firstChild (n : Node) : option Node :=
  match childTrees n with
  | [] => None
  | T p ks :: rest =>
      Some {| props := p; parentNode := Some (props n); previousSibling := None;
              childTrees := ks; followingTrees := rest |}
  end.

Definition nextSibling (n : Node) : option Node :=
  match followingTrees n with
  | [] => None
  | T p ks :: rest =>
      Some {| props := p; parentNode := parentNode n; previousSibling := Some (props n);
              childTrees := ks; followingTrees := rest |}
  end.

(** [document.documentElement]: the element child of a document. *)
Fixpoint elementAmong (parent : Props) (prev : option Props) (ts : list Tree) : option Node :=
  match ts with
  | [] => None
  | T p ks :: rest =>
      if (nodeType p =? NodeType.ELEMENT_NODE)%Z
      then Some {| props := p; parentNode := Some parent; previousSibling := prev;
                   childTrees := ks; followingTrees := rest |}
      else elementAmong parent (Some p) rest
  end.

Definition documentElement (doc : Node) : option Node :=
  elementAmong (props doc) None (childTrees doc).

(** The handle of a tree that has no parent (a document). *)
Definition rootOf (t : Tree) : Node :=
  match t with
  | T p ks => {| props := p; parentNode := None; previousSibling := None;
                 childTrees := ks; followingTrees := [] |}
  end.

(** ** Records *)

(** The members of the [Privacy] and [Event] enums the file uses. *)
Inductive Privacy := PrivacySensitive | PrivacySnapshot.

Inductive Event := EventSnapshot.

(** [NodeInfo]: the [data] of a record. *)
Record NodeInfo := {
  tag : option string;
  info_attributes : option (gmap string string);
  value : option string
}.

Record NodeMeta := {
  active : bool;
  suspend : bool;
  privacy : Privacy
}.

(** [NodeValue].  The fields the code always sets to [null] ([selector],
    [hash], [region], and [position], [fraud], [size] of the metadata) carry
    no information and are left out; [children] is always the empty array. *)
Record NodeValue := {
  id : JsId;
  parent : JsId;
  previous : JsId;
  children : list Z;
  data : NodeInfo;
  node_metadata : NodeMeta
}.

(** Calls into modules the file imports. *)
Inductive Call :=
  | DocStart
  | DocStop
  | InteractionObserve (root : positive)
  | Encode (e : Event) (batch : list NodeValue).

(** ** Module state: [values], [index], [idMap] ([None] is [null]) and the
    calls made so far.  [index] is a JavaScript number that only ever grows by
    one from 1; in that range its arithmetic is exact, and it is an integer
    here. *)
Record State := {
  values : list NodeValue;
  index : Z;
  idMap : option (gmap positive Z);
  calls : list Call
}.

(** State at module load. *)
Definition initial : State :=
  {| values := []; index := 1; idMap := None; calls := [] |}.

(** Code that reads and writes the module state and may throw. *)
Definition M (A : Type) : Type := State -> Result A * State.

Definition ret {A} (a : A) : M A := fun st => (Ok a, st).

Definition bind {A B} (m : M A) (f : A -> M B) : M B :=
  fun st =>
    match m st with
    | (Ok a, st') => f a st'
    | (Throw e, st') => (Throw e, st')
    end.

Declare Scope js_scope.
Delimit Scope js_scope with js.
Notation "x <- c1 ;; c2" := (bind c1 (fun x => c2))
  (at level 100, c1 at next level, right associativity) : js_scope.
Notation "c1 ;;; c2" := (bind c1 (fun _ => c2))
  (at level 100, right associativity) : js_scope.
Local Open Scope js_scope.

(** Reading a property of [idMap] while it is [null] throws a [TypeError]. *)
Definition theIdMap : M (gmap positive Z) :=
  fun st =>
    match idMap st with
    | Some m => (Ok m, st)
    | None => (Throw (ExnError "TypeError"), st)
    end.

Definition idMap_get (k : option positive) : M JsId :=
  m <- theIdMap ;;
  ret (match k with
       | Some k => match m !! k with Some i => Num i | None => Undefined end
       | None => Undefined
       end).

Definition idMap_set (k : positive) (i : Z) : M unit :=
  m <- theIdMap ;;
  fun st => (Ok tt, {| values := values st; index := index st;
                        idMap := Some (<[k := i]> m); calls := calls st |}).

Definition post_increment_index : M Z :=
  fun st => (Ok (index st), {| values := values st; index := (index st + 1)%Z;
                                idMap := idMap st; calls := calls st |}).

Definition get_index : M Z := fun st => (Ok (index st), st).

Definition call (c : Call) : M unit :=
  fun st => (Ok tt, {| values := values st; index := index st;
                        idMap := idMap st; calls := calls st ++ [c] |}).

(** [reset] *)
Definition reset : M unit :=
  fun st => (Ok tt, {| values := values st; index := index st;
                        idMap := Some ∅; calls := calls st |}).

(** [getId] *)
Definition getId (node : option positive) : M JsId :=
  match node with
  | None => ret Null
  | Some n =>
      m <- theIdMap ;;
      match m !! n with
      | Some i => ret (Num i)
      | None =>
          i <- get_index ;;
          idMap_set n i ;;;
          i' <- post_increment_index ;;
          ret (Num i')
      end
  end.

(** [metadata]; [conversions] is [config.conversions]. *)
Definition metadata_id (node : option positive) : M JsId :=
  match node with
  | Some n =>
      m <- theIdMap ;;
      match m !! n with
      | Some i => ret (Num i)
      | None => getId (Some n)
      end
  | None => ret (Num 0)
  end.

Definition metadata (conversions : bool) (node : option positive) : M (JsId * Privacy) :=
  i <- metadata_id node ;;
  ret (i, if conversions then PrivacySensitive else PrivacySnapshot).

(** [start] and [stop]; [document] is the global document. *)
Definition start (document : Node) : M unit :=
  reset ;;;
  call DocStart ;;;
  getId (key <$> (props <$> documentElement document)) ;;;
  call (InteractionObserve (key (props document))).

Definition stop : M unit :=
  reset ;;;
  call DocStop.

(** [target] *)
Record UIEvent := {
  composed : bool;
  composedPath : option (list Node);
  evt_target : Node
}.

Definition target (evt : UIEvent) : option Node :=
  let path := if composed evt then composedPath evt else None in
  let node := match path with
              | Some (first :: _) => first
              | _ => evt_target evt
              end in
  if (nodeType (props node) =? NodeType.DOCUMENT_NODE)%Z
  then documentElement node
  else Some node.

Section WithConstants.
Context (K : Constant.t).

(** [getAttributes] of the snapshot traversal. *)
Definition getAttributes (element : Props) : gmap string string :=
  foldl (fun output a => assign a.1 a.2 output) ∅ (attributes element).

(** [add] *)
Definition add (node : Node) (parent : option Props) (data : NodeInfo) : M unit :=
  if truthy_opt (tag data) then
    i <- getId (Some (key (props node))) ;;
    parentId <- match parent with
                | Some p => idMap_get (Some (key p))
                | None => ret Null
                end ;;
    previous <- match previousSibling node with
                | Some s => idMap_get (Some (key s))
                | None => ret Null
                end ;;
    let meta := {| active := true; suspend := false; privacy := PrivacySnapshot |} in
    fun st =>
      (Ok tt, {| values := values st ++
                   [ {| id := i; parent := parentId; previous := previous; children := [];
                        data := data; node_metadata := meta |} ];
                 index := index st; idMap := idMap st; calls := calls st |})
  else ret tt.

(** The inner loop of [traverse]: [while (next) { queue.push(next); next =
    next.nextSibling; }].  The sibling chain of a node is finite; [fuel]
    bounds the iterations. *)
Fixpoint pushSiblings (fuel : nat) (next : option Node) (queue : list Node) : list Node :=
  match fuel, next with
  | S fuel, Some n => pushSiblings fuel (nextSibling n) (queue ++ [n])
  | _, _ => queue
  end.

(** Truthiness of [idMap.get(parent)]. *)
Definition truthy_id (i : JsId) : bool :=
  match i with
  | Num n => negb (n =? 0)%Z
  | _ => false
  end.

(** The part of the loop body that processes the node taken off the queue:
    the [switch] on its type and the call of [add]. *)
Definition visit (node : Node) : M unit :=
  let parent := match parentElement node with
                | Some p => Some p
                | None => parentNode node
                end in
  let type := nodeType (props node) in
  data <-
    (if (type =? NodeType.DOCUMENT_TYPE_NODE)%Z then
       ret {| tag := Some (Constant.DocumentTag K);
              info_attributes :=
                Some (<["systemId" := systemId (props node)]>
                        (<["publicId" := publicId (props node)]>
                           (<["name" := name (props node)]> ∅)));
              value := None |}
     else if (type =? NodeType.TEXT_NODE)%Z then
       pid <- idMap_get (key <$> parent) ;;
       ret {| tag := if truthy_id pid then Some (Constant.TextTag K) else None;
              info_attributes := None;
              value := nodeValue (props node) |}
     else if (type =? NodeType.ELEMENT_NODE)%Z then
       ret {| tag := if absent (tagName (props node)) ["NOSCRIPT"; "SCRIPT"; "STYLE"]
                     then Some (tagName (props node)) else None;
              info_attributes := Some (getAttributes (props node));
              value := None |}
     else
       ret {| tag := None; info_attributes := None; value := None |}) ;;
  add node parent data.

(** The outer loop of [traverse].  [None] means the fuel ran out before the
    queue was empty. *)
Fixpoint traverseLoop (fuel : nat) (queue : list Node) (st : State)
  : option (Result unit * State) :=
  match queue with
  | [] => Some (Ok tt, st)
  | node :: queue =>
      match fuel with
      | O => None
      | S fuel =>
          let queue := pushSiblings (S (length (childTrees node))) (firstChild node) queue in
          match visit node st with
          | (Ok _, st) => traverseLoop fuel queue st
          | (Throw e, st) => Some (Throw e, st)
          end
      end
  end.

(** Number of nodes of a forest, and of the subtree under a node. *)
Fixpoint treeSize (t : Tree) : nat :=
  match t with
  | T _ ks => S (list_sum (map treeSize ks))
  end.

Definition nodeSize (n : Node) : nat := S (list_sum (map treeSize (childTrees n))).

(** [traverse] *)
Definition traverse (root : Node) (st : State) : option (Result unit * State) :=
  traverseLoop (nodeSize root) [root] st.

(** [snapshot] *)
Definition snapshot (document : Node) (st : State) : option (Result unit * State) :=
  let st := {| values := []; index := index st; idMap := idMap st; calls := calls st |} in
  match traverse document st with
  | Some (Ok _, st) => Some (call (Encode EventSnapshot (values st)) st)
  | other => other
  end.

(** ** Breadth-first order, as a specification

    The children of a node, as [Node] references; the nodes at depth [d] below
    a list of nodes; and the breadth-first listing of what lies below a list
    of nodes: depth 0, then depth 1, and so on. *)
Fixpoint childrenFrom (parent : option Props) (prev : option Props) (ts : list Tree) : list Node :=
  match ts with
  | [] => []
  | T p ks :: rest =>
      {| props := p; parentNode := parent; previousSibling := prev;
         childTrees := ks; followingTrees := rest |} :: childrenFrom parent (Some p) rest
  end.

Definition childNodes (n : Node) : list Node :=
  childrenFrom (Some (props n)) None (childTrees n).

Fixpoint atDepth (d : nat) (level : list Node) : list Node :=
  match d with
  | O => level
  | S d => atDepth d (flat_map childNodes level)
  end.

Definition breadthFirst (root : Node) : list Node :=
  flat_map (fun d => atDepth d [root]) (seq 0 (nodeSize root)).

(** Running [visit] over a list of nodes in order, stopping at a [throw]. *)
Fixpoint visitAll (nodes : list Node) : M unit :=
  match nodes with
  | [] => ret tt
  | n :: rest => visit n ;;; visitAll rest
  end.

End WithConstants.

(** ** Sessions and the registry invariant *)

(** A session is the time between two resets; what it does to the registry
    is a sequence of [getId] calls. *)
Fixpoint getIds (nodes : list positive) : M (list JsId) :=
  match nodes with
  | [] => ret []
  | n :: rest =>
      i <- getId (Some n) ;;
      ids <- getIds rest ;;
      ret (i :: ids)
  end.

(** The registry invariant: the map [m] is the registry of [st], every
    identifier it holds was handed out already (it lies in [1, index)) and
    belongs to one node. *)
Record registry_ok (st : State) (m : gmap positive Z) : Prop := {
  ok_map : idMap st = Some m;
  ok_index : (1 <= index st)%Z;
  ok_range : forall k i, m !! k = Some i -> (1 <= i < index st)%Z;
  ok_inj : forall k1 k2 i, m !! k1 = Some i -> m !! k2 = Some i -> k1 = k2
}.

(** ** Auxiliary definitions for the proofs *)

(** The reference to the first of a list of sibling subtrees. *)
Definition headOf (parent prev : option Props) (ts : list Tree) : option Node :=
  match ts with
  | [] => None
  | T p ks :: rest =>
      Some {| props := p; parentNode := parent; previousSibling := prev;
              childTrees := ks; followingTrees := rest |}
  end.

(** Number of nodes waiting in and below a queue. *)
Definition queueSize (queue : list Node) : nat := list_sum (map nodeSize queue).

(** The levels below a list of nodes, down to depth [n]. *)
Definition levels (n : nat) (queue : list Node) : list Node :=
  flat_map (fun d => atDepth d queue) (seq 0 n).

(** The identifier field of a record: the registry entry of a possibly
    absent node. *)
Definition idOf (m : gmap positive Z) (k : option Props) : JsId :=
  match k with
  | Some p => match m !! key p with Some i => Num i | None => Undefined end
  | None => Null
  end.

(** The record [add] pushes for a node that has identifier [i], in a registry
    [m]. *)
Definition record (i : Z) (m : gmap positive Z) (node : Node) (parent : option Props)
    (data : NodeInfo) : NodeValue :=
  {| id := Num i; parent := idOf m parent; previous := idOf m (previousSibling node);
     children := []; data := data;
     node_metadata := {| active := true; suspend := false; privacy := PrivacySnapshot |} |}.

Definition withValues (vs : list NodeValue) (st : State) : State :=
  {| values := vs; index := index st; idMap := idMap st; calls := calls st |}.

(** The [parent] variable of the loop body. *)
Definition parentOf (node : Node) : option Props :=
  match parentElement node with
  | Some p => Some p
  | None => parentNode node
  end.

(** The state a run ends in ([st] if it does not end). *)
Definition stateAfter (r : option (Result unit * State)) (st : State) : State :=
  match r with
  | Some (_, st') => st'
  | None => st
  end.

(** The [data] the loop body computes for a node when the registry is [m]. *)
Definition classify (K : Constant.t) (m : gmap positive Z) (node : Node) : NodeInfo :=
  let type := nodeType (props node) in
  if (type =? NodeType.DOCUMENT_TYPE_NODE)%Z then
    {| tag := Some (Constant.DocumentTag K);
       info_attributes :=
         Some (<["systemId" := systemId (props node)]>
                 (<["publicId" := publicId (props node)]>
                    (<["name" := name (props node)]> ∅)));
       value := None |}
  else if (type =? NodeType.TEXT_NODE)%Z then
    {| tag := if truthy_id (match key <$> parentOf node with
                            | Some k => match m !! k with Some i => Num i | None => Undefined end
                            | None => Undefined
                            end)
              then Some (Constant.TextTag K) else None;
       info_attributes := None;
       value := nodeValue (props node) |}
  else if (type =? NodeType.ELEMENT_NODE)%Z then
    {| tag := if absent (tagName (props node)) ["NOSCRIPT"; "SCRIPT"; "STYLE"]
              then Some (tagName (props node)) else None;
       info_attributes := Some (getAttributes (props node));
       value := None |}
  else {| tag := None; info_attributes := None; value := None |}.

(** What [target] does with the node it resolved. *)
Definition orDocumentElement (node : Node) : option Node :=
  if (nodeType (props node) =? NodeType.DOCUMENT_NODE)%Z
  then documentElement node
  else Some node.

(** ** A document with one [DIV] that holds the text "hello" *)

Definition plainProps (k : positive) (type : Z) (tag : string) (v : option string) : Props :=
  {| key := k; nodeType := type; tagName := tag; nodeValue := v; attributes := [];
     name := ""; publicId := ""; systemId := "" |}.

Definition docP : Props := plainProps 1 NodeType.DOCUMENT_NODE "" None.
Definition divP : Props := plainProps 2 NodeType.ELEMENT_NODE "DIV" None.
Definition textP : Props := plainProps 3 NodeType.TEXT_NODE "" (Some "hello"%string).

Definition helloDocument : Node := rootOf (T docP [T divP [T textP []]]).

Definition snapshotMeta : NodeMeta :=
  {| active := true; suspend := false; privacy := PrivacySnapshot |}.

(** The two records: the [DIV] with identifier [i], and its text. *)
Definition divRecord (i : Z) : NodeValue :=
  {| id := Num i; parent := Undefined; previous := Null; children := [];
     data := {| tag := Some "DIV"%string; info_attributes := Some ∅; value := None |};
     node_metadata := snapshotMeta |}.

Definition textRecord (K : Constant.t) (i : Z) : NodeValue :=
  {| id := Num (i + 1); parent := Num i; previous := Null; children := [];
     data := {| tag := Some (Constant.TextTag K); info_attributes := None;
                value := Some "hello"%string |};
     node_metadata := snapshotMeta |}.

(** A small tree to tell breadth-first from depth-first order:
    1 over 2 and 3, and 4 below 2. *)
Definition orderTree : Node :=
  rootOf (T (plainProps 1 NodeType.DOCUMENT_NODE "" None)
            [T (plainProps 2 NodeType.ELEMENT_NODE "A" None)
               [T (plainProps 4 NodeType.ELEMENT_NODE "C" None) []];
             T (plainProps 3 NodeType.ELEMENT_NODE "B" None) []]).

End Snapshot.


(** * layout/node.ts *)
Module Layout.

(** ** Platform values *)

(** Text.  A string of the program is kept the way Rocq's [string] holds
    text: as the bytes of its UTF-8 encoding.  Comparison, emptiness,
    concatenation and the search for an ASCII pattern do not depend on the
    encoding; [String.prototype.trim] does, through the characters it
    strips. *)
Definition utf8 (bytes : list nat) : string :=
  fold_right (fun n s => String (Ascii.ascii_of_nat n) s) EmptyString bytes.

(** The UTF-8 encoding of a character of the Basic Multilingual Plane,
    given by its code point: one, two or three bytes. *)
Definition utf8Char (c : N) : string :=
  let byte n := Ascii.ascii_of_N n in
  if (c <? 128)%N then String (byte c) EmptyString
  else if (c <? 2048)%N then
    String (byte (192 + c / 64)%N) (String (byte (128 + c mod 64)%N) EmptyString)
  else
    String (byte (224 + c / 4096)%N)
      (String (byte (128 + (c / 64) mod 64)%N)
         (String (byte (128 + c mod 64)%N) EmptyString)).

(** The characters [String.prototype.trim] strips, by code point: WhiteSpace
    of ECMAScript (TAB, VT, FF, U+FEFF and the space separators of Unicode:
    SP, U+00A0, U+1680, U+2000 to U+200A, U+202F, U+205F, U+3000) and
    LineTerminator (LF, CR, U+2028, U+2029). *)
Definition whiteSpaceCodes : list N :=
  [ 9; 10; 11; 12; 13; 32; 160; 5760;
    8192; 8193; 8194; 8195; 8196; 8197; 8198; 8199; 8200; 8201; 8202;
    8232; 8233; 8239; 8287; 12288; 65279 ]%N.

Definition whiteSpace : list string := map utf8Char whiteSpaceCodes.

(** [Some rest] when [s] is [w] followed by [rest]. *)
Fixpoint dropPrefix (w s : string) : option string :=
  match w with
  | EmptyString => Some s
  | String c w' =>
      match s with
      | String d s' => if Ascii.eqb c d then dropPrefix w' s' else None
      | EmptyString => None
      end
  end.

(** What follows the white space character [s] begins with, if it begins
    with one. *)
Definition dropWhiteSpace (s : string) : option string :=
  fold_right (fun w found => match dropPrefix w s with
                             | Some rest => Some rest
                             | None => found
                             end) None whiteSpace.

(** [trimStart]: white space characters are dropped from the front while
    there is one; a string has no more characters than bytes. *)
Fixpoint trimStartFrom (fuel : nat) (s : string) : string :=
  match fuel with
  | O => s
  | S fuel =>
      match dropWhiteSpace s with
      | Some rest => trimStartFrom fuel rest
      | None => s
      end
  end.

Definition trimStart (s : string) : string := trimStartFrom (String.length s) s.

(** Whether [s] is white space throughout. *)
Definition allWhiteSpace (s : string) : bool :=
  String.eqb (trimStart s) EmptyString.

(** [trimEnd]: the string is cut where its last run of white space
    begins. *)
Fixpoint trimEnd (s : string) : string :=
  match s with
  | EmptyString => EmptyString
  | String c rest => if allWhiteSpace s then EmptyString else String c (trimEnd rest)
  end.

Definition trim (s : string) : string := trimEnd (trimStart s).

(** [s.replace(newlineRegex, "")] for [newlineRegex = /[\r\n]+/g]: every
    carriage return and line feed is dropped. *)
Fixpoint removeNewlines (s : string) : string :=
  match s with
  | EmptyString => EmptyString
  | String c rest =>
      if ((Ascii.nat_of_ascii c =? 13)%nat || (Ascii.nat_of_ascii c =? 10)%nat)%bool
      then removeNewlines rest
      else String c (removeNewlines rest)
  end.

(** [hay.indexOf(needle) >= 0] *)
Definition includes (needle hay : string) : bool :=
  match String.index 0 needle hay with
  | Some _ => true
  | None => false
  end.

Record Location := {
  protocol : string;
  loc_host : string;
  pathname : string
}.

(** [`${l.protocol}//${l.host}${l.pathname}`] *)
Definition baseOf (l : Location) : string :=
  (protocol l ++ "//" ++ loc_host l ++ pathname l)%string.

Record CSSRule := { cssText : string }.

(** A style sheet.  Reading [cssRules] may throw, so the property holds a
    completion. *)
Record CSSStyleSheet := {
  ownerNode : option positive;
  cssRules : Result (list CSSRule)
}.

(** What [node.ownerDocument] gives: the identity of the document and its
    [location]. *)
Record DocumentRef := {
  doc_key : positive;
  doc_location : option Location
}.

(** A DOM node with the properties the processor reads, whatever interface
    they belong to.  [key] is the identity of the object; [constructorType]
    and [constructorSource] are [typeof n.constructor] and
    [n.constructor.toString()]; [dataset] lists the keys of the element's
    [dataset]. *)
Inductive Node := mkNode {
  key : positive;
  nodeType : Z;
  nodeValue : option string;
  parentElement : option Node;
  parentNode : option Node;
  ownerDocument : option DocumentRef;
  name : string;
  publicId : string;
  systemId : string;
  host : option Node;
  constructorType : string;
  constructorSource : string;
  tagName : string;
  namespaceURI : option string;
  attributes : option (list (string * string));
  shadowRoot : option Node;
  text : string;
  value : string;
  textContent : option string;
  dataset : option (list string);
  id : string;
  sheet : option CSSStyleSheet;
  contentDocument : option Node;
  contentWindow : option positive;
  readyState : string
}.

Inductive EventTarget :=
  | TNode (n : Node)
  | TWindow (w : positive).

(** ** The modules the processor calls *)

(** The members of the enums of [@clarity-types] the file names:
    [Source.Discover] and [Source.ChildListRemove] (the other sources the
    spec lists are mutation-add, mutation-update and attribute-change),
    [Dimension.MetaTitle], [MetaType] and [Generator], [Code.CssRules] and
    [Severity.Warning]. *)
Inductive Source := Discover | ChildListAdd | ChildListRemove | Attributes | CharacterData.

Inductive Dimension := MetaTitle | MetaType | DimGenerator.

Inductive Code := CssRules.

Inductive Severity := Warning.

Definition isDiscover (s : Source) : bool :=
  match s with Discover => true | _ => false end.

Definition isChildListRemove (s : Source) : bool :=
  match s with ChildListRemove => true | _ => false end.

(** The [data] handed to [dom.add] and [dom.update]; a field the object
    literal does not mention is [None]. *)
Record NodeData := {
  d_tag : string;
  d_attributes : option (gmap string string);
  d_value : option string
}.

(** [dom[call]] is [dom.add] or [dom.update]. *)
Inductive CallName := CallAdd | CallUpdate.

(** What [dom.iframeContent] returns. *)
Record IframeContent := {
  doc : option Node;
  win : option positive
}.

(** What the processor asks of the modules around it and of the page.  The
    answers do not change while one node is processed. *)
Record Env := {
  document : positive;
  location : Location;
  styleSheets : list CSSStyleSheet;
  electron : bool;
  dom_has : Node -> bool;
  dom_get : Node -> bool;
  dom_iframe : Node -> option Node;
  dom_sameorigin : Node -> bool;
  dom_iframeContent : Node -> option IframeContent;
  event_has : Node -> bool;
  JSON_parses : string -> bool;
  anchor : option string -> Location
}.

(** The calls the processor makes, in order.  [SchemaLd s] is
    [schema.ld(JSON.parse(s))], made when [s] parses (the [try] around it
    swallows whatever is thrown); [SetBase head b] is the assignment
    [baseHead.data.attributes[Constant.Base] = b] to the record of [head]. *)
Inductive Effect :=
  | DomCall (c : CallName) (node : Node) (parent : option Node) (data : NodeData) (source : Source)
  | DomParse (root : Node)
  | DomRemoveIFrame (frame doc : Node)
  | SetBase (head : Node) (base : string)
  | CheckDocumentStyles (root : Node) (timestamp : Z)
  | MutationObserve (root : Node)
  | MutationMonitor (frame : Node)
  | MutationDisconnect (doc : Node)
  | InteractionObserve (root : Node)
  | EventUnbind (target : EventTarget)
  | DimensionLog (d : Dimension) (v : string)
  | InternalLog (c : Code) (s : Severity) (name : option string)
  | SchemaLd (s : string).

(** Code that makes calls and may throw: the calls made, and the completion. *)
Definition W (A : Type) : Type := list Effect * Result A.

Definition ret {A} (a : A) : W A := ([], Ok a).

Definition throw {A} (e : Exn) : W A := ([], Throw e).

Definition emit (e : Effect) : W unit := ([e], Ok tt).

Definition bind {A B} (m : W A) (f : A -> W B) : W B :=
  match m with
  | (l, Ok a) => let (l', r) := f a in (l ++ l', r)
  | (l, Throw e) => (l, Throw e)
  end.

Declare Scope w_scope.
Delimit Scope w_scope with w.
Notation "x <- c1 ;; c2" := (bind c1 (fun x => c2))
  (at level 100, c1 at next level, right associativity) : w_scope.
Notation "c1 ;;; c2" := (bind c1 (fun _ => c2))
  (at level 100, right associativity) : w_scope.
Local Open Scope w_scope.

Definition when (b : bool) (m : W unit) : W unit := if b then m else ret tt.

Definition IGNORE_ATTRIBUTES : list string :=
  ["title"; "alt"; "onload"; "onfocus"; "onerror"; "data-drupal-form-submit-last";
   "aria-label"].

(** [getAttributes].  The object [output] is a finite map from names to
    values; [output[name] = ...] is [assign], and [Constant.Value in output]
    is membership ([value] is no member of [Object.prototype]). *)
Definition getAttributes (element : Node) : gmap string string :=
  let output :=
    match attributes element with
    | Some attrs =>
        foldl (fun output a =>
                 if absent a.1 IGNORE_ATTRIBUTES then assign a.1 a.2 output else output)
              ∅ attrs
    | None => ∅
    end in
  if String.eqb (tagName element) Constant.InputTag
     && negb (bool_decide (is_Some (output !! Constant.Value)))
     && truthy (value element)
  then <[Constant.Value := value element]> output
  else output.

(** [getCssRules] *)
Definition getCssRules (sheet : option CSSStyleSheet) : W string :=
  cssRules <-
    match (match sheet with Some s => cssRules s | None => Ok [] end) with
    | Ok rules => ret (Some rules)
    | Throw e =>
        emit (InternalLog CssRules Warning
                (match e with ExnError n => Some n | ExnFalsy => None end)) ;;;
        match e with
        | ExnError n => if negb (String.eqb n "SecurityError") then throw e else ret None
        | ExnFalsy => ret None
        end
    end ;;
  ret (match cssRules with
       | Some rules => foldl (fun v r => (v ++ cssText r)%string) Constant.Empty rules
       | None => Constant.Empty
       end).

(** [getStyleValue] *)
Definition getStyleValue (style : Node) : W string :=
  let v := match textContent style with
           | Some t => if truthy t then trim t else Constant.Empty
           | None => Constant.Empty
           end in
  let ds := match dataset style with
            | Some keys => length keys
            | None => 0%nat
            end in
  if (String.length v =? 0)%nat || (0 <? ds)%nat || (0 <? String.length (id style))%nat
  then getCssRules (sheet style)
  else ret v.

Section WithEnvironment.
Context (K : Constant.t) (E : Env).

(** [observe] *)
Definition observe (root : Node) : W unit :=
  if dom_has E root || event_has E root then ret tt
  else emit (MutationObserve root) ;;; emit (InteractionObserve root).

(** [removeObserver] *)
Definition removeObserver (root : Node) : W unit :=
  emit (EventUnbind (TNode root)) ;;;
  let content := dom_iframeContent E root in
  let d := content ≫= doc in
  let w := content ≫= win in
  match w with
  | Some w => emit (EventUnbind (TWindow w))
  | None => ret tt
  end ;;;
  match d with
  | Some d =>
      emit (EventUnbind (TNode d)) ;;;
      emit (MutationDisconnect d) ;;;
      emit (DomRemoveIFrame root d)
  | None => ret tt
  end.

(** [node.ownerDocument !== document] *)
Definition insideFrameOf (node : Node) : bool :=
  match ownerDocument node with
  | Some d => negb (doc_key d =? document E)%positive
  | None => true
  end.

(** The [switch (tag)] of an element.  [call], [parent], [insideFrame] and
    [attributes] are the variables of that name; the result is [child]. *)
Definition processElement (node : Node) (source : Source) (call : CallName)
    (insideFrame : bool) : W (option Node) :=
  let element := node in
  let tag := tagName element in
  let attributes := getAttributes element in
  let parent := match parentElement node with
                | Some p => Some p
                | None => parentNode node
                end in
  let tag := if bool_decide (namespaceURI element = Some (Constant.SvgNamespace K))
             then (Constant.SvgPrefix K ++ tag)%string else tag in
  if String.eqb tag "HTML" then
    let parent := match parent with
                  | Some p => if insideFrame then dom_iframe E p else parent
                  | None => parent
                  end in
    let htmlPrefix := if insideFrame then Constant.IFramePrefix K else Constant.Empty in
    emit (DomCall call node parent
            {| d_tag := (htmlPrefix ++ tag)%string; d_attributes := Some attributes;
               d_value := None |} source) ;;;
    ret None
  else if String.eqb tag "SCRIPT" then
    when (bool_decide (attributes !! Constant.Type_ K = Some (Constant.JsonLD K)))
         (let json := removeNewlines (text element) in
          when (JSON_parses E json) (emit (SchemaLd json))) ;;;
    ret None
  else if String.eqb tag "NOSCRIPT" then
    emit (DomCall call node parent
            {| d_tag := tag; d_attributes := Some ∅; d_value := Some ""%string |} source) ;;;
    ret None
  else if String.eqb tag "META" then
    let key := if bool_decide (is_Some (attributes !! Constant.Property)) then Some Constant.Property
               else if bool_decide (is_Some (attributes !! Constant.Name)) then Some Constant.Name
               else None in
    match key, attributes !! Constant.Content with
    | Some key, Some content =>
        if truthy key then
          match attributes !! key with
          | Some v =>
              if String.eqb v Constant.ogTitle then emit (DimensionLog MetaTitle content)
              else if String.eqb v (Constant.ogType K) then emit (DimensionLog MetaType content)
              else if String.eqb v (Constant.Generator K) then emit (DimensionLog DimGenerator content)
              else ret tt
          | None => ret tt
          end
        else ret tt
    | _, _ => ret tt
    end ;;;
    ret None
  else if String.eqb tag "HEAD" then
    let l := match (if insideFrame then ownerDocument node ≫= doc_location else None) with
             | Some l => l
             | None => location E
             end in
    emit (DomCall call node parent
            {| d_tag := tag; d_attributes := Some (<[Constant.Base K := baseOf l]> attributes);
               d_value := None |} source) ;;;
    ret None
  else if String.eqb tag "BASE" then
    match parentElement node with
    | Some head =>
        when (dom_get E head) (emit (SetBase head (baseOf (anchor E (attributes !! "href")))))
    | None => ret tt
    end ;;;
    ret None
  else if String.eqb tag "STYLE" then
    v <- getStyleValue element ;;
    emit (DomCall call node parent
            {| d_tag := tag; d_attributes := Some attributes; d_value := Some v |} source) ;;;
    ret None
  else if String.eqb tag "IFRAME" then
    let iframe := node in
    let sameorigin := dom_sameorigin E iframe in
    when sameorigin (emit (MutationMonitor iframe)) ;;;
    let attributes := if sameorigin then <[Constant.SameOrigin K := "true"%string]> attributes
                      else attributes in
    let child := if sameorigin then
                   match contentDocument iframe, contentWindow iframe with
                   | Some d, Some _ =>
                       if negb (String.eqb (readyState d) "loading") then Some d else None
                   | _, _ => None
                   end
                 else None in
    when (isChildListRemove source) (removeObserver iframe) ;;;
    emit (DomCall call node parent
            {| d_tag := tag; d_attributes := Some attributes; d_value := None |} source) ;;;
    ret child
  else if String.eqb tag "LINK" then
    if electron E && bool_decide (attributes !! "rel" = Some (Constant.StyleSheet K)) then
      match find (fun s => bool_decide (ownerNode s = Some (key element))) (styleSheets E) with
      | Some currentStyleSheet =>
          v <- getCssRules (Some currentStyleSheet) ;;
          emit (DomCall call node parent
                  {| d_tag := "STYLE"; d_attributes := Some attributes; d_value := Some v |}
                  source)
      | None => ret tt
      end ;;;
      ret None
    else
      emit (DomCall call node parent
              {| d_tag := tag; d_attributes := Some attributes; d_value := None |} source) ;;;
      ret None
  else if String.eqb tag "VIDEO" || String.eqb tag "AUDIO" || String.eqb tag "SOURCE" then
    let attributes :=
      match attributes !! Constant.Src with
      | Some src => if String.prefix "data:" src then <[Constant.Src := ""%string]> attributes
                    else attributes
      | None => attributes
      end in
    emit (DomCall call node parent
            {| d_tag := tag; d_attributes := Some attributes; d_value := None |} source) ;;;
    ret None
  else
    emit (DomCall call node parent
            {| d_tag := tag; d_attributes := Some attributes; d_value := None |} source) ;;;
    ret (shadowRoot element).

(** The default export, from [const add = ...] to the end: the statements
    that follow the choice of the node to process. *)
Definition processResolved (node : Node) (source : Source) (timestamp : Z)
  : W (option Node) :=
  let add := negb (dom_has E node) in
  let call := if add then CallAdd else CallUpdate in
  let parent := parentElement node in
  let insideFrame := insideFrameOf node in
  let type := nodeType node in
  if (type =? NodeType.DOCUMENT_TYPE_NODE)%Z then
    let parent := match parentNode node with
                  | Some p => if insideFrame then dom_iframe E p else parent
                  | None => parent
                  end in
    let docTypePrefix := if insideFrame then Constant.IFramePrefix K else Constant.Empty in
    let docName := if truthy (name node) then name node else Constant.HTML K in
    let docAttributes :=
      <["systemId" := systemId node]>
        (<["publicId" := publicId node]> (<["name" := docName]> ∅)) in
    emit (DomCall call node parent
            {| d_tag := (docTypePrefix ++ Constant.DocumentTag K)%string;
               d_attributes := Some docAttributes; d_value := None |} source) ;;;
    ret None
  else if (type =? NodeType.DOCUMENT_NODE)%Z then
    when (key node =? document E)%positive (emit (DomParse node)) ;;;
    emit (CheckDocumentStyles node timestamp) ;;;
    observe node ;;;
    ret None
  else if (type =? NodeType.DOCUMENT_FRAGMENT_NODE)%Z then
    let shadowRoot := node in
    match host shadowRoot with
    | Some h =>
        emit (DomParse shadowRoot) ;;;
        (if String.eqb (constructorType shadowRoot) (Constant.Function K)
            && includes (Constant.NativeCode K) (constructorSource shadowRoot)
         then
           observe shadowRoot ;;;
           emit (DomCall call node (Some h)
                   {| d_tag := Constant.ShadowDomTag K;
                      d_attributes := Some (<["style" := Constant.Empty]> ∅);
                      d_value := None |} source)
         else
           emit (DomCall call node (Some h)
                   {| d_tag := Constant.PolyfillShadowDomTag K;
                      d_attributes := Some ∅; d_value := None |} source)) ;;;
        emit (CheckDocumentStyles node timestamp)
    | None => ret tt
    end ;;;
    ret None
  else if (type =? NodeType.TEXT_NODE)%Z then
    let parent := match parent with
                  | Some p => Some p
                  | None => parentNode node
                  end in
    when (negb add
          || match parent with
             | Some p => dom_has E p
                         && negb (String.eqb (tagName p) "STYLE")
                         && negb (String.eqb (tagName p) "NOSCRIPT")
             | None => false
             end)
         (emit (DomCall call node parent
                  {| d_tag := Constant.TextTag K; d_attributes := None;
                     d_value := nodeValue node |} source)) ;;;
    ret None
  else if (type =? NodeType.ELEMENT_NODE)%Z then
    processElement node source call insideFrame
  else ret None.

(** Whether the processor turns from a text node to its parent: the text of
    a [STYLE] element, seen by anything but discovery. *)
Definition styleText (inputNode : Node) (source : Source) : bool :=
  negb (isDiscover source)
  && (nodeType inputNode =? NodeType.TEXT_NODE)%Z
  && match parentElement inputNode with
     | Some pe => String.eqb (tagName pe) "STYLE"
     | None => false
     end.

(** The default export: the node processor.  Reading a property of
    [node.parentNode] when it is [null] throws a [TypeError]. *)
Definition processNode (inputNode : Node) (source : Source) (timestamp : Z)
  : W (option Node) :=
  if isChildListRemove source && negb (dom_has E inputNode) then ret None
  else
    node <-
      (if styleText inputNode source
       then match parentNode inputNode with
            | Some p => ret p
            | None => throw (ExnError "TypeError")
            end
       else ret inputNode) ;;
    processResolved node source timestamp.

End WithEnvironment.

(** ** The tracking maps of the dom module *)

(** Modelled from the spec: the dom module is not among the sources.  It
    keeps the frame of every tracked content document and the content
    (document and window) of every tracked frame; [dom.iframeContent] reads
    the second map, and [dom.removeIFrame] "removes both the frame and its
    content document from the tracking maps".  Nodes are named by their
    keys. *)
Record Tracking := {
  iframeMap : gmap positive positive;
  iframeContentMap : gmap positive IframeContent
}.

(** Modelled from the spec: [dom.removeIFrame], which removes the frame and
    its content document from the two maps. *)
Definition removeIFrame (frame doc : Node) (t : Tracking) : Tracking :=
  {| iframeMap := delete (key doc) (iframeMap t);
     iframeContentMap := delete (key frame) (iframeContentMap t) |}.

(** Modelled from the spec: [dom.iframeContent], the content tracked for a
    frame. *)
Definition iframeContent (t : Tracking) (frame : Node) : option IframeContent :=
  iframeContentMap t !! key frame.

(** What a call does to the tracking maps, and a sequence of calls. *)
Definition track (t : Tracking) (e : Effect) : Tracking :=
  match e with
  | DomRemoveIFrame frame doc => removeIFrame frame doc t
  | _ => t
  end.

Definition trackAll (t : Tracking) (effects : list Effect) : Tracking :=
  foldl track t effects.

(** No entry of the maps refers to the document with key [d]. *)
Definition unreferenced (d : positive) (t : Tracking) : Prop :=
  iframeMap t !! d = None /\
  forall f c, iframeContentMap t !! f = Some c -> key <$> doc c <> Some d.

(** ** What the attribute loop is meant to compute *)

(** The value of the last attribute called [name]. *)
Definition attributeValue (name : string) (attrs : list (string * string)) : option string :=
  snd <$> find (fun a => String.eqb a.1 name) (reverse attrs).

(** ** Auxiliary definitions for the proofs *)

(** The body of the attribute loop of [getAttributes]. *)
Definition copyStep (output : gmap string string) (a : string * string) : gmap string string :=
  if absent a.1 IGNORE_ATTRIBUTES then assign a.1 a.2 output else output.

(** The concatenation of a list of strings. *)
Definition joinAll (l : list string) : string :=
  foldr String.append ""%string l.



(** The [parent] the processor settles on for a text node, and whether it
    lets a text node below it be added. *)
Definition textParent (node : Node) : option Node :=
  match parentElement node with
  | Some p => Some p
  | None => parentNode node
  end.


(** A string that is white space throughout: a sequence of characters of
    [whiteSpace]. *)
Inductive White : string -> Prop :=
  | White_nil : White EmptyString
  | White_cons w s : In w whiteSpace -> White s -> White (w ++ s)%string.

(** The static text of a style element, trimmed. *)
Definition trimmedText (style : Node) : string :=
  trim (default ""%string (textContent style)).

(** The rule list of a style sheet as [getCssRules] reads it. *)
Definition liveRules (sheet : option CSSStyleSheet) : Result (list CSSRule) :=
  match sheet with
  | Some s => cssRules s
  | None => Ok []
  end.

(** The calls of the teardown of a tracked frame with content [d], [w]. *)
Definition teardownCalls (frame d : Node) (w : positive) : list Effect :=
  [EventUnbind (TNode frame); EventUnbind (TWindow w); EventUnbind (TNode d);
   MutationDisconnect d; DomRemoveIFrame frame d].

(** ** Sample nodes and environments *)

Definition blank (k : positive) (type : Z) (tag : string) : Node :=
  {| key := k; nodeType := type; nodeValue := None; parentElement := None;
     parentNode := None; ownerDocument := Some {| doc_key := 1; doc_location := None |};
     name := ""; publicId := ""; systemId := ""; host := None;
     constructorType := ""; constructorSource := ""; tagName := tag;
     namespaceURI := Some "http://www.w3.org/1999/xhtml"%string; attributes := Some [];
     shadowRoot := None; text := ""; value := ""; textContent := None; dataset := None;
     id := ""; sheet := None; contentDocument := None; contentWindow := None;
     readyState := "complete" |}.

Definition withAttributes (attrs : list (string * string)) (n : Node) : Node :=
  {| key := key n; nodeType := nodeType n; nodeValue := nodeValue n;
     parentElement := parentElement n; parentNode := parentNode n;
     ownerDocument := ownerDocument n; name := name n; publicId := publicId n;
     systemId := systemId n; host := host n; constructorType := constructorType n;
     constructorSource := constructorSource n; tagName := tagName n;
     namespaceURI := namespaceURI n; attributes := Some attrs;
     shadowRoot := shadowRoot n; text := text n; value := value n;
     textContent := textContent n; dataset := dataset n; id := id n; sheet := sheet n;
     contentDocument := contentDocument n; contentWindow := contentWindow n;
     readyState := readyState n |}.

Definition withStyle (content : string) (ident : string) (s : CSSStyleSheet) (n : Node)
  : Node :=
  {| key := key n; nodeType := nodeType n; nodeValue := nodeValue n;
     parentElement := parentElement n; parentNode := parentNode n;
     ownerDocument := ownerDocument n; name := name n; publicId := publicId n;
     systemId := systemId n; host := host n; constructorType := constructorType n;
     constructorSource := constructorSource n; tagName := tagName n;
     namespaceURI := namespaceURI n; attributes := attributes n;
     shadowRoot := shadowRoot n; text := text n; value := value n;
     textContent := Some content; dataset := Some []; id := ident; sheet := Some s;
     contentDocument := contentDocument n; contentWindow := contentWindow n;
     readyState := readyState n |}.

Definition withScript (source : string) (n : Node) : Node :=
  {| key := key n; nodeType := nodeType n; nodeValue := nodeValue n;
     parentElement := parentElement n; parentNode := parentNode n;
     ownerDocument := ownerDocument n; name := name n; publicId := publicId n;
     systemId := systemId n; host := host n; constructorType := constructorType n;
     constructorSource := constructorSource n; tagName := tagName n;
     namespaceURI := namespaceURI n; attributes := attributes n;
     shadowRoot := shadowRoot n; text := source; value := value n;
     textContent := textContent n; dataset := dataset n; id := id n; sheet := sheet n;
     contentDocument := contentDocument n; contentWindow := contentWindow n;
     readyState := readyState n |}.


(** An environment in which nothing is tracked yet, and one in which the
    nodes with the keys [tracked] are and the frame with key [frame] has the
    content [content]. *)
Definition sampleLocation : Location :=
  {| protocol := "https:"; loc_host := "example.org"; pathname := "/" |}.

Definition sampleEnv (tracked : list positive) (frame : positive)
    (content : option IframeContent) : Env :=
  {| document := 1; location := sampleLocation; styleSheets := []; electron := false;
     dom_has := fun n => bool_decide (key n ∈ tracked);
     dom_get := fun n => bool_decide (key n ∈ tracked);
     dom_iframe := fun _ => None;
     dom_sameorigin := fun _ => false;
     dom_iframeContent := fun n => if (key n =? frame)%positive then content else None;
     event_has := fun _ => false;
     JSON_parses := fun _ => false;
     anchor := fun _ => sampleLocation |}.

(** A [META] tag with [property="og:title"] and [content="X"]. *)
Definition metaTitle : Node :=
  withAttributes [("property", "og:title"); ("content", "X")]%string
    (blank 7 NodeType.ELEMENT_NODE "META").

(** An [INPUT] without attributes whose live value is empty. *)
Definition emptyInput : Node := blank 8 NodeType.ELEMENT_NODE "INPUT".

(** Modelled from the spec: the identity registry of the dom module
    ([idFor] of the spec) is not among the sources; the registry of
    insight/snapshot.ts, which implements the same contract (allocate on first
    use, from a counter that only grows), stands for it. *)
Definition idFor : option positive -> Snapshot.M JsId := Snapshot.getId.

(** A tracked [IFRAME] with key 10 whose content document has key 11 and
    whose content window has key 12. *)
Definition frameDocument : Node := blank 11 NodeType.DOCUMENT_NODE "".

Definition trackedFrame : Node := blank 10 NodeType.ELEMENT_NODE "IFRAME".

Definition frameContent : IframeContent :=
  {| doc := Some frameDocument; win := Some 12%positive |}.

Definition frameEnv : Env := sampleEnv [10%positive] 10 (Some frameContent).

Definition frameTracking : Tracking :=
  {| iframeMap := {[ 11%positive := 10%positive ]};
     iframeContentMap := {[ 10%positive := frameContent ]} |}.

(** A style element with an [id] whose static text is stale: the text says
    red, the rule list says blue. *)
Definition blueSheet : CSSStyleSheet :=
  {| ownerNode := Some 20%positive; cssRules := Ok [ {| cssText := "p { color: blue; }" |} ] |}.

Definition staleStyle : Node :=
  withStyle " p { color: red; } " "theme" blueSheet (blank 20 NodeType.ELEMENT_NODE "STYLE").

(** A style element whose static text is white space only: a no-break
    space, a space, an em space and a line feed. *)
Definition blankStyle : Node :=
  withStyle (utf8 [194; 160; 32; 226; 128; 131; 10]) "" blueSheet
    (blank 22 NodeType.ELEMENT_NODE "STYLE").

(** A style sheet whose rule list cannot be read, for the reason [reason]. *)
Definition lockedSheet (reason : string) : CSSStyleSheet :=
  {| ownerNode := Some 21%positive; cssRules := Throw (ExnError reason) |}.

(** A [SCRIPT] of type [application/ld+json] whose text is not JSON. *)
Definition brokenJsonLd : Node :=
  withScript "{ not json" (withAttributes [("type", "application/ld+json")]%string
                             (blank 30 NodeType.ELEMENT_NODE "SCRIPT")).


Definition divElement : Node := blank 41 NodeType.ELEMENT_NODE "DIV".

Definition childText : Node :=
  {| key := 42; nodeType := NodeType.TEXT_NODE; nodeValue := Some "hi"%string;
     parentElement := Some divElement; parentNode := Some divElement;
     ownerDocument := Some {| doc_key := 1; doc_location := None |};
     name := ""; publicId := ""; systemId := ""; host := None;
     constructorType := ""; constructorSource := ""; tagName := "";
     namespaceURI := None; attributes := None; shadowRoot := None; text := "";
     value := ""; textContent := Some "hi"%string; dataset := None; id := "";
     sheet := None; contentDocument := None; contentWindow := None;
     readyState := "" |}.



(** A [VIDEO] whose [src] is a data URI, and the text of a [STYLE] element
    with one rule. *)
Definition inlineVideo : Node :=
  withAttributes [("src", "data:video/mp4;base64,AAAA")]%string
    (blank 50 NodeType.ELEMENT_NODE "VIDEO").

Definition redSheet : CSSStyleSheet :=
  {| ownerNode := Some 51%positive; cssRules := Ok [ {| cssText := "p { color: red; }" |} ] |}.

Definition plainStyle : Node :=
  withStyle " p { color: red; } " "" redSheet (blank 51 NodeType.ELEMENT_NODE "STYLE").

Definition styleChild : Node :=
  {| key := 52; nodeType := NodeType.TEXT_NODE;
     nodeValue := Some " p { color: red; } "%string;
     parentElement := Some plainStyle; parentNode := Some plainStyle;
     ownerDocument := Some {| doc_key := 1; doc_location := None |};
     name := ""; publicId := ""; systemId := ""; host := None;
     constructorType := ""; constructorSource := ""; tagName := "";
     namespaceURI := None; attributes := None; shadowRoot := None; text := "";
     value := ""; textContent := Some " p { color: red; } "%string; dataset := None;
     id := ""; sheet := None; contentDocument := None; contentWindow := None;
     readyState := "" |}.

End Layout.

(** * Further definitions for insight/snapshot.ts *)
Module SnapshotAux.
Import Snapshot.
Local Open Scope Z_scope.

(** Every identifier of the registry [m] is at least [lo]. *)
Definition idsFrom (lo : Z) (m : gmap positive Z) : Prop :=
  forall k i, m !! k = Some i -> lo <= i.

(** The privacy tag [metadata] returns. *)
Definition privacyOf (conversions : bool) : Privacy :=
  if conversions then PrivacySensitive else PrivacySnapshot.

(** Whether the loop body reads the registry for a node: a text node (its
    tag depends on the parent's entry), and a document type or an element
    that gets a tag (then [add] calls [getId]). *)
Definition needsRegistry (K : Constant.t) (node : Node) : bool :=
  let type := nodeType (props node) in
  if type =? NodeType.DOCUMENT_TYPE_NODE then truthy (Constant.DocumentTag K)
  else if type =? NodeType.TEXT_NODE then true
  else if type =? NodeType.ELEMENT_NODE then
    absent (tagName (props node)) ["NOSCRIPT"; "SCRIPT"; "STYLE"]
    && truthy (tagName (props node))
  else false.

(** The identifier [i] is known when a registry [m0] holds it or one of the
    records [recs] carries it as its own. *)
Definition known (m0 : gmap positive Z) (recs : list NodeValue) (i : Z) : Prop :=
  (exists k, m0 !! k = Some i) \/ (exists r, r ∈ recs /\ id r = Num i).

(** Every identifier a record of [recs] mentions (its own, its parent's, its
    previous sibling's) is known from [m0] or from the records up to and
    including that record. *)
Definition refsKnown (m0 : gmap positive Z) (recs : list NodeValue) : Prop :=
  forall p r i, recs !! p = Some r ->
    id r = Num i \/ parent r = Num i \/ previous r = Num i ->
    known m0 (take (S p) recs) i.

(** The keys of a list of nodes. *)
Definition keysOf (nodes : list Node) : list positive :=
  (fun n => key (props n)) <$> nodes.

(** No node of the list refers, as its parent or previous sibling, to itself
    or to a node that comes later in the list. *)
Definition refersBack (nodes : list Node) : Prop :=
  forall l1 n l2 pp, nodes = l1 ++ n :: l2 ->
    parentNode n = Some pp \/ previousSibling n = Some pp ->
    key pp ∉ keysOf (n :: l2).

(** From position [a] on, every node of the list [L] finds the node it
    names as its parent or its previous sibling at an earlier position. *)
Definition earlierFrom (a : nat) (L : list Node) : Prop :=
  forall p c pp, L !! p = Some c -> (a <= p)%nat ->
    parentNode c = Some pp \/ previousSibling c = Some pp ->
    exists p' c', (p' < p)%nat /\ L !! p' = Some c' /\ props c' = pp.

(** An element whose tag the loop body replaces by [null]. *)
Definition opaque (node : Node) : bool :=
  (nodeType (props node) =? NodeType.ELEMENT_NODE)
  && negb (absent (tagName (props node)) ["NOSCRIPT"; "SCRIPT"; "STYLE"]).

(** [t] is a text node whose [parent], as the loop body computes it, has the
    key [k]. *)
Definition textBelow (k : positive) (t : Node) : Prop :=
  nodeType (props t) = NodeType.TEXT_NODE /\ key <$> parentOf t = Some k.

(** A document whose only element is a [SCRIPT] with its source text. *)
Definition scriptP : Props := plainProps 2 NodeType.ELEMENT_NODE "SCRIPT" None.
Definition codeP : Props := plainProps 3 NodeType.TEXT_NODE "" (Some "let token = 1"%string).
Definition scriptDocument : Node := rootOf (T docP [T scriptP [T codeP []]]).
Definition scriptElement : Node := nth 1 (breadthFirst scriptDocument) scriptDocument.
Definition scriptText : Node := nth 2 (breadthFirst scriptDocument) scriptDocument.

End SnapshotAux.

(** * Further definitions for layout/node.ts *)
Module LayoutAux.
Import Layout.

(** The calls of [dom.add] and [dom.update] among the effects of a run. *)
Definition isDomCall (e : Effect) : bool :=
  match e with DomCall _ _ _ _ _ => true | _ => false end.

Definition domCalls (effects : list Effect) : list Effect :=
  List.filter isDomCall effects.

(** [call]: [add ? "add" : "update"], with [add = dom.has(node) === false]. *)
Definition callFor (E : Env) (node : Node) : CallName :=
  if negb (dom_has E node) then CallAdd else CallUpdate.

(** Effects without a call of [dom.add] or [dom.update], and effects with at
    most one, which is then the call [c] for [node] with [source]. *)
Definition silent (effects : list Effect) : Prop := domCalls effects = [].

Definition oneCall (c : CallName) (node : Node) (source : Source)
    (effects : list Effect) : Prop :=
  domCalls effects = [] \/
  exists parent data, domCalls effects = [DomCall c node parent data source].

(** Every [data] handed to [dom.add] or [dom.update] satisfies [P]. *)
Definition everyRecord (P : NodeData -> Prop) (effects : list Effect) : Prop :=
  forall c n p d s, In (DomCall c n p d s) effects -> P d.

(** A map, and a [data], without an attribute of the deny-list. *)
Definition cleanMap (m : gmap string string) : Prop :=
  forall name, In name IGNORE_ATTRIBUTES -> m !! name = None.

Definition cleanData (d : NodeData) : Prop :=
  forall attrs name, d_attributes d = Some attrs -> In name IGNORE_ATTRIBUTES ->
    attrs !! name = None.

(** The tags whose [src] the processor inspects, and a [data] that, if it
    carries one of them, has no [src] that is a data URI. *)
Definition mediaTags : list string := ["VIDEO"; "AUDIO"; "SOURCE"]%string.

Definition inlineFree (d : NodeData) : Prop :=
  In (d_tag d) mediaTags ->
  forall attrs v, d_attributes d = Some attrs -> attrs !! Constant.Src = Some v ->
    String.prefix "data:" v = false.

(** A failure that [getCssRules] passes on: an error object other than a
    [SecurityError], logged as a warning before it is thrown again. *)
Definition cssFailure {A} (w : W A) (e : Exn) : Prop :=
  exists name,
    e = ExnError name /\ name <> "SecurityError"%string /\
    In (InternalLog CssRules Warning (Some name)) w.1.

Definition failsByCss {A} (w : W A) : Prop :=
  forall e, w.2 = Throw e -> cssFailure w e.

(** The tag the [switch] of an element runs on. *)
Definition elementTag (K : Constant.t) (element : Node) : string :=
  if bool_decide (namespaceURI element = Some (Constant.SvgNamespace K))
  then (Constant.SvgPrefix K ++ tagName element)%string else tagName element.

(** The condition of [getStyleValue] under which it reads the rule list. *)
Definition readsRules (style : Node) : bool :=
  (String.length (trimmedText style) =? 0)%nat
  || (0 <? match dataset style with Some keys => length keys | None => 0 end)%nat
  || (0 <? String.length (id style))%nat.

(** The style sheet whose rule list a run on the element [node] reads: the
    sheet of a [STYLE] element when [getStyleValue] turns to it, and, in
    electron, the first sheet of the document that a [LINK] with
    [rel = stylesheet] owns. *)
Definition sheetRead (K : Constant.t) (E : Env) (node : Node) (s : CSSStyleSheet) : Prop :=
  (elementTag K node = "STYLE"%string /\ readsRules node = true /\ sheet node = Some s) \/
  (elementTag K node = "LINK"%string /\ electron E = true /\
   getAttributes node !! "rel"%string = Some (Constant.StyleSheet K) /\
   find (fun s => bool_decide (ownerNode s = Some (key node))) (styleSheets E) = Some s).


(** A [DIV] with a [title] and a [class]; a [STYLE] element without text
    whose rule list cannot be read; an element with a shadow root. *)
Definition titledDiv : Node :=
  withAttributes [("title", "Ann Lee"); ("class", "card")]%string
    (blank 60 NodeType.ELEMENT_NODE "DIV").

Definition lockedStyle : Node :=
  withStyle "" "" (lockedSheet "InvalidAccessError") (blank 21 NodeType.ELEMENT_NODE "STYLE").



End LayoutAux.

(** * Properties of insight/snapshot.ts *)
Module SnapshotFacts.
Import Snapshot.
Local Open Scope js_scope.
Local Open Scope Z_scope.

Lemma registry_ok_reset st :
  1 <= index st -> registry_ok (reset st).2 ∅.
Proof.
  intros Hi. split; simpl; [reflexivity | assumption | |];
    intros *; rewrite lookup_empty; discriminate.
Qed.

Lemma getId_known st m n i :
  idMap st = Some m -> m !! n = Some i ->
  getId (Some n) st = (Ok (Num i), st).
Proof.
  intros Hm Hn. unfold getId, bind, theIdMap. rewrite Hm, Hn. reflexivity.
Qed.

Lemma getId_fresh st m n :
  idMap st = Some m -> m !! n = None ->
  getId (Some n) st =
    (Ok (Num (index st)),
     {| values := values st; index := index st + 1;
        idMap := Some (<[n := index st]> m); calls := calls st |}).
Proof.
  intros Hm Hn. unfold getId, bind, theIdMap, get_index, idMap_set, bind, theIdMap.
  rewrite Hm, Hn. simpl. rewrite Hm. reflexivity.
Qed.

Lemma registry_ok_fresh st m n :
  registry_ok st m -> m !! n = None ->
  registry_ok {| values := values st; index := index st + 1;
                 idMap := Some (<[n := index st]> m); calls := calls st |}
              (<[n := index st]> m).
Proof.
  intros [Hm Hi Hr Hj] Hn. split; simpl; [reflexivity | lia | |].
  - intros k i. rewrite lookup_insert. case_decide.
    + intros [= <-]. lia.
    + intros Hk. specialize (Hr _ _ Hk). lia.
  - intros k1 k2 i. rewrite !lookup_insert.
    repeat case_decide; subst; intros H1 H2; simplify_eq; try reflexivity.
    + specialize (Hr _ _ H2). lia.
    + specialize (Hr _ _ H1). lia.
    + eauto.
Qed.

(** One call of [getId] in a state that satisfies the invariant: it returns
    a number, the registry holds that number for the node afterwards, no
    entry is lost, and the invariant still holds. *)
Lemma getId_step st m n :
  registry_ok st m ->
  exists i st' m',
    getId (Some n) st = (Ok (Num i), st') /\
    registry_ok st' m' /\ m' !! n = Some i /\ m ⊆ m' /\
    index st <= index st' /\ values st' = values st /\ calls st' = calls st.
Proof.
  intros Hok. destruct (m !! n) as [i|] eqn:Hn.
  - exists i, st, m. rewrite (getId_known st m n i (ok_map _ _ Hok) Hn).
    split; [reflexivity|]. split; [assumption|]. split; [assumption|].
    split; [reflexivity|]. split; [lia|]. split; reflexivity.
  - eexists _, _, _. rewrite (getId_fresh st m n (ok_map _ _ Hok) Hn).
    split; [reflexivity|]. split; [apply registry_ok_fresh; assumption|].
    split; [apply lookup_insert_eq|]. split; [apply insert_subseteq; assumption|].
    simpl. split; [lia|]. split; reflexivity.
Qed.

Lemma getIds_spec nodes : forall st m,
  registry_ok st m ->
  exists ids st' m',
    getIds nodes st = (Ok ids, st') /\
    registry_ok st' m' /\ m ⊆ m' /\
    length ids = length nodes /\
    forall k n, nodes !! k = Some n ->
      exists i, ids !! k = Some (Num i) /\ m' !! n = Some i.
Proof.
  induction nodes as [|n rest IH]; intros st m Hok.
  - exists [], st, m. split; [reflexivity|]. split; [assumption|].
    split; [reflexivity|]. split; [reflexivity|].
    intros k n. rewrite lookup_nil. discriminate.
  - destruct (getId_step st m n Hok) as (i & st1 & m1 & Hg & Hok1 & Hi & Hsub & _).
    destruct (IH st1 m1 Hok1) as (ids & st2 & m2 & Hgs & Hok2 & Hsub2 & Hlen & Hall).
    exists (Num i :: ids), st2, m2. cbn [getIds]. unfold bind at 1. rewrite Hg.
    unfold bind at 1. rewrite Hgs. split; [reflexivity|].
    split; [assumption|]. split; [etrans; eassumption|].
    split; [simpl; congruence|].
    intros [|k] n'; simpl.
    + intros [= <-]. exists i. split; [reflexivity|].
      eapply lookup_weaken; eassumption.
    + apply Hall.
Qed.

(** C1: identifier allocation.  The counter starts at 1.  In a state that
    satisfies the registry invariant (any state after [reset]), the first
    [getId] of a node returns the counter and moves it by one; and in every
    sequence of calls two calls return the same identifier exactly when they
    are calls for the same node, so later calls repeat the first answer and no
    identifier is given to two nodes.  Entries present before are kept. *)
Theorem getId_idempotent_monotonic st m :
  registry_ok st m ->
  index initial = 1 /\
  (forall n, m !! n = None ->
     exists st', getId (Some n) st = (Ok (Num (index st)), st') /\
                 index st' = index st + 1 /\
                 idMap st' = Some (<[n := index st]> m)) /\
  (forall nodes, exists ids st' m',
     getIds nodes st = (Ok ids, st') /\ registry_ok st' m' /\ m ⊆ m' /\
     forall j k n n', nodes !! j = Some n -> nodes !! k = Some n' ->
       (ids !! j = ids !! k <-> n = n')).
Proof.
  intros Hok. split; [reflexivity|]. split.
  - intros n Hn. eexists. rewrite (getId_fresh st m n (ok_map _ _ Hok) Hn).
    split; [reflexivity|]. split; reflexivity.
  - intros nodes.
    destruct (getIds_spec nodes st m Hok) as (ids & st' & m' & Hg & Hok' & Hsub & _ & Hall).
    exists ids, st', m'. split; [assumption|]. split; [assumption|]. split; [assumption|].
    intros j k n n' Hj Hk.
    destruct (Hall _ _ Hj) as (i & Hij & Hmi).
    destruct (Hall _ _ Hk) as (i' & Hik & Hmi').
    rewrite Hij, Hik. split.
    + intros [= <-]. eapply (ok_inj _ _ Hok'); eassumption.
    + intros <-. congruence.
Qed.

Lemma getId_idempotent_monotonic_witness :
  registry_ok (reset initial).2 ∅ /\
  exists st', getId (Some 5%positive) (reset initial).2 = (Ok (Num 1), st') /\
              index st' = 2.
Proof.
  assert (Hok : registry_ok (reset initial).2 ∅).
  { apply registry_ok_reset. simpl. lia. }
  split; [exact Hok|].
  destruct (getId_idempotent_monotonic _ _ Hok) as (_ & Hfirst & _).
  destruct (Hfirst 5%positive (lookup_empty _)) as (st' & Hg & Hi & _).
  exists st'. split; assumption.
Defined.

(** Three calls in a fresh session: the second call for node 5 repeats the
    identifier of the first. *)
Example getIds_repeat :
  (getIds [5; 7; 5]%positive (reset initial).2).1 = Ok [Num 1; Num 2; Num 1].
Proof. reflexivity. Qed.

(** ** The traversal is breadth-first *)


Lemma pushSiblings_spec ts : forall fuel parent prev queue,
  (length ts <= fuel)%nat ->
  pushSiblings fuel (headOf parent prev ts) queue = queue ++ childrenFrom parent prev ts.
Proof.
  induction ts as [|[p ks] rest IH]; intros fuel parent prev queue Hf.
  - destruct fuel; simpl; rewrite app_nil_r; reflexivity.
  - destruct fuel as [|fuel]; [simpl in Hf; lia|].
    cbn [headOf pushSiblings childrenFrom].
    change (nextSibling _) with (headOf parent (Some p) rest).
    rewrite IH by (simpl in Hf; lia).
    rewrite <- app_assoc. reflexivity.
Qed.

Lemma push_children node queue :
  pushSiblings (S (length (childTrees node))) (firstChild node) queue
  = queue ++ childNodes node.
Proof.
  change (firstChild node) with (headOf (Some (props node)) None (childTrees node)).
  apply pushSiblings_spec. lia.
Qed.


Lemma queueSize_app q1 q2 : queueSize (q1 ++ q2) = (queueSize q1 + queueSize q2)%nat.
Proof. unfold queueSize. rewrite map_app, list_sum_app. reflexivity. Qed.

Lemma queueSize_childrenFrom ts : forall parent prev,
  queueSize (childrenFrom parent prev ts) = list_sum (map treeSize ts).
Proof.
  induction ts as [|[p ks] rest IH]; intros parent prev; [reflexivity|].
  cbn [childrenFrom].
  match goal with
  | |- queueSize (?a :: ?l) = _ =>
      change (queueSize (a :: l)) with (nodeSize a + queueSize l)%nat
  end.
  rewrite IH. reflexivity.
Qed.

Lemma queueSize_children queue :
  (queueSize (flat_map childNodes queue) + length queue)%nat = queueSize queue.
Proof.
  induction queue as [|n rest IH]; [reflexivity|].
  cbn [flat_map length]. rewrite queueSize_app.
  unfold childNodes at 1. rewrite queueSize_childrenFrom.
  change (queueSize (n :: rest)) with (nodeSize n + queueSize rest)%nat.
  unfold nodeSize. lia.
Qed.

Lemma queueSize_length queue : (length queue <= queueSize queue)%nat.
Proof. pose proof (queueSize_children queue). lia. Qed.

Section Traversal.
Context (K : Constant.t).

Lemma visitAll_app l1 l2 st :
  visitAll K (l1 ++ l2) st =
  match visitAll K l1 st with
  | (Ok _, st') => visitAll K l2 st'
  | (Throw e, st') => (Throw e, st')
  end.
Proof.
  revert st. induction l1 as [|n l1 IH]; intros st; [reflexivity|].
  cbn [app visitAll]. unfold bind. destruct (visit K n st) as [[[]|e] st1]; [|reflexivity].
  apply IH.
Qed.

(** Taking a whole level off the queue: its nodes are visited in order while
    their children line up behind what was already waiting. *)
Lemma traverseLoop_level l1 : forall l2 fuel st,
  traverseLoop K (length l1 + fuel) (l1 ++ l2) st =
  match visitAll K l1 st with
  | (Ok _, st') => traverseLoop K fuel (l2 ++ flat_map childNodes l1) st'
  | (Throw e, st') => Some (Throw e, st')
  end.
Proof.
  induction l1 as [|n l1 IH]; intros l2 fuel st.
  - cbn [app length flat_map visitAll ret Nat.add]. rewrite app_nil_r. reflexivity.
  - cbn [app length Nat.add traverseLoop visitAll flat_map]. rewrite push_children.
    unfold bind. destruct (visit K n st) as [[[]|e] st1]; [|reflexivity].
    rewrite <- app_assoc, IH. destruct (visitAll K l1 st1) as [[[]|e] st2]; [|reflexivity].
    rewrite <- app_assoc. reflexivity.
Qed.


Lemma atDepth_nil d : atDepth d [] = [].
Proof. induction d; [reflexivity | assumption]. Qed.

Lemma levels_nil n : levels n [] = [].
Proof.
  unfold levels. induction (seq 0 n) as [|d ds IH]; [reflexivity|].
  cbn [flat_map]. rewrite atDepth_nil, IH. reflexivity.
Qed.

Lemma levels_S n queue :
  levels (S n) queue = queue ++ levels n (flat_map childNodes queue).
Proof.
  unfold levels. cbn [seq flat_map atDepth]. f_equal.
  rewrite <- seq_shift, flat_map_concat_map, map_map, <- flat_map_concat_map.
  reflexivity.
Qed.

Lemma traverseLoop_levels n : forall queue fuel st,
  (queueSize queue <= n)%nat -> (queueSize queue <= fuel)%nat ->
  traverseLoop K fuel queue st = Some (visitAll K (levels n queue) st).
Proof.
  induction n as [|n IH]; intros queue fuel st Hn Hf.
  - pose proof (queueSize_length queue). destruct queue; [|simpl in *; lia].
    destruct fuel; reflexivity.
  - destruct queue as [|x queue].
    { rewrite levels_nil. destruct fuel; reflexivity. }
    pose proof (queueSize_children (x :: queue)) as Hs.
    set (q := x :: queue) in *.
    assert (Hlen : (1 <= length q)%nat) by (subst q; simpl; lia).
    pose proof (traverseLoop_level q [] (fuel - length q) st) as Hlevel.
    rewrite app_nil_r in Hlevel.
    replace (length q + (fuel - length q))%nat with fuel in Hlevel by lia.
    rewrite Hlevel, levels_S, visitAll_app.
    destruct (visitAll K q st) as [[[]|e] st1]; [|reflexivity].
    cbn [app]. apply IH; lia.
Qed.

Lemma traverse_breadthFirst root st :
  traverse K root st = Some (visitAll K (breadthFirst root) st).
Proof.
  assert (Hs : queueSize [root] = nodeSize root).
  { unfold queueSize. cbn [map list_sum fold_right]. lia. }
  unfold traverse, breadthFirst. apply traverseLoop_levels; rewrite Hs; lia.
Qed.

End Traversal.

(** ** What one visit does to the state *)

Lemma idMap_get_spec st m k :
  idMap st = Some m ->
  idMap_get k st =
    (Ok (match k with
         | Some k => match m !! k with Some i => Num i | None => Undefined end
         | None => Undefined
         end), st).
Proof. intros Hm. unfold idMap_get, bind, theIdMap. rewrite Hm. reflexivity. Qed.

Lemma add_untagged node parent data st :
  truthy_opt (tag data) = false -> add node parent data st = (Ok tt, st).
Proof. intros H. unfold add. rewrite H. reflexivity. Qed.

Lemma add_tagged node parent data st i st1 m1 :
  truthy_opt (tag data) = true ->
  getId (Some (key (props node))) st = (Ok (Num i), st1) ->
  idMap st1 = Some m1 ->
  add node parent data st =
    (Ok tt, withValues (values st1 ++ [record i m1 node parent data]) st1).
Proof.
  intros Ht Hg Hm. unfold add. rewrite Ht. unfold bind at 1. rewrite Hg.
  unfold bind at 1.
  assert (Hp : (match parent with
                | Some p => idMap_get (Some (key p))
                | None => ret Null
                end) st1 = (Ok (idOf m1 parent), st1)).
  { destruct parent as [p|]; [|reflexivity].
    rewrite (idMap_get_spec st1 m1 _ Hm). reflexivity. }
  rewrite Hp. unfold bind at 1.
  assert (Hs : (match previousSibling node with
                | Some s => idMap_get (Some (key s))
                | None => ret Null
                end) st1 = (Ok (idOf m1 (previousSibling node)), st1)).
  { destruct (previousSibling node) as [p|]; [|reflexivity].
    rewrite (idMap_get_spec st1 m1 _ Hm). reflexivity. }
  rewrite Hs. reflexivity.
Qed.

Lemma add_throws node parent data st :
  truthy_opt (tag data) = true -> idMap st = None ->
  add node parent data st = (Throw (ExnError "TypeError"), st).
Proof.
  intros Ht Hm. unfold add. rewrite Ht. unfold bind at 1, getId, bind at 1, theIdMap.
  rewrite Hm. reflexivity.
Qed.

(** [add] has no update branch: whatever the state, it leaves the records
    pushed so far as they are and pushes at most one. *)
Lemma add_appends node parent data st :
  exists recs, values (add node parent data st).2 = values st ++ recs /\
               (length recs <= 1)%nat.
Proof.
  destruct (truthy_opt (tag data)) eqn:Ht.
  - destruct (idMap st) as [m|] eqn:Hm.
    + destruct (m !! key (props node)) as [i|] eqn:Hk.
      * rewrite (add_tagged node parent data st i st m Ht (getId_known _ _ _ _ Hm Hk) Hm).
        eexists [_]. split; [reflexivity | simpl; lia].
      * erewrite (add_tagged node parent data st _ _ _ Ht (getId_fresh _ _ _ Hm Hk));
          [|reflexivity].
        eexists [_]. split; [reflexivity | simpl; lia].
    + rewrite (add_throws node parent data st Ht Hm).
      exists []. rewrite app_nil_r. split; [reflexivity | simpl; lia].
  - rewrite (add_untagged node parent data st Ht).
    exists []. rewrite app_nil_r. split; [reflexivity | simpl; lia].
Qed.

Section Visits.
Context (K : Constant.t).

Lemma visit_spec node st m :
  idMap st = Some m ->
  visit K node st = add node (parentOf node) (classify K m node) st.
Proof.
  intros Hm. unfold visit, classify. fold (parentOf node).
  destruct (nodeType (props node) =? NodeType.DOCUMENT_TYPE_NODE); [reflexivity|].
  destruct (nodeType (props node) =? NodeType.TEXT_NODE).
  { unfold bind at 1. unfold bind at 1. rewrite (idMap_get_spec st m _ Hm). reflexivity. }
  destruct (nodeType (props node) =? NodeType.ELEMENT_NODE); reflexivity.
Qed.

Lemma visit_appends node st :
  exists recs, values (visit K node st).2 = values st ++ recs /\
               (length recs <= 1)%nat.
Proof.
  destruct (idMap st) as [m|] eqn:Hm.
  - rewrite (visit_spec node st m Hm). apply add_appends.
  - unfold visit. fold (parentOf node).
    destruct (nodeType (props node) =? NodeType.DOCUMENT_TYPE_NODE); [apply add_appends|].
    destruct (nodeType (props node) =? NodeType.TEXT_NODE).
    { unfold bind at 1. unfold bind at 1. unfold idMap_get, bind, theIdMap. rewrite Hm.
      exists []. rewrite app_nil_r. split; [reflexivity | simpl; lia]. }
    destruct (nodeType (props node) =? NodeType.ELEMENT_NODE); apply add_appends.
Qed.

Lemma registry_ok_withValues vs st m :
  registry_ok st m -> registry_ok (withValues vs st) m.
Proof. intros [? ? ? ?]. split; assumption. Qed.

Lemma add_ok node parent data st m :
  registry_ok st m ->
  exists st' m' recs,
    add node parent data st = (Ok tt, st') /\
    registry_ok st' m' /\ m ⊆ m' /\
    values st' = values st ++ recs /\ (length recs <= 1)%nat /\
    calls st' = calls st.
Proof.
  intros Hok. destruct (truthy_opt (tag data)) eqn:Ht.
  - destruct (getId_step st m (key (props node)) Hok)
      as (i & st1 & m1 & Hg & Hok1 & _ & Hsub & _ & Hv & Hc).
    rewrite (add_tagged node parent data st i st1 m1 Ht Hg (ok_map _ _ Hok1)).
    eexists _, m1, [_]. split; [reflexivity|].
    split; [apply registry_ok_withValues; assumption|]. split; [assumption|].
    simpl. rewrite Hv. split; [reflexivity|]. split; [lia|assumption].
  - rewrite (add_untagged node parent data st Ht).
    exists st, m, []. rewrite app_nil_r. split; [reflexivity|].
    split; [assumption|]. split; [reflexivity|]. split; [reflexivity|].
    split; [simpl; lia|reflexivity].
Qed.

Lemma visit_ok node st m :
  registry_ok st m ->
  exists st' m' recs,
    visit K node st = (Ok tt, st') /\
    registry_ok st' m' /\ m ⊆ m' /\
    values st' = values st ++ recs /\ (length recs <= 1)%nat /\
    calls st' = calls st.
Proof.
  intros Hok. rewrite (visit_spec node st m (ok_map _ _ Hok)). apply add_ok, Hok.
Qed.

Lemma visitAll_ok nodes : forall st m,
  registry_ok st m ->
  exists st' m' recs,
    visitAll K nodes st = (Ok tt, st') /\
    registry_ok st' m' /\ m ⊆ m' /\
    values st' = values st ++ recs /\ (length recs <= length nodes)%nat /\
    calls st' = calls st.
Proof.
  induction nodes as [|n rest IH]; intros st m Hok.
  - exists st, m, []. rewrite app_nil_r. split; [reflexivity|].
    split; [assumption|]. split; [reflexivity|]. split; [reflexivity|].
    split; [simpl; lia|reflexivity].
  - destruct (visit_ok n st m Hok) as (st1 & m1 & r1 & Hv & Hok1 & Hs1 & Hv1 & Hl1 & Hc1).
    destruct (IH st1 m1 Hok1) as (st2 & m2 & r2 & Hv' & Hok2 & Hs2 & Hv2 & Hl2 & Hc2).
    exists st2, m2, (r1 ++ r2). cbn [visitAll]. unfold bind. rewrite Hv, Hv'.
    split; [reflexivity|]. split; [assumption|]. split; [etrans; eassumption|].
    rewrite Hv2, Hv1, app_assoc. split; [reflexivity|].
    rewrite length_app. simpl. split; [lia|congruence].
Qed.

(** With a registry in place the snapshot completes; it keeps every entry of
    the registry, and what it leaves in [values] is what it hands to the
    encoder. *)
Lemma snapshot_ok document st m :
  registry_ok st m ->
  exists st' m',
    snapshot K document st = Some (Ok tt, st') /\
    registry_ok st' m' /\ m ⊆ m' /\
    (length (values st') <= length (breadthFirst document))%nat /\
    calls st' = calls st ++ [Encode EventSnapshot (values st')].
Proof.
  intros Hok. unfold snapshot. rewrite traverse_breadthFirst.
  destruct (visitAll_ok (breadthFirst document) (withValues [] st) m
              (registry_ok_withValues _ _ _ Hok))
    as (st1 & m1 & recs & Hv & Hok1 & Hs & Hvals & Hlen & Hc).
  fold (withValues [] st). rewrite Hv.
  eexists _, m1. split; [reflexivity|]. simpl.
  split; [destruct Hok1; split; assumption|]. split; [assumption|].
  rewrite Hvals, Hc. split; [assumption | reflexivity].
Qed.

Lemma levels_length n : forall queue,
  (queueSize queue <= n)%nat -> length (levels n queue) = queueSize queue.
Proof.
  induction n as [|n IH]; intros queue Hn.
  - pose proof (queueSize_length queue). destruct queue; [reflexivity | simpl in *; lia].
  - destruct queue as [|x queue]; [rewrite levels_nil; reflexivity|].
    pose proof (queueSize_children (x :: queue)) as Hs.
    rewrite levels_S, length_app, IH; [lia|]. cbn [length] in Hs. lia.
Qed.

(** The breadth-first listing has as many entries as the tree has nodes. *)
Lemma breadthFirst_length root : length (breadthFirst root) = nodeSize root.
Proof.
  assert (Hs : queueSize [root] = nodeSize root).
  { unfold queueSize. cbn [map list_sum fold_right]. lia. }
  unfold breadthFirst. fold (levels (nodeSize root) [root]).
  rewrite levels_length; lia.
Qed.

(** A visit, exactly: it completes, the registry only grows, and it pushes
    the record of the node when the tag is set and nothing otherwise. *)
Lemma getId_off_key st m n :
  registry_ok st m ->
  exists i st' m',
    getId (Some n) st = (Ok (Num i), st') /\
    registry_ok st' m' /\ m' !! n = Some i /\ m ⊆ m' /\
    (forall k, k <> n -> m' !! k = m !! k) /\
    values st' = values st /\ calls st' = calls st.
Proof.
  intros Hok. destruct (m !! n) as [i|] eqn:Hn.
  - exists i, st, m. rewrite (getId_known st m n i (ok_map _ _ Hok) Hn).
    split; [reflexivity|]. split; [assumption|]. split; [assumption|].
    split; [reflexivity|]. split; [reflexivity|]. split; reflexivity.
  - eexists _, _, _. rewrite (getId_fresh st m n (ok_map _ _ Hok) Hn).
    split; [reflexivity|]. split; [apply registry_ok_fresh; assumption|].
    split; [apply lookup_insert_eq|]. split; [apply insert_subseteq; assumption|].
    split; [intros k Hk; apply lookup_insert_ne; congruence|].
    split; reflexivity.
Qed.

Lemma visit_step node st m :
  registry_ok st m ->
  exists st' m',
    visit K node st = (Ok tt, st') /\
    registry_ok st' m' /\ m ⊆ m' /\
    (forall k, k <> key (props node) -> m' !! k = m !! k) /\
    calls st' = calls st /\
    ((truthy_opt (tag (classify K m node)) = false /\ st' = st /\ m' = m) \/
     (truthy_opt (tag (classify K m node)) = true /\
      exists i, m' !! key (props node) = Some i /\
        values st' = values st
                     ++ [record i m' node (parentOf node) (classify K m node)])).
Proof.
  intros Hok. rewrite (visit_spec node st m (ok_map _ _ Hok)).
  destruct (truthy_opt (tag (classify K m node))) eqn:Ht.
  - destruct (getId_off_key st m (key (props node)) Hok)
      as (i & st1 & m1 & Hg & Hok1 & Hi & Hsub & Hoff & Hv & Hc).
    rewrite (add_tagged node _ _ st i st1 m1 Ht Hg (ok_map _ _ Hok1)).
    eexists _, m1. split; [reflexivity|].
    split; [apply registry_ok_withValues; assumption|]. split; [assumption|].
    split; [assumption|]. split; [assumption|].
    right. split; [reflexivity|]. exists i. split; [assumption|].
    simpl. rewrite Hv. reflexivity.
  - rewrite (add_untagged node _ _ st Ht). exists st, m.
    split; [reflexivity|]. split; [assumption|]. split; [reflexivity|].
    split; [reflexivity|]. split; [reflexivity|]. left. repeat split.
Qed.

(** Outside text nodes the tag does not depend on the registry. *)
Lemma classify_static m m' node :
  nodeType (props node) <> NodeType.TEXT_NODE ->
  classify K m node = classify K m' node.
Proof.
  intros Ht. unfold classify.
  destruct (nodeType (props node) =? NodeType.DOCUMENT_TYPE_NODE); [reflexivity|].
  destruct (Z.eqb_spec (nodeType (props node)) NodeType.TEXT_NODE) as [He|_];
    [contradiction | reflexivity].
Qed.

(** Visiting a list of nodes records every doctype and element among them
    whose tag is set. *)
Lemma visitAll_tagged nodes : forall st m,
  registry_ok st m ->
  exists st' m' recs,
    visitAll K nodes st = (Ok tt, st') /\
    registry_ok st' m' /\ m ⊆ m' /\
    values st' = values st ++ recs /\
    forall n, n ∈ nodes ->
      nodeType (props n) <> NodeType.TEXT_NODE ->
      truthy_opt (tag (classify K m' n)) = true ->
      exists i r, m' !! key (props n) = Some i /\ r ∈ recs /\
                  id r = Num i /\ data r = classify K m' n.
Proof.
  induction nodes as [|n rest IH]; intros st m Hok.
  - exists st, m, []. rewrite app_nil_r.
    split; [reflexivity|]. split; [assumption|]. split; [reflexivity|].
    split; [reflexivity|]. intros n Hn. apply elem_of_nil in Hn. destruct Hn.
  - destruct (visit_step n st m Hok) as (st1 & m1 & Hv & Hok1 & Hs1 & _ & _ & Hcase).
    destruct (IH st1 m1 Hok1) as (st2 & m2 & recs & Hv2 & Hok2 & Hs2 & Hvals & Htagged).
    cbn [visitAll]. unfold bind. rewrite Hv, Hv2.
    destruct Hcase as [(Hno & -> & ->) | (_ & i & Hi & Hv1)].
    + exists st2, m2, recs.
      split; [reflexivity|]. split; [assumption|]. split; [assumption|].
      split; [assumption|].
      intros n' Hn' Htype Htag. apply elem_of_cons in Hn' as [->|Hn'].
      * rewrite (classify_static m2 m n Htype) in Htag. congruence.
      * exact (Htagged n' Hn' Htype Htag).
    + exists st2, m2, ([record i m1 n (parentOf n) (classify K m n)] ++ recs).
      split; [reflexivity|]. split; [assumption|].
      split; [etrans; eassumption|].
      split; [rewrite Hvals, Hv1, <- app_assoc; reflexivity|].
      intros n' Hn' Htype Htag. apply elem_of_cons in Hn' as [->|Hn'].
      * exists i, (record i m1 n (parentOf n) (classify K m n)).
        split; [eapply lookup_weaken; eassumption|].
        split; [apply elem_of_app; left; apply list_elem_of_singleton; reflexivity|].
        split; [reflexivity|]. apply (classify_static m m2 n Htype).
      * destruct (Htagged n' Hn' Htype Htag) as (j & r & Hj & Hr & Hid & Hd).
        exists j, r. split; [assumption|].
        split; [apply elem_of_app; right; assumption|]. split; assumption.
Qed.

(** The snapshot with a registry in place: it completes and keeps the
    registry, and every doctype and element of the document whose tag is set
    has its record in [values]. *)
Lemma snapshot_tagged document st m :
  registry_ok st m ->
  exists st' m',
    snapshot K document st = Some (Ok tt, st') /\
    registry_ok st' m' /\ m ⊆ m' /\
    forall n, n ∈ breadthFirst document ->
      nodeType (props n) <> NodeType.TEXT_NODE ->
      truthy_opt (tag (classify K m' n)) = true ->
      exists i r, m' !! key (props n) = Some i /\ r ∈ values st' /\
                  id r = Num i /\ data r = classify K m' n.
Proof.
  intros Hok. unfold snapshot. rewrite traverse_breadthFirst.
  destruct (visitAll_tagged (breadthFirst document) (withValues [] st) m
              (registry_ok_withValues _ _ _ Hok))
    as (st1 & m1 & recs & Hv & Hok1 & Hs & Hvals & Htagged).
  fold (withValues [] st). rewrite Hv.
  exists (call (Encode EventSnapshot (values st1)) st1).2, m1.
  split; [reflexivity|].
  split; [destruct Hok1 as [H1 H2 H3 H4]; split; [exact H1 | exact H2 | exact H3 | exact H4]|].
  split; [assumption|].
  change (values (call (Encode EventSnapshot (values st1)) st1).2) with (values st1).
  rewrite Hvals. exact Htagged.
Qed.

End Visits.

(** Breadth-first and depth-first order differ on [orderTree]: node 3, the
    second child of the root, comes before node 4, the grandchild. *)
Example breadthFirst_orderTree :
  map (fun n => key (props n)) (breadthFirst orderTree) = [1; 2; 3; 4]%positive.
Proof. reflexivity. Qed.

(** C2 (as amended): the snapshot empties [values] and walks the tree below
    the document breadth-first, handing every node (the listing has one entry
    per node) to [visit] and so to [add]; [add] has no update branch: a visit
    leaves the records pushed so far as they are, pushes the record of the
    node when its tag is set, and pushes nothing otherwise.  The registry is
    not reset: the walk starts from the registry and the counter the state
    had, and when a registry is in place the run completes, every entry it
    held is still there afterwards, and every doctype and element of the
    document whose tag is set has its record in [values]. *)
Theorem snapshot_breadth_first K document st :
  snapshot K document st =
    match visitAll K (breadthFirst document) (withValues [] st) with
    | (Ok _, st') => Some (call (Encode EventSnapshot (values st')) st')
    | (Throw e, st') => Some (Throw e, st')
    end /\
  length (breadthFirst document) = nodeSize document /\
  (forall node s, exists recs,
     values (visit K node s).2 = values s ++ recs /\ (length recs <= 1)%nat) /\
  (forall node s m, registry_ok s m ->
     exists s' m',
       visit K node s = (Ok tt, s') /\ registry_ok s' m' /\ m ⊆ m' /\
       ((truthy_opt (tag (classify K m node)) = false /\ s' = s) \/
        (truthy_opt (tag (classify K m node)) = true /\
         exists i, m' !! key (props node) = Some i /\
           values s' = values s
                       ++ [record i m' node (parentOf node) (classify K m node)]))) /\
  idMap (withValues [] st) = idMap st /\
  index (withValues [] st) = index st /\
  (forall m, registry_ok st m ->
     exists st' m', snapshot K document st = Some (Ok tt, st') /\
                    registry_ok st' m' /\ m ⊆ m' /\
                    forall n, n ∈ breadthFirst document ->
                      nodeType (props n) <> NodeType.TEXT_NODE ->
                      truthy_opt (tag (classify K m' n)) = true ->
                      exists i r, m' !! key (props n) = Some i /\ r ∈ values st' /\
                                  id r = Num i /\ data r = classify K m' n).
Proof.
  split.
  { unfold snapshot. rewrite traverse_breadthFirst. fold (withValues [] st).
    destruct (visitAll K (breadthFirst document) (withValues [] st)) as [[[]|e] st'];
      reflexivity. }
  split; [apply breadthFirst_length|].
  split; [apply visit_appends|].
  split.
  { intros node s m Hok.
    destruct (visit_step K node s m Hok) as (s' & m' & Hv & Hok' & Hsub & _ & _ & Hcase).
    exists s', m'. split; [assumption|]. split; [assumption|]. split; [assumption|].
    destruct Hcase as [(Hno & Hs & _) | Hyes]; [left; split; assumption | right; exact Hyes]. }
  split; [reflexivity|]. split; [reflexivity|].
  intros m Hok. exact (snapshot_tagged K document st m Hok).
Qed.

Lemma snapshot_breadth_first_witness :
  registry_ok (reset initial).2 ∅ /\
  exists st' m', snapshot sample_constants helloDocument (reset initial).2 = Some (Ok tt, st') /\
                 registry_ok st' m'.
Proof.
  assert (Hok : registry_ok (reset initial).2 ∅).
  { apply registry_ok_reset. simpl. lia. }
  split; [exact Hok|].
  destruct (snapshot_breadth_first sample_constants helloDocument (reset initial).2)
    as (_ & _ & _ & _ & _ & _ & Hkeep).
  destruct (Hkeep ∅ Hok) as (st' & m' & Hs & Hok' & _).
  exists st', m'. split; assumption.
Defined.

(** C2, as stated, fails: [snapshot] does not reset the registry.  After
    [start] the registry holds the page root (the [DIV], identifier 1); the
    snapshot reuses that entry, whereas a run from an emptied registry would
    hand out the next identifiers. *)
Lemma snapshot_does_not_reset_registry :
  let st0 := (start helloDocument initial).2 in
  idMap st0 = Some {[2%positive := 1]} /\
  map id (values (stateAfter (snapshot sample_constants helloDocument st0) st0))
    = [Num 1; Num 2] /\
  map id (values (stateAfter (snapshot sample_constants helloDocument (reset st0).2) st0))
    = [Num 2; Num 3].
Proof. vm_compute. repeat split. Qed.

(** C3 (as amended): from a reset state the snapshot of [helloDocument]
    yields exactly two records: the [DIV], whose parent field is the registry
    entry of the root document, which is [undefined] because the traversal
    never gives the document an identifier, and the text, whose parent is the
    identifier of the [DIV] and whose value is "hello".  A second run in the
    same session (no reset in between) yields the same records with the same
    identifiers. *)
Theorem snapshot_div_hello K st :
  truthy (Constant.TextTag K) = true ->
  idMap st = Some ∅ -> 1 <= index st ->
  let st1 := stateAfter (snapshot K helloDocument st) st in
  let st2 := stateAfter (snapshot K helloDocument st1) st1 in
  snapshot K helloDocument st = Some (Ok tt, st1) /\
  values st1 = [divRecord (index st); textRecord K (index st)] /\
  idMap_get (Some (key docP)) st1 = (Ok Undefined, st1) /\
  snapshot K helloDocument st1 = Some (Ok tt, st2) /\
  values st2 = values st1.
Proof.
  intros Ht Hm Hi. destruct st as [vs idx m cs]. simpl in Hm, Hi. subst m.
  destruct idx as [|p|p]; try lia.
  destruct K. cbn [Constant.TextTag] in *.
  destruct TextTag as [|c s]; [discriminate|].
  vm_compute. repeat split.
Qed.

Lemma snapshot_div_hello_witness :
  truthy (Constant.TextTag sample_constants) = true /\
  idMap (reset initial).2 = Some ∅ /\
  values (stateAfter (snapshot sample_constants helloDocument (reset initial).2)
                     (reset initial).2)
    = [divRecord 1; textRecord sample_constants 1].
Proof.
  split; [reflexivity|]. split; [reflexivity|].
  exact (proj1 (proj2 (snapshot_div_hello sample_constants (reset initial).2
                         eq_refl eq_refl (Z.le_refl 1)))).
Defined.

(** C3, as stated, fails in its last part: with a reset before each run the
    two runs do not assign the same identifiers, because [reset] renews the
    map and leaves the counter where it was. *)
Lemma snapshot_reset_between_runs :
  let run st := stateAfter (snapshot sample_constants helloDocument (reset st).2) st in
  map id (values (run initial)) = [Num 1; Num 2] /\
  map id (values (run (run initial))) = [Num 3; Num 4].
Proof. vm_compute. repeat split. Qed.

(** ** [target] *)

Lemma elementAmong_element ts : forall p prev r,
  elementAmong p prev ts = Some r -> nodeType (props r) = NodeType.ELEMENT_NODE.
Proof.
  induction ts as [|[q ks] rest IH]; intros p prev r; [discriminate|].
  cbn [elementAmong]. destruct (nodeType q =? NodeType.ELEMENT_NODE) eqn:Hq.
  - intros [= <-]. simpl. lia.
  - apply IH.
Qed.

Lemma orDocumentElement_not_document node r :
  orDocumentElement node = Some r -> nodeType (props r) <> NodeType.DOCUMENT_NODE.
Proof.
  unfold orDocumentElement.
  destruct (nodeType (props node) =? NodeType.DOCUMENT_NODE) eqn:Hd.
  - intros He. apply elementAmong_element in He. rewrite He. discriminate.
  - intros [= <-]. lia.
Qed.

(** C10: [target] resolves the first entry of the composed path when the
    event is composed, offers [composedPath] and the path is not empty, and
    the event's target otherwise; a document is replaced by its
    [documentElement], so the result is never a document node. *)
Theorem target_resolution evt :
  (forall first rest,
     composed evt = true -> composedPath evt = Some (first :: rest) ->
     target evt = orDocumentElement first) /\
  (composed evt = false \/ composedPath evt = None \/ composedPath evt = Some [] ->
   target evt = orDocumentElement (evt_target evt)) /\
  (forall r, target evt = Some r -> nodeType (props r) <> NodeType.DOCUMENT_NODE).
Proof.
  split; [|split].
  - intros first rest Hc Hp. unfold target. rewrite Hc, Hp. reflexivity.
  - intros H. unfold target.
    destruct (composed evt); [|reflexivity].
    destruct H as [H|[H|H]]; [discriminate| |]; rewrite H; reflexivity.
  - intros r. unfold target.
    apply (orDocumentElement_not_document
             (match (if composed evt then composedPath evt else None) with
              | Some (first :: _) => first
              | _ => evt_target evt
              end)).
Qed.

Lemma target_resolution_witness :
  let evt := {| composed := true;
                composedPath := Some [helloDocument];
                evt_target := rootOf (T textP []) |} in
  (key <$> (props <$> target evt)) = Some 2%positive.
Proof.
  intros evt.
  rewrite (proj1 (target_resolution evt) helloDocument [] eq_refl eq_refl).
  reflexivity.
Defined.

End SnapshotFacts.

(** * Properties of layout/node.ts *)
Module LayoutFacts.
Import Layout.
Local Open Scope w_scope.


(** ** Calls made by composite code *)

Lemma bind_effects {A B} (m : W A) (f : A -> W B) :
  (bind m f).1 = m.1 ++ match m.2 with Ok a => (f a).1 | Throw _ => [] end.
Proof.
  destruct m as [l [a|e]]; simpl; [|rewrite app_nil_r; reflexivity].
  destruct (f a). reflexivity.
Qed.

Lemma bind_ret {A B} (a : A) (f : A -> W B) : bind (ret a) f = f a.
Proof. unfold bind, ret. destruct (f a). reflexivity. Qed.










Section Processor.
Context (K : Constant.t) (E : Env).





End Processor.




Lemma attributeValue_snoc name attrs a :
  attributeValue name (attrs ++ [a]) =
  if String.eqb a.1 name then Some a.2 else attributeValue name attrs.
Proof.
  unfold attributeValue. rewrite reverse_snoc. cbn [find].
  destruct (String.eqb a.1 name); reflexivity.
Qed.

Lemma absent_In name l : absent name l = true <-> ~ In name l.
Proof.
  unfold absent. rewrite negb_true_iff, <- not_true_iff_false, existsb_exists.
  split; intros H.
  - intros Hin. apply H. exists name. split; [assumption | apply String.eqb_refl].
  - intros (x & Hin & Heq). apply String.eqb_eq in Heq. subst x. contradiction.
Qed.

Lemma assign_lookup k v (m : gmap string string) name :
  assign k v m !! name =
  if String.eqb k "__proto__" then m !! name
  else if String.eqb k name then Some v else m !! name.
Proof.
  unfold assign. destruct (String.eqb k "__proto__"); [reflexivity|].
  destruct (String.eqb_spec k name) as [->|Hne];
    [apply lookup_insert_eq | apply lookup_insert_ne, Hne].
Qed.

(** What the two attribute loops leave under a name: nothing under
    [__proto__], and otherwise the value of the last attribute of that name
    (that the deny-list lets through). *)
Lemma snapshot_copy_lookup attrs name :
  foldl (fun output a => assign a.1 a.2 output) (∅ : gmap string string) attrs !! name
  = if String.eqb name "__proto__" then None else attributeValue name attrs.
Proof.
  induction attrs as [|a attrs IH] using rev_ind.
  - cbn [foldl]. rewrite lookup_empty. destruct (String.eqb name "__proto__"); reflexivity.
  - rewrite foldl_snoc, attributeValue_snoc, assign_lookup, IH.
    destruct (String.eqb_spec a.1 "__proto__") as [Hp|Hp].
    + destruct (String.eqb_spec name "__proto__") as [Hn|Hn]; [reflexivity|].
      destruct (String.eqb_spec a.1 name) as [He|He]; [congruence | reflexivity].
    + destruct (String.eqb_spec a.1 name) as [He|He]; [|reflexivity].
      destruct (String.eqb_spec name "__proto__") as [Hn|Hn]; [congruence | reflexivity].
Qed.

Lemma copy_lookup attrs name :
  foldl copyStep ∅ attrs !! name =
  if absent name IGNORE_ATTRIBUTES && negb (String.eqb name "__proto__")
  then attributeValue name attrs else None.
Proof.
  induction attrs as [|a attrs IH] using rev_ind.
  - cbn [foldl]. rewrite lookup_empty. destruct (_ && _); reflexivity.
  - rewrite foldl_snoc, attributeValue_snoc. unfold copyStep at 1.
    destruct (String.eqb_spec a.1 name) as [->|Hne].
    + destruct (absent name IGNORE_ATTRIBUTES); [|exact IH].
      rewrite assign_lookup, String.eqb_refl.
      destruct (String.eqb name "__proto__"); [exact IH | reflexivity].
    + destruct (absent a.1 IGNORE_ATTRIBUTES); [|exact IH].
      rewrite assign_lookup. destruct (String.eqb a.1 "__proto__"); [exact IH|].
      destruct (String.eqb_spec a.1 name) as [He|_]; [contradiction | exact IH].
Qed.

Lemma getAttributes_lookup element name :
  let attrs := default [] (attributes element) in
  (In name IGNORE_ATTRIBUTES -> getAttributes element !! name = None) /\
  (~ In name IGNORE_ATTRIBUTES -> name <> "value"%string -> name <> "__proto__"%string ->
   getAttributes element !! name = attributeValue name attrs) /\
  getAttributes element !! "value"%string =
    match attributeValue "value" attrs with
    | Some v => Some v
    | None => if String.eqb (tagName element) "INPUT" && truthy (value element)
              then Some (value element) else None
    end /\
  getAttributes element !! "__proto__"%string = None.
Proof.
  intros attrs.
  assert (Hcopy : forall n, match attributes element with
                            | Some l => foldl copyStep ∅ l
                            | None => ∅
                            end !! n
                            = if absent n IGNORE_ATTRIBUTES && negb (String.eqb n "__proto__")
                              then attributeValue n attrs else None).
  { intros n. subst attrs. destruct (attributes element) as [l|]; [apply copy_lookup|].
    rewrite lookup_empty. destruct (_ && _); reflexivity. }
  unfold getAttributes. fold copyStep.
  set (output := match attributes element with Some l => foldl copyStep ∅ l | None => ∅ end) in *.
  change Constant.InputTag with "INPUT"%string. change Constant.Value with "value"%string.
  assert (Hv : output !! "value"%string = attributeValue "value" attrs) by apply Hcopy.
  split; [|split; [|split]].
  - intros Hin. assert (Ha : absent name IGNORE_ATTRIBUTES = false).
    { apply not_true_iff_false. rewrite absent_In. tauto. }
    assert (Hne : "value"%string <> name).
    { intros <-. vm_compute in Ha. discriminate. }
    destruct (_ && _ && _); [rewrite lookup_insert_ne by assumption|];
      rewrite Hcopy, Ha; reflexivity.
  - intros Hin Hne Hp. apply absent_In in Hin.
    assert (Hq : String.eqb name "__proto__" = false) by (apply String.eqb_neq, Hp).
    destruct (_ && _ && _); [rewrite lookup_insert_ne by congruence|];
      rewrite Hcopy, Hin, Hq; reflexivity.
  - rewrite <- Hv. destruct (output !! "value"%string) as [v|] eqn:Ho.
    + rewrite bool_decide_eq_true_2 by eauto. rewrite andb_false_r. cbn [negb andb]. assumption.
    + rewrite bool_decide_eq_false_2 by (intros [? ?]; discriminate).
      cbn [negb]. rewrite andb_true_r.
      destruct (_ && _); [apply lookup_insert_eq | assumption].
  - destruct (_ && _ && _); [rewrite lookup_insert_ne by discriminate|];
      rewrite Hcopy, andb_false_r; reflexivity.
Qed.

(** C8 (as amended): [getAttributes] of the node processor copies every
    attribute that is not on the deny-list and none that is, with the one
    exception of an attribute named [__proto__], which the assignment to the
    plain output object does not store; and the [value] entry is the explicit
    attribute when there is one, otherwise, for an [INPUT] whose live value
    is not empty, the live value, and otherwise it is absent.  The
    [getAttributes] of the snapshot is a different function: it has no
    deny-list and no [INPUT] case, and copies every attribute but
    [__proto__]. *)
Theorem getAttributes_copies element name :
  let attrs := default [] (attributes element) in
  (In name IGNORE_ATTRIBUTES -> getAttributes element !! name = None) /\
  (~ In name IGNORE_ATTRIBUTES -> name <> "value"%string -> name <> "__proto__"%string ->
   getAttributes element !! name = attributeValue name attrs) /\
  getAttributes element !! "value"%string =
    match attributeValue "value" attrs with
    | Some v => Some v
    | None => if String.eqb (tagName element) "INPUT" && truthy (value element)
              then Some (value element) else None
    end /\
  getAttributes element !! "__proto__"%string = None /\
  (forall props : Snapshot.Props,
     (name <> "__proto__"%string ->
      Snapshot.getAttributes props !! name
      = attributeValue name (Snapshot.attributes props)) /\
     Snapshot.getAttributes props !! "__proto__"%string = None).
Proof.
  intros attrs.
  destruct (getAttributes_lookup element name) as (Hdenied & Hkept & Hvalue & Hproto).
  split; [exact Hdenied|]. split; [exact Hkept|]. split; [exact Hvalue|].
  split; [exact Hproto|].
  intros props. unfold Snapshot.getAttributes. rewrite !snapshot_copy_lookup. split.
  - intros Hp. apply String.eqb_neq in Hp. rewrite Hp. reflexivity.
  - reflexivity.
Qed.

Lemma getAttributes_copies_witness :
  ~ In "content"%string IGNORE_ATTRIBUTES /\
  getAttributes metaTitle !! "content"%string = Some "X"%string.
Proof.
  assert (Hin : ~ In "content"%string IGNORE_ATTRIBUTES).
  { apply absent_In. reflexivity. }
  split; [exact Hin|].
  rewrite (proj1 (proj2 (getAttributes_copies metaTitle "content")) Hin
             ltac:(discriminate) ltac:(discriminate)).
  reflexivity.
Defined.

(** C8, as stated, fails: an [INPUT] with no [value] attribute whose live
    value is the empty string gets no [value] entry. *)
Lemma getAttributes_empty_input :
  tagName emptyInput = "INPUT"%string /\
  attributes emptyInput = Some [] /\
  value emptyInput = ""%string /\
  getAttributes emptyInput !! "value"%string = None.
Proof. repeat split. Qed.

(** ** [getCssRules] and [getStyleValue] *)

Lemma append_empty_r (s : string) : (s ++ "")%string = s.
Proof.
  induction s as [|c s IH]; [reflexivity|].
  change (String c (s ++ "")%string = String c s). rewrite IH. reflexivity.
Qed.

Lemma append_assoc (s1 s2 s3 : string) :
  ((s1 ++ s2) ++ s3)%string = (s1 ++ (s2 ++ s3))%string.
Proof.
  induction s1 as [|c s1 IH]; [reflexivity|].
  change (String c ((s1 ++ s2) ++ s3)%string = String c (s1 ++ (s2 ++ s3))%string).
  rewrite IH. reflexivity.
Qed.

(** ** [String.prototype.trim] *)

Lemma append_cons c (s t : string) : (String c s ++ t)%string = String c (s ++ t)%string.
Proof. reflexivity. Qed.

Lemma length_append (s t : string) :
  String.length (s ++ t)%string = (String.length s + String.length t)%nat.
Proof.
  induction s as [|c s IH]; [reflexivity|].
  rewrite append_cons. cbn [String.length]. rewrite IH. reflexivity.
Qed.

Lemma append_empty (s t : string) : (s ++ t)%string = EmptyString -> s = EmptyString /\ t = EmptyString.
Proof. destruct s; [intros H; split; [reflexivity | exact H] | discriminate]. Qed.

Lemma dropPrefix_spec w : forall s rest,
  dropPrefix w s = Some rest <-> s = (w ++ rest)%string.
Proof.
  induction w as [|c w IH]; intros s rest.
  - change (Some s = Some rest <-> s = rest). split; congruence.
  - rewrite append_cons. destruct s as [|d s]; [cbn; split; discriminate|].
    cbn [dropPrefix]. destruct (Ascii.eqb_spec c d) as [->|Hne].
    + rewrite IH. split; congruence.
    + split; [discriminate | congruence].
Qed.

Lemma whiteSpace_nonempty w : In w whiteSpace -> w <> EmptyString.
Proof.
  intros Hin ->. vm_compute in Hin. revert Hin.
  repeat (intros [H|H]; [discriminate H | revert H]). intros [].
Qed.

Lemma dropWhiteSpace_Some s rest :
  dropWhiteSpace s = Some rest -> exists w, In w whiteSpace /\ s = (w ++ rest)%string.
Proof.
  unfold dropWhiteSpace. induction whiteSpace as [|w ws IH]; [discriminate|].
  cbn [fold_right]. destruct (dropPrefix w s) as [r|] eqn:Hd.
  - intros [= <-]. exists w. split; [left; reflexivity | apply dropPrefix_spec, Hd].
  - intros H. destruct (IH H) as (w' & Hin & Hs). exists w'. split; [right; exact Hin | exact Hs].
Qed.

Lemma dropWhiteSpace_None s :
  dropWhiteSpace s = None -> forall w x, In w whiteSpace -> s <> (w ++ x)%string.
Proof.
  unfold dropWhiteSpace. induction whiteSpace as [|w ws IH]; [intros _ w x []|].
  cbn [fold_right]. destruct (dropPrefix w s) as [r|] eqn:Hd; [discriminate|].
  intros H w' x [<-|Hin] Hs.
  - apply dropPrefix_spec in Hs. congruence.
  - exact (IH H w' x Hin Hs).
Qed.

(** No white space character is the beginning of another. *)
Lemma dropWhiteSpace_app w x : In w whiteSpace -> dropWhiteSpace (w ++ x)%string = Some x.
Proof.
  intros Hin. vm_compute in Hin. revert Hin.
  repeat (intros [<-|H]; [reflexivity | revert H]). intros [].
Qed.

Lemma trimStartFrom_spec fuel : forall s,
  (String.length s <= fuel)%nat ->
  exists pre, White pre /\ s = (pre ++ trimStartFrom fuel s)%string /\
              dropWhiteSpace (trimStartFrom fuel s) = None.
Proof.
  induction fuel as [|fuel IH]; intros s Hlen.
  - destruct s; [|cbn in Hlen; lia]. exists EmptyString.
    split; [constructor|]. split; reflexivity.
  - cbn [trimStartFrom]. destruct (dropWhiteSpace s) as [rest|] eqn:Hd.
    + destruct (dropWhiteSpace_Some s rest Hd) as (w & Hin & ->).
      assert (Hw : (0 < String.length w)%nat).
      { pose proof (whiteSpace_nonempty w Hin). destruct w; [congruence | cbn; lia]. }
      rewrite length_append in Hlen.
      destruct (IH rest ltac:(lia)) as (pre & Hpre & Hs & Hnone).
      exists (w ++ pre)%string. split; [constructor; assumption|].
      split; [|exact Hnone]. rewrite append_assoc, <- Hs. reflexivity.
    + exists EmptyString. split; [constructor|]. split; [reflexivity | exact Hd].
Qed.

Lemma trimStartFrom_enough fuel1 : forall fuel2 s,
  (String.length s <= fuel1)%nat -> (String.length s <= fuel2)%nat ->
  trimStartFrom fuel1 s = trimStartFrom fuel2 s.
Proof.
  induction fuel1 as [|fuel1 IH]; intros fuel2 s H1 H2.
  - destruct s; [|cbn in H1; lia]. destruct fuel2; reflexivity.
  - destruct fuel2 as [|fuel2]; [destruct s; [reflexivity | cbn in H2; lia]|].
    cbn [trimStartFrom]. destruct (dropWhiteSpace s) as [rest|] eqn:Hd; [|reflexivity].
    destruct (dropWhiteSpace_Some s rest Hd) as (w & Hin & ->).
    assert (Hw : (0 < String.length w)%nat).
    { pose proof (whiteSpace_nonempty w Hin). destruct w; [congruence | cbn; lia]. }
    rewrite length_append in H1, H2. apply IH; lia.
Qed.

Lemma trimStart_spec s :
  exists pre, White pre /\ s = (pre ++ trimStart s)%string /\
              dropWhiteSpace (trimStart s) = None.
Proof. apply trimStartFrom_spec. lia. Qed.

Lemma allWhiteSpace_spec s : allWhiteSpace s = true <-> White s.
Proof.
  unfold allWhiteSpace. rewrite String.eqb_eq. split.
  - intros Ht. destruct (trimStart_spec s) as (pre & Hpre & Hs & _).
    rewrite Ht, append_empty_r in Hs. subst s. exact Hpre.
  - induction 1 as [|w s Hin Hw IH]; [reflexivity|].
    unfold trimStart. assert (Hl : (0 < String.length w)%nat).
    { pose proof (whiteSpace_nonempty w Hin). destruct w; [congruence | cbn; lia]. }
    rewrite length_append. destruct (String.length w + String.length s)%nat as [|n] eqn:Hn; [lia|].
    cbn [trimStartFrom]. rewrite (dropWhiteSpace_app w s Hin).
    rewrite (trimStartFrom_enough n (String.length s) s) by lia. exact IH.
Qed.

Lemma trimEnd_spec s :
  exists post, White post /\ s = (trimEnd s ++ post)%string /\
    forall w x, In w whiteSpace -> trimEnd s <> (x ++ w)%string.
Proof.
  induction s as [|c rest IH].
  - exists EmptyString. split; [constructor|]. split; [reflexivity|].
    intros w x Hin Heq. symmetry in Heq. apply append_empty in Heq as [_ Hw].
    exact (whiteSpace_nonempty w Hin Hw).
  - cbn [trimEnd]. destruct (allWhiteSpace (String c rest)) eqn:Ha.
    + exists (String c rest). split; [apply allWhiteSpace_spec, Ha|].
      split; [reflexivity|].
      intros w x Hin Heq. symmetry in Heq. apply append_empty in Heq as [_ Hw].
      exact (whiteSpace_nonempty w Hin Hw).
    + destruct IH as (post & Hpost & Hs & Hend). exists post.
      split; [exact Hpost|]. split; [rewrite append_cons, <- Hs; reflexivity|].
      intros w x Hin Heq. destruct x as [|c' x].
      * cbn in Heq. assert (Hw : White (String c rest)).
        { rewrite Hs, <- append_cons, Heq. constructor; assumption. }
        apply allWhiteSpace_spec in Hw. congruence.
      * rewrite append_cons in Heq. injection Heq as _ Heq. exact (Hend w x Hin Heq).
Qed.

Lemma trim_spec s :
  (exists pre post, White pre /\ White post /\ s = (pre ++ trim s ++ post)%string) /\
  (forall w x, In w whiteSpace ->
     trim s <> (w ++ x)%string /\ trim s <> (x ++ w)%string).
Proof.
  unfold trim.
  destruct (trimStart_spec s) as (pre & Hpre & Hs & Hnone).
  destruct (trimEnd_spec (trimStart s)) as (post & Hpost & Hs1 & Hend).
  split.
  - exists pre, post. split; [exact Hpre|]. split; [exact Hpost|].
    rewrite <- Hs1. exact Hs.
  - intros w x Hin. split; [|apply Hend, Hin].
    intros Heq. apply (dropWhiteSpace_None _ Hnone w (x ++ post)%string Hin).
    rewrite Hs1 at 1. rewrite Heq, append_assoc. reflexivity.
Qed.

(** ** Rule lists *)

Lemma joinAll_foldl rules : forall acc,
  foldl (fun v r => (v ++ cssText r)%string) acc rules
  = (acc ++ joinAll (map cssText rules))%string.
Proof.
  induction rules as [|r rules IH]; intros acc; cbn [foldl map joinAll foldr].
  - symmetry. apply append_empty_r.
  - rewrite IH. fold (joinAll (map cssText rules)).
    rewrite append_assoc. reflexivity.
Qed.

Lemma getCssRules_readable sheet rules :
  liveRules sheet = Ok rules ->
  getCssRules sheet = ([], Ok (joinAll (map cssText rules))).
Proof.
  intros Hr. unfold getCssRules. fold (liveRules sheet). rewrite Hr.
  rewrite bind_ret. unfold ret. rewrite joinAll_foldl. reflexivity.
Qed.

Lemma getCssRules_security s :
  cssRules s = Throw (ExnError "SecurityError") ->
  getCssRules (Some s) =
    ([InternalLog CssRules Warning (Some "SecurityError"%string)], Ok ""%string).
Proof. intros Hr. unfold getCssRules. rewrite Hr. reflexivity. Qed.

Lemma getCssRules_rethrows s n :
  cssRules s = Throw (ExnError n) -> n <> "SecurityError"%string ->
  getCssRules (Some s) =
    ([InternalLog CssRules Warning (Some n)], Throw (ExnError n)).
Proof.
  intros Hr Hn. unfold getCssRules. rewrite Hr.
  apply String.eqb_neq in Hn. cbn. rewrite Hn. reflexivity.
Qed.

(** The condition under which [getStyleValue] turns to the rule list. *)
Lemma getStyleValue_cases style :
  getStyleValue style =
    if (String.length (trimmedText style) =? 0)%nat
       || (0 <? match dataset style with Some keys => length keys | None => 0 end)%nat
       || (0 <? String.length (id style))%nat
    then getCssRules (sheet style)
    else ret (trimmedText style).
Proof.
  unfold getStyleValue, trimmedText.
  destruct (textContent style) as [t|]; [|reflexivity].
  cbn [default]. unfold truthy. destruct (String.eqb_spec t "") as [->|Hne]; reflexivity.
Qed.

Lemma length_zero_iff (s : string) : (String.length s =? 0)%nat = true <-> s = ""%string.
Proof. destruct s; simpl; split; intros H; congruence. Qed.

(** C5: [getStyleValue] returns the trimmed static text when that text is
    not empty, the element has no [data-*] attribute and its [id] is empty;
    when the trimmed text is empty, or the element has a [data-*] attribute,
    or its [id] is not empty, it returns what [getCssRules] makes of the
    sheet: the concatenation of the [cssText] of the rules of the live rule
    list.  The trimmed text is the static text without the white space at
    its two ends: what is cut off is white space throughout, and what is
    left neither begins nor ends with a white space character. *)
Theorem getStyleValue_policy style :
  (trimmedText style <> ""%string ->
   dataset style = None \/ dataset style = Some [] ->
   id style = ""%string ->
   getStyleValue style = ([], Ok (trimmedText style))) /\
  (trimmedText style = ""%string
   \/ (exists k ks, dataset style = Some (k :: ks))
   \/ id style <> ""%string ->
   getStyleValue style = getCssRules (sheet style) /\
   forall rules, liveRules (sheet style) = Ok rules ->
     getStyleValue style = ([], Ok (joinAll (map cssText rules)))) /\
  (exists pre post,
     White pre /\ White post /\
     default ""%string (textContent style) = (pre ++ trimmedText style ++ post)%string) /\
  (forall w x, In w whiteSpace ->
     trimmedText style <> (w ++ x)%string /\ trimmedText style <> (x ++ w)%string).
Proof.
  split; [|split; [|apply trim_spec]]; rewrite getStyleValue_cases.
  - intros Ht Hd Hi.
    assert (H1 : (String.length (trimmedText style) =? 0)%nat = false).
    { apply not_true_iff_false. rewrite length_zero_iff. assumption. }
    rewrite H1, Hi. destruct Hd as [-> | ->]; reflexivity.
  - intros H.
    assert (Hc : (String.length (trimmedText style) =? 0)%nat
                 || (0 <? match dataset style with
                          | Some keys => length keys
                          | None => 0
                          end)%nat
                 || (0 <? String.length (id style))%nat = true).
    { destruct H as [Ht | [(k & ks & Hd) | Hi]].
      - apply length_zero_iff in Ht. rewrite Ht. reflexivity.
      - rewrite Hd. cbn [length]. rewrite orb_true_r. reflexivity.
      - destruct (id style); [congruence|]. cbn. apply orb_true_r. }
    rewrite Hc. split; [reflexivity|].
    intros rules Hr. apply getCssRules_readable, Hr.
Qed.

Lemma getStyleValue_policy_witness :
  trimmedText blankStyle = ""%string /\
  getStyleValue blankStyle = ([], Ok "p { color: blue; }"%string).
Proof.
  assert (Ht : trimmedText blankStyle = ""%string) by reflexivity.
  split; [exact Ht|].
  exact (proj2 (proj1 (proj2 (getStyleValue_policy blankStyle)) (or_introl Ht))
               _ eq_refl).
Defined.

(** ** The processor on elements and text *)

Section Cases.
Context (K : Constant.t) (E : Env).

(** The processor on a node that is neither skipped as an undiscovered
    removal nor the text of a [STYLE] element. *)
Lemma processNode_resolved node source timestamp :
  isChildListRemove source && negb (dom_has E node) = false ->
  styleText node source = false ->
  processNode K E node source timestamp = processResolved K E node source timestamp.
Proof.
  intros He Hs. unfold processNode. rewrite He, Hs.
  apply (bind_ret node (fun n => processResolved K E n source timestamp)).
Qed.

Lemma styleText_element node source :
  nodeType node = NodeType.ELEMENT_NODE -> styleText node source = false.
Proof.
  intros Ht. unfold styleText. rewrite Ht. cbn. rewrite andb_false_r. reflexivity.
Qed.

Lemma processResolved_element node source timestamp :
  nodeType node = NodeType.ELEMENT_NODE ->
  processResolved K E node source timestamp =
    processElement K E node source
      (if negb (dom_has E node) then CallAdd else CallUpdate) (insideFrameOf E node).
Proof. intros Ht. unfold processResolved. rewrite Ht. reflexivity. Qed.


(** The tag of an element outside the SVG namespace is its [tagName]. *)
Lemma plain_tag node :
  namespaceURI node <> Some (Constant.SvgNamespace K) ->
  bool_decide (namespaceURI node = Some (Constant.SvgNamespace K)) = false.
Proof. intros H. apply bool_decide_eq_false_2, H. Qed.



(** A [SCRIPT] whose type says JSON-LD and whose text does not parse: the
    failure is swallowed, nothing is called, and the processor returns. *)
Lemma script_jsonld_swallowed node source timestamp :
  nodeType node = NodeType.ELEMENT_NODE ->
  tagName node = "SCRIPT"%string ->
  namespaceURI node <> Some (Constant.SvgNamespace K) ->
  isChildListRemove source && negb (dom_has E node) = false ->
  getAttributes node !! Constant.Type_ K = Some (Constant.JsonLD K) ->
  JSON_parses E (removeNewlines (text node)) = false ->
  processNode K E node source timestamp = ([], Ok None).
Proof.
  intros Ht Htag Hns He Hty Hjson.
  rewrite processNode_resolved, processResolved_element
    by auto using styleText_element.
  unfold processElement. rewrite (plain_tag node Hns), Htag.
  set (A := getAttributes node) in *.
  rewrite (bool_decide_eq_true_2 _ Hty), Hjson. reflexivity.
Qed.

(** C9 (as amended): a [META] element with [property="og:title"] and
    [content="X"], handed to the processor as anything but the removal of a
    node that is not mirrored, makes exactly one call: the dimension log
    with the value [X]; in particular no record is written.  (A [META] is
    never mirrored, so its removal is always skipped.) *)
Theorem meta_og_title node source timestamp attrs X :
  nodeType node = NodeType.ELEMENT_NODE ->
  tagName node = "META"%string ->
  namespaceURI node <> Some (Constant.SvgNamespace K) ->
  attributes node = Some attrs ->
  attributeValue "property" attrs = Some "og:title"%string ->
  attributeValue "content" attrs = Some X ->
  isChildListRemove source && negb (dom_has E node) = false ->
  processNode K E node source timestamp = ([DimensionLog MetaTitle X], Ok None).
Proof.
  intros Ht Htag Hns Ha Hp Hc He.
  rewrite processNode_resolved, processResolved_element
    by auto using styleText_element.
  assert (Hprop : getAttributes node !! "property"%string = Some "og:title"%string).
  { destruct (getAttributes_lookup node "property") as (_ & H & _).
    rewrite H, Ha; [assumption | rewrite <- absent_In; reflexivity | discriminate
                   | discriminate]. }
  assert (Hcont : getAttributes node !! "content"%string = Some X).
  { destruct (getAttributes_lookup node "content") as (_ & H & _).
    rewrite H, Ha; [assumption | rewrite <- absent_In; reflexivity | discriminate
                   | discriminate]. }
  unfold processElement. rewrite (plain_tag node Hns), Htag.
  change Constant.Property with "property"%string.
  change Constant.Content with "content"%string.
  set (A := getAttributes node) in *.
  cbn [String.eqb Ascii.eqb Bool.eqb andb orb].
  rewrite Hprop, Hcont.
  rewrite (bool_decide_eq_true_2 (is_Some (Some "og:title"%string))) by eauto.
  cbn [truthy String.eqb Ascii.eqb Bool.eqb andb negb]. rewrite Hprop.
  reflexivity.
Qed.

Lemma iframe_removed frame d w timestamp :
  nodeType frame = NodeType.ELEMENT_NODE ->
  tagName frame = "IFRAME"%string ->
  namespaceURI frame <> Some (Constant.SvgNamespace K) ->
  dom_has E frame = true ->
  dom_iframeContent E frame = Some {| doc := Some d; win := Some w |} ->
  exists data child,
    processNode K E frame ChildListRemove timestamp =
      ((if dom_sameorigin E frame then [MutationMonitor frame] else [])
         ++ teardownCalls frame d w
         ++ [DomCall CallUpdate frame (textParent frame) data ChildListRemove],
       Ok child).
Proof.
  intros Ht Htag Hns Hh Hc.
  assert (He : isChildListRemove ChildListRemove && negb (dom_has E frame) = false).
  { rewrite Hh. reflexivity. }
  rewrite processNode_resolved, processResolved_element
    by auto using styleText_element.
  unfold processElement. rewrite (plain_tag frame Hns), Htag, Hh.
  fold (textParent frame).
  set (A := getAttributes frame).
  cbn [String.eqb Ascii.eqb Bool.eqb andb orb negb isChildListRemove when].
  unfold removeObserver. rewrite Hc. cbn [mbind option_bind doc win].
  destruct (dom_sameorigin E frame); eexists _, _; reflexivity.
Qed.

End Cases.



Lemma meta_og_title_witness :
  attributeValue "content" [("property", "og:title"); ("content", "X")]%string
    = Some "X"%string /\
  processNode sample_constants (sampleEnv [] 1 None) metaTitle Discover 0
    = ([DimensionLog MetaTitle "X"], Ok None).
Proof.
  split; [reflexivity|].
  exact (meta_og_title sample_constants (sampleEnv [] 1 None) metaTitle Discover 0
           _ "X"%string eq_refl eq_refl ltac:(discriminate) eq_refl eq_refl eq_refl
           eq_refl).
Defined.

(** C9, as stated, fails: when the [META] element is removed, the processor
    returns at once (a [META] is never mirrored) and logs no dimension. *)
Lemma meta_removed_logs_nothing :
  attributes metaTitle = Some [("property", "og:title"); ("content", "X")]%string /\
  processNode sample_constants (sampleEnv [] 1 None) metaTitle ChildListRemove 0
    = ([], Ok None).
Proof. split; reflexivity. Qed.

(** C6: the error policy.  A [SecurityError] raised by reading the rule list
    is caught and logged as a warning, and the result is the empty string;
    any other error is logged and thrown again, so that it reaches the caller
    of [getCssRules]; and a [SCRIPT] of the JSON-LD type whose text does not
    parse makes the processor return normally, with no call made. *)
Theorem error_policy :
  (forall s, cssRules s = Throw (ExnError "SecurityError") ->
     getCssRules (Some s) =
       ([InternalLog CssRules Warning (Some "SecurityError"%string)], Ok ""%string)) /\
  (forall s n, cssRules s = Throw (ExnError n) -> n <> "SecurityError"%string ->
     getCssRules (Some s) = ([InternalLog CssRules Warning (Some n)], Throw (ExnError n)) /\
     forall style, sheet style = Some s -> trimmedText style = ""%string ->
       getStyleValue style = ([InternalLog CssRules Warning (Some n)], Throw (ExnError n))) /\
  (forall K E node source timestamp,
     nodeType node = NodeType.ELEMENT_NODE ->
     tagName node = "SCRIPT"%string ->
     namespaceURI node <> Some (Constant.SvgNamespace K) ->
     isChildListRemove source && negb (dom_has E node) = false ->
     getAttributes node !! Constant.Type_ K = Some (Constant.JsonLD K) ->
     JSON_parses E (removeNewlines (text node)) = false ->
     processNode K E node source timestamp = ([], Ok None)).
Proof.
  split; [exact getCssRules_security|]. split; [|exact script_jsonld_swallowed].
  intros s n Hr Hn. split; [apply getCssRules_rethrows; assumption|].
  intros style Hs Ht. rewrite getStyleValue_cases, Ht, Hs. cbn [String.length Nat.eqb orb].
  apply getCssRules_rethrows; assumption.
Qed.

Lemma error_policy_witness :
  getCssRules (Some (lockedSheet "SecurityError"))
    = ([InternalLog CssRules Warning (Some "SecurityError"%string)], Ok ""%string) /\
  getCssRules (Some (lockedSheet "InvalidAccessError"))
    = ([InternalLog CssRules Warning (Some "InvalidAccessError"%string)],
       Throw (ExnError "InvalidAccessError")) /\
  processNode sample_constants (sampleEnv [] 1 None) brokenJsonLd Discover 0
    = ([], Ok None).
Proof.
  destruct error_policy as (Hsec & Hother & Hjson).
  split; [exact (Hsec (lockedSheet "SecurityError") eq_refl)|].
  split; [exact (proj1 (Hother (lockedSheet "InvalidAccessError") _ eq_refl
                          ltac:(discriminate)))|].
  exact (Hjson sample_constants (sampleEnv [] 1 None) brokenJsonLd Discover 0%Z
           eq_refl eq_refl ltac:(discriminate) eq_refl eq_refl eq_refl).
Defined.

(** ** Teardown of a frame *)

Lemma trackAll_app t l1 l2 : trackAll t (l1 ++ l2) = trackAll (trackAll t l1) l2.
Proof. apply foldl_app. Qed.

Lemma removeIFrame_clean frame d t :
  (forall f c, iframeContentMap t !! f = Some c ->
     key <$> doc c = Some (key d) -> f = key frame) ->
  iframeContentMap (removeIFrame frame d t) !! key frame = None /\
  unreferenced (key d) (removeIFrame frame d t).
Proof.
  intros Hone. unfold unreferenced, removeIFrame. cbn [iframeMap iframeContentMap].
  split; [apply lookup_delete_eq|]. split; [apply lookup_delete_eq|].
  intros f c Hf Hd. rewrite lookup_delete in Hf. case_decide; [discriminate|].
  apply (Hone f c Hf) in Hd. congruence.
Qed.

(** C7: the removal of a tracked [IFRAME] whose content document [d] and
    content window [w] are tracked.  The processor unbinds the listeners of
    the frame, of [w] and of [d], disconnects the mutation watcher of [d] and
    calls [dom.removeIFrame] for the frame and [d], before it writes the
    update.  On the tracking maps, in which [d] belonged to this frame only,
    that leaves no entry for the frame and none that refers to [d].  And a
    replacement frame, being a node the registry has not seen, gets the next
    identifier, which no node has. *)
Theorem iframe_teardown K E frame d w timestamp :
  nodeType frame = NodeType.ELEMENT_NODE ->
  tagName frame = "IFRAME"%string ->
  namespaceURI frame <> Some (Constant.SvgNamespace K) ->
  dom_has E frame = true ->
  dom_iframeContent E frame = Some {| doc := Some d; win := Some w |} ->
  let run := processNode K E frame ChildListRemove timestamp in
  (exists data child,
     run = ((if dom_sameorigin E frame then [MutationMonitor frame] else [])
              ++ [EventUnbind (TNode frame); EventUnbind (TWindow w);
                  EventUnbind (TNode d); MutationDisconnect d; DomRemoveIFrame frame d]
              ++ [DomCall CallUpdate frame (textParent frame) data ChildListRemove],
            Ok child)) /\
  (forall t,
     iframeContent t frame = dom_iframeContent E frame ->
     (forall f c, iframeContentMap t !! f = Some c ->
        key <$> doc c = Some (key d) -> f = key frame) ->
     iframeContentMap (trackAll t run.1) !! key frame = None /\
     unreferenced (key d) (trackAll t run.1)) /\
  (forall st m replacement,
     Snapshot.registry_ok st m -> m !! key replacement = None ->
     exists st',
       idFor (Some (key replacement)) st = (Ok (Num (Snapshot.index st)), st') /\
       forall k i, m !! k = Some i -> i <> Snapshot.index st).
Proof.
  intros Ht Htag Hns Hh Hc run.
  destruct (iframe_removed K E frame d w timestamp Ht Htag Hns Hh Hc)
    as (data & child & Hrun).
  fold run in Hrun. split; [exists data, child; exact Hrun|]. split.
  - intros t _ Hone. rewrite Hrun. cbn [fst].
    assert (Htrack : trackAll t
              ((if dom_sameorigin E frame then [MutationMonitor frame] else [])
                 ++ teardownCalls frame d w
                 ++ [DomCall CallUpdate frame (textParent frame) data ChildListRemove])
            = removeIFrame frame d t).
    { destruct (dom_sameorigin E frame); reflexivity. }
    rewrite Htrack.
    apply removeIFrame_clean, Hone.
  - intros st m replacement Hok Hfresh. eexists. unfold idFor.
    rewrite (SnapshotFacts.getId_fresh st m _ (Snapshot.ok_map _ _ Hok) Hfresh).
    split; [reflexivity|].
    intros k i Hk. pose proof (Snapshot.ok_range _ _ Hok k i Hk). lia.
Qed.

Lemma iframe_teardown_witness :
  dom_has frameEnv trackedFrame = true /\
  dom_iframeContent frameEnv trackedFrame = Some frameContent /\
  unreferenced 11
    (trackAll frameTracking
       (processNode sample_constants frameEnv trackedFrame ChildListRemove 0).1).
Proof.
  split; [reflexivity|]. split; [reflexivity|].
  refine (proj2 (proj1 (proj2
            (iframe_teardown sample_constants frameEnv trackedFrame frameDocument 12 0
               eq_refl eq_refl ltac:(discriminate) eq_refl eq_refl))
            frameTracking eq_refl _)).
  intros f c Hf _. cbn [frameTracking iframeContentMap] in Hf.
  apply lookup_singleton_Some in Hf as [<- _]. reflexivity.
Defined.

(** ** The processor at some concrete nodes *)

(** The white space characters as bytes: the no-break space, the line
    separator and the byte order mark. *)
Example whiteSpace_bytes :
  utf8Char 160 = utf8 [194; 160] /\
  utf8Char 8232 = utf8 [226; 128; 168] /\
  utf8Char 65279 = utf8 [239; 187; 191] /\
  length whiteSpace = 25%nat.
Proof. repeat split. Qed.

Example trim_no_break_space :
  trim (utf8 [194; 160; 9] ++ "a b" ++ utf8 [226; 128; 168; 239; 187; 191])%string
  = "a b"%string.
Proof. reflexivity. Qed.

Example id_beats_static_text :
  id staleStyle <> ""%string /\
  getStyleValue staleStyle = ([], Ok "p { color: blue; }"%string).
Proof. split; [discriminate | reflexivity]. Qed.

(** An attribute named [__proto__] is not copied, by either function. *)
Example proto_attribute_not_copied :
  let attrs := [("__proto__", "x"); ("class", "card")]%string in
  getAttributes (withAttributes attrs (blank 63 NodeType.ELEMENT_NODE "DIV"))
    !! "__proto__"%string = None /\
  getAttributes (withAttributes attrs (blank 63 NodeType.ELEMENT_NODE "DIV"))
    !! "class"%string = Some "card"%string /\
  Snapshot.getAttributes (Snapshot.plainProps 63 NodeType.ELEMENT_NODE "DIV" None)
    = ∅ /\
  Snapshot.getAttributes
    {| Snapshot.key := 63; Snapshot.nodeType := NodeType.ELEMENT_NODE;
       Snapshot.tagName := "DIV"; Snapshot.nodeValue := None;
       Snapshot.attributes := attrs;
       Snapshot.name := ""; Snapshot.publicId := ""; Snapshot.systemId := "" |}
    !! "__proto__"%string = None.
Proof. repeat split. Qed.

Example trim_spaces :
  trim (" a b " ++ String (Ascii.ascii_of_nat 10) "")%string = "a b"%string.
Proof. reflexivity. Qed.

(** A [VIDEO] with a data URI is mirrored with an empty [src]. *)
Example video_data_uri :
  processNode sample_constants (sampleEnv [] 1 None) inlineVideo Discover 0
  = ([DomCall CallAdd inlineVideo None
        {| d_tag := "VIDEO"; d_attributes := Some {[ "src"%string := ""%string ]};
           d_value := None |} Discover], Ok None).
Proof. vm_compute. reflexivity. Qed.

(** A change of the text of a [STYLE] element is recorded as an update of
    the element, with the trimmed text as its value. *)
Example style_text_changed :
  processNode sample_constants (sampleEnv [51%positive] 1 None) styleChild CharacterData 0
  = ([DomCall CallUpdate plainStyle None
        {| d_tag := "STYLE"; d_attributes := Some ∅;
           d_value := Some "p { color: red; }"%string |} CharacterData], Ok None).
Proof. vm_compute. reflexivity. Qed.

(** On discovery the same text node is skipped: its parent is a [STYLE]. *)
Example style_text_discovered :
  processNode sample_constants (sampleEnv [51%positive] 1 None) styleChild Discover 0
  = ([], Ok None).
Proof. vm_compute. reflexivity. Qed.

(** A text node below a mirrored [DIV] is added. *)
Example text_below_div :
  processNode sample_constants (sampleEnv [41%positive] 1 None) childText Discover 0
  = ([DomCall CallAdd childText (Some divElement)
        {| d_tag := "*T"; d_attributes := None; d_value := Some "hi"%string |} Discover],
     Ok None).
Proof. vm_compute. reflexivity. Qed.

End LayoutFacts.

(** * Further properties of insight/snapshot.ts *)
Module SnapshotExtras.
Import Snapshot SnapshotFacts SnapshotAux.
Local Open Scope js_scope.
Local Open Scope Z_scope.

(** ** Identifiers across a reset *)

Lemma getId_idsFrom lo st m n i st' m' :
  registry_ok st m -> idsFrom lo m -> lo <= index st ->
  getId (Some n) st = (Ok (Num i), st') -> idMap st' = Some m' ->
  idsFrom lo m' /\ lo <= i /\ index st <= index st'.
Proof.
  intros Hok Hlo Hidx Hg Hm'. destruct (m !! n) as [j|] eqn:Hn.
  - rewrite (getId_known st m n j (ok_map _ _ Hok) Hn) in Hg.
    injection Hg as <- <-. rewrite (ok_map _ _ Hok) in Hm'. injection Hm' as <-.
    split; [assumption|]. split; [eauto | lia].
  - rewrite (getId_fresh st m n (ok_map _ _ Hok) Hn) in Hg.
    injection Hg as <- <-. simpl in Hm'. injection Hm' as <-.
    split; [|simpl; lia].
    intros k j. rewrite lookup_insert. case_decide; [intros [= <-]; lia | apply Hlo].
Qed.

Lemma getIds_idsFrom lo nodes : forall st m ids st',
  registry_ok st m -> idsFrom lo m -> lo <= index st ->
  getIds nodes st = (Ok ids, st') ->
  forall i, In (Num i) ids -> lo <= i.
Proof.
  induction nodes as [|n rest IH]; intros st m ids st' Hok Hlo Hidx Hg i Hin.
  - injection Hg as <- <-. destruct Hin.
  - destruct (getId_step st m n Hok) as (j & st1 & m1 & Hg1 & Hok1 & _).
    destruct (getId_idsFrom lo st m n j st1 m1 Hok Hlo Hidx Hg1 (ok_map _ _ Hok1))
      as (Hlo1 & Hj & Hidx1).
    cbn [getIds] in Hg. unfold bind at 1 in Hg. rewrite Hg1 in Hg.
    unfold bind at 1 in Hg.
    destruct (getIds rest st1) as [[ids1|e] st2] eqn:Hrest; [|discriminate].
    injection Hg as <- <-. destruct Hin as [[= <-]|Hin]; [assumption|].
    eapply (IH st1 m1 ids1 st2); eauto. lia.
Qed.

(** X1: [reset] renews the map and keeps the counter, so identifiers are
    retired, not recycled: whatever is asked of [getId] after a reset, every
    identifier it returns is larger than every identifier the registry held
    before the reset.  A node that was registered before gets a new one. *)
Theorem reset_retires_identifiers st m nodes :
  registry_ok st m ->
  exists ids st',
    getIds nodes (reset st).2 = (Ok ids, st') /\
    length ids = length nodes /\
    forall j, In (Num j) ids -> forall k i, m !! k = Some i -> i < j.
Proof.
  intros Hok.
  assert (Hr : registry_ok (reset st).2 ∅) by (apply registry_ok_reset, Hok).
  destruct (getIds_spec nodes _ _ Hr) as (ids & st' & m' & Hg & _ & _ & Hlen & _).
  exists ids, st'. split; [assumption|]. split; [assumption|].
  intros j Hj k i Hk.
  assert (index st <= j).
  { eapply (getIds_idsFrom (index st) nodes _ ∅ ids st' Hr); eauto.
    - intros ? ?. rewrite lookup_empty. discriminate.
    - simpl. lia. }
  pose proof (ok_range _ _ Hok k i Hk). lia.
Qed.

Lemma reset_retires_identifiers_witness :
  let st := {| values := []; index := 2; idMap := Some {[ 5%positive := 1 ]};
               calls := [] |} in
  registry_ok st {[ 5%positive := 1 ]} /\
  (getId (Some 5%positive) (reset st).2).1 = Ok (Num 2).
Proof.
  intros st.
  assert (Hok : registry_ok st {[ 5%positive := 1 ]}).
  { subst st. split; [reflexivity | simpl; lia | |].
    - intros k i Hk. apply lookup_singleton_Some in Hk as [_ <-]. simpl. lia.
    - intros k1 k2 i H1 H2. apply lookup_singleton_Some in H1 as [<- _].
      apply lookup_singleton_Some in H2 as [<- _]. reflexivity. }
  split; [exact Hok|].
  destruct (reset_retires_identifiers st _ [5%positive] Hok) as (ids & st' & Hg & _ & _).
  reflexivity.
Defined.

(** ** [metadata], [start] and [stop] *)

Lemma metadata_id_getId n st : metadata_id (Some n) st = getId (Some n) st.
Proof.
  unfold metadata_id, getId, bind, theIdMap.
  destruct (idMap st) as [m|] eqn:Hm; [|reflexivity].
  destruct (m !! n) as [i|] eqn:Hn; [reflexivity|].
  unfold get_index, idMap_set, bind, theIdMap. rewrite Hm, Hn. simpl. rewrite Hm.
  reflexivity.
Qed.

(** X2: [metadata] registers lazily.  For a node the registry has not seen
    it allocates an identifier exactly as [getId] does; afterwards [getId]
    and [metadata] return that identifier and leave the state alone.  For
    [null] it answers 0, which is the identifier of no node, and touches
    nothing. *)
Theorem metadata_registers conversions st m n :
  registry_ok st m ->
  (exists i st' m',
     metadata conversions (Some n) st = (Ok (Num i, privacyOf conversions), st') /\
     registry_ok st' m' /\ m' !! n = Some i /\ m ⊆ m' /\
     (m !! n = None -> i = index st) /\
     getId (Some n) st' = (Ok (Num i), st') /\
     metadata conversions (Some n) st' = (Ok (Num i, privacyOf conversions), st')) /\
  metadata conversions None st = (Ok (Num 0, privacyOf conversions), st) /\
  (forall k, m !! k <> Some 0).
Proof.
  intros Hok. split; [|split].
  - destruct (getId_step st m n Hok) as (i & st' & m' & Hg & Hok' & Hi & Hsub & _).
    exists i, st', m'.
    assert (Hknown : getId (Some n) st' = (Ok (Num i), st')).
    { apply (getId_known st' m' n i (ok_map _ _ Hok') Hi). }
    unfold metadata, bind. rewrite !metadata_id_getId, Hg, Hknown.
    split; [reflexivity|]. split; [assumption|]. split; [assumption|].
    split; [assumption|]. split; [|split; reflexivity].
    intros Hn. rewrite (getId_fresh st m n (ok_map _ _ Hok) Hn) in Hg.
    injection Hg as <- _. reflexivity.
  - reflexivity.
  - intros k Hk. pose proof (ok_range _ _ Hok k 0 Hk). lia.
Qed.

Lemma metadata_registers_witness :
  registry_ok (reset initial).2 ∅ /\
  (metadata true (Some 9%positive) (reset initial).2).1 = Ok (Num 1, PrivacySensitive).
Proof.
  assert (Hok : registry_ok (reset initial).2 ∅).
  { apply registry_ok_reset. simpl. lia. }
  split; [exact Hok|].
  destruct (metadata_registers true _ _ 9%positive Hok) as ((i & st' & m' & Hm & _) & _).
  reflexivity.
Defined.

(** X3: [start] works from any state, also the one the module is loaded in,
    where [idMap] is still [null]: it never throws, leaves a registry that
    holds exactly the page root, under the identifier the counter stood at,
    and calls [doc.start] before and [interaction.observe] after.  A document
    without a root element leaves the registry empty and the counter alone. *)
Theorem start_registers_root document st :
  1 <= index st ->
  exists st' m',
    start document st = (Ok tt, st') /\
    registry_ok st' m' /\
    values st' = values st /\
    calls st' = calls st ++ [DocStart; InteractionObserve (key (props document))] /\
    match documentElement document with
    | Some root =>
        m' = {[ key (props root) := index st ]} /\ index st' = index st + 1 /\
        getId (Some (key (props root))) st' = (Ok (Num (index st)), st')
    | None => m' = ∅ /\ index st' = index st
    end.
Proof.
  intros Hi. destruct st as [vs idx im cs]. simpl in Hi.
  unfold start. destruct (documentElement document) as [root|].
  - eexists _, {[ key (props root) := idx ]}. split; [reflexivity|].
    split; [|split; [reflexivity|split; [simpl; rewrite <- app_assoc; reflexivity|]]].
    + split; [reflexivity | simpl; lia | |].
      * intros k i Hk. apply lookup_singleton_Some in Hk as [_ <-]. simpl. lia.
      * intros k1 k2 i H1 H2. apply lookup_singleton_Some in H1 as [<- _].
        apply lookup_singleton_Some in H2 as [<- _]. reflexivity.
    + split; [reflexivity|]. split; [reflexivity|].
      apply (getId_known _ {[ key (props root) := idx ]}); [reflexivity|].
      apply lookup_singleton_eq.
  - eexists _, ∅. split; [reflexivity|].
    split; [|split; [reflexivity|split; [simpl; rewrite <- app_assoc; reflexivity|]]].
    + split; [reflexivity | simpl; lia | |]; intros *; rewrite lookup_empty; discriminate.
    + split; reflexivity.
Qed.

Lemma start_registers_root_witness :
  1 <= index initial /\
  idMap (start helloDocument initial).2 = Some {[ 2%positive := 1 ]}.
Proof.
  assert (Hi : 1 <= index initial) by (simpl; lia).
  split; [exact Hi|].
  destruct (start_registers_root helloDocument initial Hi) as (st' & m' & Hs & _).
  reflexivity.
Defined.

(** ** A snapshot before [start] *)

Section NoRegistry.
Context (K : Constant.t).

Lemma visit_no_registry node st :
  idMap st = None ->
  visit K node st =
    if needsRegistry K node then (Throw (ExnError "TypeError"), st) else (Ok tt, st).
Proof.
  intros Hm. unfold visit, needsRegistry. fold (parentOf node).
  destruct (nodeType (props node) =? NodeType.DOCUMENT_TYPE_NODE).
  { unfold bind at 1. cbn [ret].
    destruct (truthy (Constant.DocumentTag K)) eqn:Ht.
    - apply add_throws; assumption.
    - apply add_untagged. assumption. }
  destruct (nodeType (props node) =? NodeType.TEXT_NODE).
  { unfold bind at 1. unfold bind at 1. unfold idMap_get, bind, theIdMap. rewrite Hm.
    reflexivity. }
  destruct (nodeType (props node) =? NodeType.ELEMENT_NODE).
  { unfold bind at 1. cbn [ret].
    destruct (absent (tagName (props node)) ["NOSCRIPT"; "SCRIPT"; "STYLE"]) eqn:Ha;
      cbn [andb].
    - destruct (truthy (tagName (props node))) eqn:Ht.
      + apply add_throws; [cbn; assumption | assumption].
      + apply add_untagged. cbn. assumption.
    - apply add_untagged. reflexivity. }
  unfold bind at 1. cbn [ret]. apply add_untagged. reflexivity.
Qed.

Lemma visitAll_no_registry nodes st :
  idMap st = None ->
  visitAll K nodes st =
    if existsb (needsRegistry K) nodes
    then (Throw (ExnError "TypeError"), st) else (Ok tt, st).
Proof.
  intros Hm. induction nodes as [|n rest IH]; [reflexivity|].
  cbn [visitAll existsb]. unfold bind. rewrite (visit_no_registry n st Hm).
  destruct (needsRegistry K n); [reflexivity|]. exact IH.
Qed.

(** X4: a snapshot taken while [idMap] is still [null] (before [start]).  It
    throws a [TypeError] exactly when the document holds a node the loop body
    needs the registry for; the encoder is then never called.  Either way the
    records of the previous snapshot are gone, no record is produced, and the
    counter and the registry are as they were. *)
Theorem snapshot_without_registry document st :
  idMap st = None ->
  snapshot K document st =
    Some (if existsb (needsRegistry K) (breadthFirst document)
          then (Throw (ExnError "TypeError"), withValues [] st)
          else (Ok tt, (call (Encode EventSnapshot []) (withValues [] st)).2)).
Proof.
  intros Hm. unfold snapshot. rewrite traverse_breadthFirst. fold (withValues [] st).
  rewrite (visitAll_no_registry _ (withValues [] st) Hm).
  destruct (existsb (needsRegistry K) (breadthFirst document)); reflexivity.
Qed.

End NoRegistry.

Lemma snapshot_without_registry_witness :
  idMap initial = None /\
  snapshot sample_constants helloDocument initial
    = Some (Throw (ExnError "TypeError"), initial).
Proof.
  split; [reflexivity|].
  exact (snapshot_without_registry sample_constants helloDocument initial eq_refl).
Defined.

(** ** The records of a snapshot *)

Section Records.
Context (K : Constant.t).

Lemma visitAll_records nodes : forall st m,
  registry_ok st m ->
  exists st' m' recs recorded,
    visitAll K nodes st = (Ok tt, st') /\
    registry_ok st' m' /\ m ⊆ m' /\
    values st' = values st ++ recs /\
    sublist recorded nodes /\
    Forall2 (fun n r => exists i, id r = Num i /\ m' !! key (props n) = Some i)
            recorded recs /\
    (forall k i, m' !! k = Some i ->
       m !! k = Some i \/ exists r, r ∈ recs /\ id r = Num i).
Proof.
  induction nodes as [|n rest IH]; intros st m Hok.
  - exists st, m, [], []. rewrite app_nil_r.
    split; [reflexivity|]. split; [assumption|]. split; [reflexivity|].
    split; [reflexivity|]. split; [constructor|]. split; [constructor|]. auto.
  - destruct (visit_step K n st m Hok) as (st1 & m1 & Hv & Hok1 & Hs1 & Hoff & _ & Hcase).
    destruct (IH st1 m1 Hok1)
      as (st2 & m2 & recs & recorded & Hv2 & Hok2 & Hs2 & Hvals & Hsl & Hf & Hnew).
    cbn [visitAll]. unfold bind. rewrite Hv, Hv2.
    destruct Hcase as [(_ & -> & ->) | (_ & i & Hi & Hv1)].
    + exists st2, m2, recs, recorded.
      split; [reflexivity|]. split; [assumption|]. split; [assumption|].
      split; [assumption|]. split; [apply sublist_cons; assumption|].
      split; assumption.
    + eexists st2, m2, (_ :: recs), (n :: recorded).
      split; [reflexivity|]. split; [assumption|]. split; [etrans; eassumption|].
      split; [rewrite Hvals, Hv1, <- app_assoc; reflexivity|].
      split; [apply sublist_skip; assumption|].
      split.
      * constructor; [|assumption]. exists i. split; [reflexivity|].
        eapply lookup_weaken; eassumption.
      * intros k j Hk. destruct (Hnew k j Hk) as [Hm1 | (r & Hr & Hid)].
        -- destruct (decide (k = key (props n))) as [->|Hne].
           ++ right. eexists. split; [left|]. cbn [record id]. congruence.
           ++ left. rewrite <- (Hoff k Hne). assumption.
        -- right. exists r. split; [right; assumption | assumption].
Qed.


Lemma known_mono m0 recs more i : known m0 recs i -> known m0 (recs ++ more) i.
Proof.
  intros [H | (r & Hr & Hid)]; [left; assumption|].
  right. exists r. split; [apply elem_of_app; left; assumption | assumption].
Qed.

Lemma idOf_Num m p j :
  idOf m p = Num j -> exists pp, p = Some pp /\ m !! key pp = Some j.
Proof.
  unfold idOf. destruct p as [pp|]; [|discriminate].
  destruct (m !! key pp) as [i|] eqn:Hp; [|discriminate].
  intros [= <-]. exists pp. split; [reflexivity | assumption].
Qed.

Lemma visitAll_refs m0 nodes : forall st m,
  registry_ok st m ->
  (forall k i, m !! k = Some i -> known m0 (values st) i) ->
  refsKnown m0 (values st) ->
  exists st' m',
    visitAll K nodes st = (Ok tt, st') /\ registry_ok st' m' /\
    (forall k i, m' !! k = Some i -> known m0 (values st') i) /\
    refsKnown m0 (values st').
Proof.
  induction nodes as [|n rest IH]; intros st m Hok Hreg Hrefs.
  - exists st, m. split; [reflexivity|]. split; [assumption|]. split; assumption.
  - destruct (visit_step K n st m Hok) as (st1 & m1 & Hv & Hok1 & Hs1 & Hoff & _ & Hcase).
    cbn [visitAll]. unfold bind. rewrite Hv.
    destruct Hcase as [(_ & -> & ->) | (_ & i & Hi & Hv1)];
      [apply (IH st m Hok Hreg Hrefs)|].
    set (r := record i m1 n (parentOf n) (classify K m n)) in *.
    assert (Hreg1 : forall k j, m1 !! k = Some j -> known m0 (values st1) j).
    { intros k j Hk. rewrite Hv1. destruct (decide (k = key (props n))) as [->|Hne].
      - right. exists r. split; [apply elem_of_app; right; left|].
        cbn [r record id]. congruence.
      - apply known_mono, (Hreg k). rewrite <- (Hoff k Hne). assumption. }
    apply (IH st1 m1 Hok1 Hreg1).
    intros p r0 j Hp Hj. rewrite Hv1 in Hp |- *.
    destruct (decide (p < length (values st))%nat) as [Hlt|Hge].
    + rewrite lookup_app_l in Hp by assumption.
      rewrite take_app_le by lia. apply (Hrefs p r0 j Hp Hj).
    + assert (p = length (values st)) as ->.
      { apply lookup_lt_Some in Hp. rewrite length_app in Hp. simpl in Hp. lia. }
      rewrite list_lookup_middle in Hp by reflexivity. injection Hp as <-.
      rewrite take_ge by (rewrite length_app; simpl; lia).
      rewrite <- Hv1. destruct Hj as [Hj | [Hj | Hj]].
      * cbn [r record id] in Hj. injection Hj as <-. apply (Hreg1 _ _ Hi).
      * cbn [r record parent] in Hj. apply idOf_Num in Hj as (pp & _ & Hpp).
        apply (Hreg1 _ _ Hpp).
      * cbn [r record previous] in Hj. apply idOf_Num in Hj as (pp & _ & Hpp).
        apply (Hreg1 _ _ Hpp).
Qed.

Lemma recorded_distinct (m' : gmap positive Z) recorded recs :
  (forall k1 k2 i, m' !! k1 = Some i -> m' !! k2 = Some i -> k1 = k2) ->
  Forall2 (fun n r => exists i, id r = Num i /\ m' !! key (props n) = Some i)
          recorded recs ->
  NoDup (keysOf recorded) -> NoDup (id <$> recs).
Proof.
  intros Hinj Hf. induction Hf as [|n r recorded recs (i & Hid & Hi) Hf IH];
    intros Hnd; [constructor|].
  cbn [keysOf fmap list_fmap] in Hnd. apply NoDup_cons in Hnd as [Hn Hnd].
  cbn [fmap list_fmap]. apply NoDup_cons. split; [|apply IH, Hnd].
  intros Hin. apply Hn. apply list_elem_of_fmap in Hin as (r' & Hr' & Hin).
  apply list_elem_of_lookup in Hin as (p & Hp).
  destruct (Forall2_lookup_r _ _ _ _ _ Hf Hp) as (n' & Hn' & i' & Hid' & Hi').
  assert (i' = i) as -> by congruence.
  rewrite (Hinj _ _ _ Hi Hi'). apply list_elem_of_fmap. exists n'.
  split; [reflexivity|]. apply list_elem_of_lookup. eauto.
Qed.

(** X5: the records of a snapshot and the registry agree.  When the nodes
    of a document are distinct objects, no two records of a snapshot carry
    the same identifier; every record's identifier is an entry of the
    registry; and the registry grows by the identifiers of the records only:
    a node without a record (a [SCRIPT], a comment, the document) is not
    registered by the traversal. *)
Theorem snapshot_record_ids document st m :
  registry_ok st m ->
  NoDup (keysOf (breadthFirst document)) ->
  exists st' m',
    snapshot K document st = Some (Ok tt, st') /\
    registry_ok st' m' /\
    NoDup (id <$> values st') /\
    (forall r, r ∈ values st' -> exists k i, id r = Num i /\ m' !! k = Some i) /\
    (forall k i, m' !! k = Some i ->
       m !! k = Some i \/ exists r, r ∈ values st' /\ id r = Num i).
Proof.
  intros Hok Hnd. unfold snapshot. rewrite traverse_breadthFirst.
  fold (withValues [] st).
  destruct (visitAll_records (breadthFirst document) (withValues [] st) m
              (registry_ok_withValues _ _ _ Hok))
    as (st1 & m1 & recs & recorded & Hv & Hok1 & Hsub & Hvals & Hsl & Hf & Hnew).
  rewrite Hv. cbn [withValues values app] in Hvals.
  exists (call (Encode EventSnapshot (values st1)) st1).2, m1.
  split; [reflexivity|].
  split; [destruct Hok1 as [H1 H2 H3 H4]; split; [exact H1 | exact H2 | exact H3 | exact H4]|].
  change (values (call (Encode EventSnapshot (values st1)) st1).2) with (values st1).
  rewrite Hvals.
  split; [|split; [|exact Hnew]].
  - apply (recorded_distinct m1 recorded recs (ok_inj _ _ Hok1) Hf).
    assert (Hks : keysOf recorded `sublist_of` keysOf (breadthFirst document)).
    { unfold keysOf. apply fmap_sublist, Hsl. }
    exact (sublist_NoDup _ _ Hnd Hks).
  - intros r Hr. apply list_elem_of_lookup in Hr as (p & Hp).
    destruct (Forall2_lookup_r _ _ _ _ _ Hf Hp) as (n & _ & i & Hid & Hi). eauto.
Qed.

(** X6: a snapshot writes no dangling reference.  Whenever a record names a
    parent or a previous sibling by number, that number was in the registry
    before the snapshot or is the identifier of a record at or before it in
    the batch; otherwise the field is [null] or [undefined]. *)
Theorem snapshot_refs_known document st m :
  registry_ok st m ->
  exists st', snapshot K document st = Some (Ok tt, st') /\ refsKnown m (values st').
Proof.
  intros Hok. unfold snapshot. rewrite traverse_breadthFirst.
  fold (withValues [] st).
  destruct (visitAll_refs m (breadthFirst document) (withValues [] st) m
              (registry_ok_withValues _ _ _ Hok))
    as (st1 & m1 & Hv & Hok1 & _ & Hrefs).
  - intros k i Hk. left. eauto.
  - intros p r i Hp. destruct p; discriminate.
  - rewrite Hv. exists (call (Encode EventSnapshot (values st1)) st1).2.
    split; [reflexivity|]. exact Hrefs.
Qed.


(** ** Running the snapshot again *)

Lemma parentOf_parentNode node : parentOf node = parentNode node.
Proof.
  unfold parentOf, parentElement. destruct (parentNode node) as [p|]; [|reflexivity].
  destruct (nodeType p =? NodeType.ELEMENT_NODE); reflexivity.
Qed.

Lemma classify_agree m m' node :
  (forall pp, parentNode node = Some pp -> m' !! key pp = m !! key pp) ->
  classify K m' node = classify K m node.
Proof.
  intros Hp. unfold classify. rewrite parentOf_parentNode.
  destruct (parentNode node) as [pp|]; [|reflexivity].
  cbn [fmap option_fmap option_map]. rewrite (Hp pp eq_refl). reflexivity.
Qed.

Lemma idOf_agree m m' p :
  (forall pp, p = Some pp -> m' !! key pp = m !! key pp) ->
  idOf m' p = idOf m p.
Proof.
  intros Hp. destruct p as [pp|]; [|reflexivity].
  cbn [idOf]. rewrite (Hp pp eq_refl). reflexivity.
Qed.

Lemma refersBack_tail n rest : refersBack (n :: rest) -> refersBack rest.
Proof.
  intros H l1 x l2 pp -> Hpp. apply (H (n :: l1) x l2 pp); [reflexivity | assumption].
Qed.

Lemma visitAll_again nodes : forall st m,
  registry_ok st m -> refersBack nodes -> NoDup (keysOf nodes) ->
  exists st' m' recs,
    visitAll K nodes st = (Ok tt, st') /\ registry_ok st' m' /\
    values st' = values st ++ recs /\
    (forall k, k ∉ keysOf nodes -> m' !! k = m !! k) /\
    forall st2, registry_ok st2 m' ->
      visitAll K nodes st2 = (Ok tt, withValues (values st2 ++ recs) st2).
Proof.
  induction nodes as [|n rest IH]; intros st m Hok Hback Hnd.
  - exists st, m, []. rewrite app_nil_r. split; [reflexivity|]. split; [assumption|].
    split; [reflexivity|]. split; [reflexivity|].
    intros st2 _. rewrite app_nil_r. destruct st2. reflexivity.
  - cbn [keysOf fmap list_fmap] in Hnd. apply NoDup_cons in Hnd as [Hn Hnd].
    fold (keysOf rest) in Hn, Hnd.
    destruct (visit_step K n st m Hok) as (st1 & m1 & Hv & Hok1 & Hs1 & Hoff & _ & Hcase).
    destruct (IH st1 m1 Hok1 (refersBack_tail _ _ Hback) Hnd)
      as (st' & m' & recs & Hv' & Hok' & Hvals & Hout & Hagain).
    (* the entries the record of [n] reads are the same in [m], [m1] and [m'] *)
    assert (Href : forall pp, parentNode n = Some pp \/ previousSibling n = Some pp ->
                     m' !! key pp = m1 !! key pp /\ m1 !! key pp = m !! key pp).
    { intros pp Hpp. pose proof (Hback [] n rest pp eq_refl Hpp) as Hnot.
      cbn [keysOf fmap list_fmap] in Hnot. fold (keysOf rest) in Hnot.
      apply not_elem_of_cons in Hnot as [Hne Hrest].
      split; [apply Hout, Hrest | apply Hoff, Hne]. }
    assert (Hself : m' !! key (props n) = m1 !! key (props n)) by apply Hout, Hn.
    assert (Hcl : classify K m' n = classify K m n).
    { apply classify_agree. intros pp Hpp.
      destruct (Href pp (or_introl Hpp)) as [-> ->]. reflexivity. }
    cbn [visitAll]. unfold bind at 1. rewrite Hv, Hv'.
    destruct Hcase as [(Ht & -> & ->) | (Ht & i & Hi & Hv1)].
    + exists st', m', recs. split; [reflexivity|]. split; [assumption|].
      split; [assumption|]. split.
      { intros k Hk. cbn [keysOf fmap list_fmap] in Hk.
        apply not_elem_of_cons in Hk as [_ Hk]. apply Hout, Hk. }
      intros st2 Hok2. cbn [visitAll]. unfold bind at 1.
      rewrite (visit_spec K n st2 m' (ok_map _ _ Hok2)), Hcl.
      rewrite (add_untagged n _ _ st2 Ht). apply Hagain, Hok2.
    + set (r := record i m1 n (parentOf n) (classify K m n)) in *.
      exists st', m', (r :: recs). split; [reflexivity|]. split; [assumption|].
      split; [rewrite Hvals, Hv1, <- app_assoc; reflexivity|]. split.
      { intros k Hk. cbn [keysOf fmap list_fmap] in Hk.
        apply not_elem_of_cons in Hk as [Hne Hk]. rewrite (Hout k Hk). apply Hoff, Hne. }
      intros st2 Hok2. cbn [visitAll]. unfold bind at 1.
      rewrite (visit_spec K n st2 m' (ok_map _ _ Hok2)), Hcl.
      assert (Hi' : m' !! key (props n) = Some i) by (rewrite Hself; exact Hi).
      rewrite (add_tagged n _ _ st2 i st2 m' Ht
                 (getId_known st2 m' _ i (ok_map _ _ Hok2) Hi') (ok_map _ _ Hok2)).
      assert (Hr : record i m' n (parentOf n) (classify K m n) = r).
      { unfold r, record. f_equal.
        - apply idOf_agree. intros pp Hpp. rewrite parentOf_parentNode in Hpp.
          apply (Href pp (or_introl Hpp)).
        - apply idOf_agree. intros pp Hpp. apply (Href pp (or_intror Hpp)). }
      rewrite Hr.
      rewrite (Hagain (withValues (values st2 ++ [r]) st2)
                 (registry_ok_withValues _ _ _ Hok2)).
      cbn [withValues values index idMap calls]. rewrite <- app_assoc. reflexivity.
Qed.

End Records.

(** ** Earlier nodes in the breadth-first listing *)

Lemma childrenFrom_lookup ts : forall parent prev j c,
  childrenFrom parent prev ts !! j = Some c ->
  parentNode c = parent /\
  previousSibling c =
    match j with
    | O => prev
    | S j' => props <$> (childrenFrom parent prev ts !! j')
    end.
Proof.
  induction ts as [|[q ks] rest IH]; intros parent prev j c; [discriminate|].
  cbn [childrenFrom]. destruct j as [|j].
  - intros [= <-]. split; reflexivity.
  - cbn [lookup list_lookup]. intros Hc.
    destruct (IH parent (Some q) j c Hc) as [Hp Hs]. split; [assumption|].
    rewrite Hs. destruct j as [|j]; reflexivity.
Qed.

Lemma children_lookup queue : forall j c,
  flat_map childNodes queue !! j = Some c ->
  (exists jx x, queue !! jx = Some x /\ parentNode c = Some (props x)) /\
  (forall pp, previousSibling c = Some pp ->
     exists j' c', j = S j' /\ flat_map childNodes queue !! j' = Some c' /\ props c' = pp).
Proof.
  induction queue as [|x queue IH]; intros j c; [discriminate|].
  cbn [flat_map]. intros Hc.
  destruct (decide (j < length (childNodes x))%nat) as [Hlt|Hge].
  - rewrite lookup_app_l in Hc by assumption.
    destruct (childrenFrom_lookup _ _ _ _ _ Hc) as [Hp Hs]. split.
    + exists O, x. split; [reflexivity | assumption].
    + intros pp Hpp. rewrite Hs in Hpp. destruct j as [|j']; [discriminate|].
      destruct (childrenFrom (Some (props x)) None (childTrees x) !! j') as [c'|] eqn:Hc';
        [|discriminate].
      injection Hpp as <-. exists j', c'. split; [reflexivity|]. split; [|reflexivity].
      apply lookup_app_l_Some. exact Hc'.
  - rewrite lookup_app_r in Hc by lia.
    destruct (IH _ _ Hc) as [(jx & y & Hy & Hp) Hs]. split.
    + exists (S jx), y. split; assumption.
    + intros pp Hpp. destruct (Hs pp Hpp) as (j' & c' & Hj & Hc' & Hprops).
      exists (length (childNodes x) + j')%nat, c'. split; [lia|]. split; [|assumption].
      rewrite lookup_app_r by lia.
      replace (length (childNodes x) + j' - length (childNodes x))%nat with j' by lia.
      assumption.
Qed.

Lemma earlierFrom_children D q :
  earlierFrom (length (D ++ q)) ((D ++ q) ++ flat_map childNodes q).
Proof.
  intros p c pp Hc Hp Hpp.
  rewrite lookup_app_r in Hc by assumption.
  destruct (children_lookup q _ c Hc) as [(jx & x & Hx & Hpar) Hprev].
  destruct Hpp as [Hpp | Hpp].
  - rewrite Hpar in Hpp. injection Hpp as <-.
    exists (length D + jx)%nat, x. pose proof (lookup_lt_Some _ _ _ Hx) as Hlt.
    rewrite length_app in Hp. split; [lia|]. split; [|reflexivity].
    apply lookup_app_l_Some. rewrite lookup_app_r by lia.
    replace (length D + jx - length D)%nat with jx by lia. assumption.
  - destruct (Hprev pp Hpp) as (j' & c' & Hj & Hc' & Hprops).
    exists (length (D ++ q) + j')%nat, c'. split; [lia|]. split; [|assumption].
    rewrite lookup_app_r by lia.
    replace (length (D ++ q) + j' - length (D ++ q))%nat with j' by lia. assumption.
Qed.

Lemma earlierFrom_levels n : forall D q,
  earlierFrom (length D) (D ++ q) -> earlierFrom (length D) (D ++ levels n q).
Proof.
  induction n as [|n IH]; intros D q Hq.
  - intros p c pp Hc Hp. unfold levels in Hc. cbn [seq flat_map] in Hc.
    rewrite app_nil_r in Hc. apply lookup_lt_Some in Hc. lia.
  - rewrite levels_S.
    pose proof (IH (D ++ q) (flat_map childNodes q) (earlierFrom_children D q)) as Hrest.
    rewrite <- app_assoc in Hrest.
    intros p c pp Hc Hp Hpp.
    destruct (decide (p < length (D ++ q))%nat) as [Hlt|Hge].
    + rewrite app_assoc, lookup_app_l in Hc by assumption.
      destruct (Hq p c pp Hc Hp Hpp) as (p' & c' & Hp' & Hc' & Hprops).
      exists p', c'. split; [assumption|]. split; [|assumption].
      rewrite app_assoc. apply lookup_app_l_Some. assumption.
    + apply (Hrest p c pp Hc); [lia | assumption].
Qed.

Lemma earlierFrom_breadthFirst root :
  parentNode root = None -> previousSibling root = None ->
  earlierFrom 0 (breadthFirst root).
Proof.
  intros Hp Hs. unfold breadthFirst. fold (levels (nodeSize root) [root]).
  apply (earlierFrom_levels (nodeSize root) [] [root]).
  intros p c pp Hc _ Hpp. destruct p as [|p]; [|destruct p; discriminate].
  injection Hc as <-. destruct Hpp; congruence.
Qed.

Lemma refersBack_earlier L :
  earlierFrom 0 L -> NoDup (keysOf L) -> refersBack L.
Proof.
  intros Hearly Hnd l1 n l2 pp -> Hpp Hin.
  assert (Hn : (l1 ++ n :: l2) !! length l1 = Some n) by apply list_lookup_middle, eq_refl.
  destruct (Hearly _ n pp Hn ltac:(lia) Hpp) as (p' & c' & Hlt & Hc' & Hprops).
  apply list_elem_of_lookup in Hin as (j & Hj).
  assert (H1 : keysOf (l1 ++ n :: l2) !! p' = Some (key pp)).
  { unfold keysOf. rewrite list_lookup_fmap, Hc'. cbn. rewrite Hprops. reflexivity. }
  assert (H2 : keysOf (l1 ++ n :: l2) !! (length l1 + j)%nat = Some (key pp)).
  { unfold keysOf in *. rewrite fmap_app, lookup_app_r by (rewrite length_fmap; lia).
    rewrite length_fmap. replace (length l1 + j - length l1)%nat with j by lia.
    exact Hj. }
  pose proof (NoDup_lookup _ _ _ _ Hnd H1 H2). lia.
Qed.

Section Again.
Context (K : Constant.t).

(** X7: within a session the snapshot is repeatable.  For a document whose
    nodes are distinct objects, a second snapshot right after the first
    produces the same records, identifier for identifier, and leaves the
    registry and the counter as the first left them. *)
Theorem snapshot_repeatable document st m :
  registry_ok st m ->
  parentNode document = None -> previousSibling document = None ->
  NoDup (keysOf (breadthFirst document)) ->
  exists st1 st2,
    snapshot K document st = Some (Ok tt, st1) /\
    snapshot K document st1 = Some (Ok tt, st2) /\
    values st2 = values st1 /\ idMap st2 = idMap st1 /\ index st2 = index st1.
Proof.
  intros Hok Hp Hs Hnd.
  pose proof (refersBack_earlier _ (earlierFrom_breadthFirst document Hp Hs) Hnd) as Hback.
  destruct (visitAll_again K (breadthFirst document) (withValues [] st) m
              (registry_ok_withValues _ _ _ Hok) Hback Hnd)
    as (st' & m' & recs & Hv & Hok' & Hvals & _ & Hagain).
  set (enc := fun s => (call (Encode EventSnapshot (values s)) s).2).
  assert (Hok1 : registry_ok (enc st') m').
  { destruct Hok' as [H1 H2 H3 H4]. split; [exact H1 | exact H2 | exact H3 | exact H4]. }
  exists (enc st'), (enc (withValues ([] ++ recs) (withValues [] (enc st')))).
  split; [|split].
  - unfold snapshot. rewrite traverse_breadthFirst. fold (withValues [] st).
    rewrite Hv. reflexivity.
  - unfold snapshot. rewrite traverse_breadthFirst. fold (withValues [] (enc st')).
    rewrite (Hagain (withValues [] (enc st')) (registry_ok_withValues _ _ _ Hok1)).
    reflexivity.
  - cbn [withValues values app] in Hvals. subst enc. cbn. rewrite Hvals.
    split; [reflexivity|]. split; reflexivity.
Qed.

End Again.

Lemma snapshot_record_ids_witness :
  registry_ok (reset initial).2 ∅ /\
  NoDup (keysOf (breadthFirst helloDocument)) /\
  exists st' m',
    snapshot sample_constants helloDocument (reset initial).2 = Some (Ok tt, st') /\
    registry_ok st' m' /\
    NoDup (id <$> values st') /\
    (forall r, r ∈ values st' -> exists k i, id r = Num i /\ m' !! k = Some i) /\
    (forall k i, m' !! k = Some i ->
       (∅ : gmap positive Z) !! k = Some i \/ exists r, r ∈ values st' /\ id r = Num i).
Proof.
  assert (Hok : registry_ok (reset initial).2 ∅).
  { apply registry_ok_reset. simpl. lia. }
  assert (Hnd : NoDup (keysOf (breadthFirst helloDocument))).
  { apply (bool_decide_unpack _). vm_compute. exact I. }
  split; [exact Hok|]. split; [exact Hnd|].
  exact (snapshot_record_ids sample_constants helloDocument _ _ Hok Hnd).
Defined.

Lemma snapshot_refs_known_witness :
  registry_ok (reset initial).2 ∅ /\
  exists st',
    snapshot sample_constants helloDocument (reset initial).2 = Some (Ok tt, st') /\
    refsKnown ∅ (values st').
Proof.
  assert (Hok : registry_ok (reset initial).2 ∅).
  { apply registry_ok_reset. simpl. lia. }
  split; [exact Hok|].
  exact (snapshot_refs_known sample_constants helloDocument _ _ Hok).
Defined.

Lemma snapshot_repeatable_witness :
  registry_ok (reset initial).2 ∅ /\
  parentNode helloDocument = None /\
  previousSibling helloDocument = None /\
  NoDup (keysOf (breadthFirst helloDocument)) /\
  exists st1 st2,
    snapshot sample_constants helloDocument (reset initial).2 = Some (Ok tt, st1) /\
    snapshot sample_constants helloDocument st1 = Some (Ok tt, st2) /\
    values st2 = values st1 /\ idMap st2 = idMap st1 /\ index st2 = index st1.
Proof.
  assert (Hok : registry_ok (reset initial).2 ∅).
  { apply registry_ok_reset. simpl. lia. }
  assert (Hnd : NoDup (keysOf (breadthFirst helloDocument))).
  { apply (bool_decide_unpack _). vm_compute. exact I. }
  split; [exact Hok|]. split; [reflexivity|]. split; [reflexivity|]. split; [exact Hnd|].
  exact (snapshot_repeatable sample_constants helloDocument _ _ Hok eq_refl eq_refl Hnd).
Defined.

(** ** Text and the registry *)

Lemma keys_inj nodes n e :
  NoDup (keysOf nodes) -> n ∈ nodes -> e ∈ nodes ->
  key (props n) = key (props e) -> n = e.
Proof.
  intros Hnd Hn He Hk.
  apply list_elem_of_lookup in Hn as (i & Hi). apply list_elem_of_lookup in He as (j & Hj).
  assert (Hi' : keysOf nodes !! i = Some (key (props n))).
  { unfold keysOf. rewrite list_lookup_fmap, Hi. reflexivity. }
  assert (Hj' : keysOf nodes !! j = Some (key (props n))).
  { unfold keysOf. rewrite list_lookup_fmap, Hj, Hk. reflexivity. }
  pose proof (NoDup_lookup _ _ _ _ Hnd Hi' Hj') as ->. congruence.
Qed.

Section Opaque.
Context (K : Constant.t).

Lemma classify_opaque m n : opaque n = true -> tag (classify K m n) = None.
Proof.
  unfold opaque, classify. intros H. apply andb_prop in H as [Ht Ha].
  apply Z.eqb_eq in Ht. rewrite Ht. cbn.
  apply negb_true_iff in Ha. rewrite Ha. reflexivity.
Qed.

Lemma classify_text m k t :
  textBelow k t ->
  tag (classify K m t)
  = match m !! k with
    | Some i => if negb (i =? 0) then Some (Constant.TextTag K) else None
    | None => None
    end.
Proof.
  intros [Ht Hp]. unfold classify. rewrite Ht, Hp. cbn.
  destruct (m !! k); reflexivity.
Qed.

Lemma visitAll_hidden ke kt nodes : forall st m,
  registry_ok st m ->
  (forall n, n ∈ nodes -> key (props n) = ke -> opaque n = true) ->
  (forall n, n ∈ nodes -> key (props n) = kt -> textBelow ke n) ->
  m !! ke = None -> m !! kt = None ->
  forall st' m', visitAll K nodes st = (Ok tt, st') -> idMap st' = Some m' ->
    m' !! ke = None /\ m' !! kt = None.
Proof.
  induction nodes as [|n rest IH]; intros st m Hok He Ht Hke Hkt st' m' Hv Hm'.
  - injection Hv as <-. rewrite (ok_map _ _ Hok) in Hm'. injection Hm' as <-.
    split; assumption.
  - destruct (visit_step K n st m Hok) as (st1 & m1 & Hv1 & Hok1 & _ & Hoff & _ & Hcase).
    cbn [visitAll] in Hv. unfold bind in Hv. rewrite Hv1 in Hv.
    assert (Hsame : m1 !! ke = None /\ m1 !! kt = None).
    { destruct Hcase as [(_ & _ & ->) | (Htag & _)]; [split; assumption|].
      destruct (decide (key (props n) = ke)) as [Hn|Hn].
      { rewrite (classify_opaque m n (He n ltac:(left) Hn)) in Htag. discriminate. }
      destruct (decide (key (props n) = kt)) as [Hn'|Hn'].
      { rewrite (classify_text m ke n (Ht n ltac:(left) Hn')), Hke in Htag. discriminate. }
      rewrite !Hoff by congruence. split; assumption. }
    destruct Hsame as [Hke1 Hkt1].
    apply (IH st1 m1 Hok1
             (fun n' Hn' => He n' ltac:(right; exact Hn'))
             (fun n' Hn' => Ht n' ltac:(right; exact Hn'))
             Hke1 Hkt1 st' m' Hv Hm').
Qed.

(** X8: in a session that has not met them, the text of [SCRIPT], [STYLE]
    and [NOSCRIPT] elements stays out of the snapshot.  The element gets no
    tag and so no identifier, and its text, finding its parent unregistered,
    gets none either: after the snapshot neither is in the registry, and no
    record carries an identifier of theirs. *)
Theorem snapshot_skips_opaque_text document st m e t :
  registry_ok st m ->
  NoDup (keysOf (breadthFirst document)) ->
  e ∈ breadthFirst document -> t ∈ breadthFirst document ->
  opaque e = true ->
  textBelow (key (props e)) t ->
  m !! key (props e) = None -> m !! key (props t) = None ->
  exists st' m',
    snapshot K document st = Some (Ok tt, st') /\
    registry_ok st' m' /\
    m' !! key (props e) = None /\ m' !! key (props t) = None /\
    forall r, r ∈ values st' ->
      exists k i, id r = Num i /\ m' !! k = Some i /\
                  k <> key (props e) /\ k <> key (props t).
Proof.
  intros Hok Hnd He Ht Hop Htext Hme Hmt.
  unfold snapshot. rewrite traverse_breadthFirst. fold (withValues [] st).
  destruct (visitAll_records K (breadthFirst document) (withValues [] st) m
              (registry_ok_withValues _ _ _ Hok))
    as (st1 & m1 & recs & recorded & Hv & Hok1 & _ & Hvals & _ & Hf & _).
  assert (Hopn : forall n, n ∈ breadthFirst document -> key (props n) = key (props e) ->
                   opaque n = true).
  { intros n Hn Hk. rewrite (keys_inj _ n e Hnd Hn He Hk). exact Hop. }
  assert (Htn : forall n, n ∈ breadthFirst document -> key (props n) = key (props t) ->
                  textBelow (key (props e)) n).
  { intros n Hn Hk. rewrite (keys_inj _ n t Hnd Hn Ht Hk). exact Htext. }
  destruct (visitAll_hidden (key (props e)) (key (props t)) (breadthFirst document)
              (withValues [] st) m (registry_ok_withValues _ _ _ Hok) Hopn Htn Hme Hmt
              st1 m1 Hv (ok_map _ _ Hok1)) as [He1 Ht1].
  rewrite Hv. cbn [withValues values app] in Hvals.
  exists (call (Encode EventSnapshot (values st1)) st1).2, m1.
  split; [reflexivity|].
  split; [destruct Hok1 as [H1 H2 H3 H4]; split; [exact H1 | exact H2 | exact H3 | exact H4]|].
  split; [exact He1|]. split; [exact Ht1|].
  change (values (call (Encode EventSnapshot (values st1)) st1).2) with (values st1).
  rewrite Hvals. intros r Hr. apply list_elem_of_lookup in Hr as (p & Hp).
  destruct (Forall2_lookup_r _ _ _ _ _ Hf Hp) as (n & _ & i & Hid & Hi).
  exists (key (props n)), i. split; [exact Hid|]. split; [exact Hi|].
  split; intros Heq; rewrite Heq in Hi; congruence.
Qed.

Lemma visitAll_values nodes st m :
  registry_ok st m ->
  exists st' m' recs,
    visitAll K nodes st = (Ok tt, st') /\ registry_ok st' m' /\ m ⊆ m' /\
    values st' = values st ++ recs.
Proof.
  intros Hok.
  destruct (visitAll_records K nodes st m Hok)
    as (st' & m' & recs & recorded & Hv & Hok' & Hsub & Hvals & _).
  exists st', m', recs. split; [exact Hv|]. split; [exact Hok'|]. split; assumption.
Qed.

(** X9: what decides whether a text node is recorded is the registry, not
    the tag of its parent.  Once the parent has an identifier (from an earlier
    snapshot, or because [metadata] or [getId] was asked about it), the
    snapshot holds a record with the text as its value, whatever element the
    parent is, a [SCRIPT] included. *)
Theorem snapshot_records_registered_text document st m t pe i :
  registry_ok st m ->
  truthy (Constant.TextTag K) = true ->
  t ∈ breadthFirst document ->
  nodeType (props t) = NodeType.TEXT_NODE ->
  parentOf t = Some pe ->
  m !! key pe = Some i ->
  exists st' r,
    snapshot K document st = Some (Ok tt, st') /\
    r ∈ values st' /\
    tag (data r) = Some (Constant.TextTag K) /\
    value (data r) = nodeValue (props t) /\
    parent r = Num i.
Proof.
  intros Hok Htag Ht Htype Hp Hi.
  apply list_elem_of_split in Ht as (l1 & l2 & Hsplit).
  unfold snapshot. rewrite traverse_breadthFirst. fold (withValues [] st).
  rewrite Hsplit, (visitAll_app K l1 (t :: l2)).
  destruct (visitAll_values l1 (withValues [] st) m (registry_ok_withValues _ _ _ Hok))
    as (st1 & m1 & recs1 & Hv1 & Hok1 & Hsub1 & Hvals1).
  rewrite Hv1. cbn [visitAll]. unfold bind at 1.
  destruct (visit_step K t st1 m1 Hok1) as (st2 & m2 & Hv2 & Hok2 & Hsub2 & _ & _ & Hcase).
  rewrite Hv2.
  destruct (visitAll_values l2 st2 m2 Hok2) as (st3 & m3 & recs3 & Hv3 & Hok3 & _ & Hvals3).
  rewrite Hv3.
  assert (Hi1 : m1 !! key pe = Some i) by (eapply lookup_weaken; eassumption).
  assert (Hi2 : m2 !! key pe = Some i) by (eapply lookup_weaken; eassumption).
  assert (Hcl : tag (classify K m1 t) = Some (Constant.TextTag K)).
  { rewrite (classify_text m1 (key pe) t); [|split; [exact Htype | rewrite Hp; reflexivity]].
    rewrite Hi1. pose proof (ok_range _ _ Hok1 _ _ Hi1) as Hr.
    destruct (i =? 0) eqn:H0; [apply Z.eqb_eq in H0; lia | reflexivity]. }
  destruct Hcase as [(Hno & _) | (_ & j & _ & Hvals2)].
  { rewrite Hcl in Hno. cbn in Hno. congruence. }
  exists (call (Encode EventSnapshot (values st3)) st3).2,
         (record j m2 t (parentOf t) (classify K m1 t)).
  split; [reflexivity|]. split; [|split; [exact Hcl|split]].
  - change (values (call (Encode EventSnapshot (values st3)) st3).2) with (values st3).
    rewrite Hvals3, Hvals2. apply elem_of_app. left. apply elem_of_app. right.
    apply list_elem_of_singleton. reflexivity.
  - unfold classify. rewrite Htype. reflexivity.
  - cbn [record parent]. rewrite Hp. cbn [idOf]. rewrite Hi2. reflexivity.
Qed.

End Opaque.

Lemma snapshot_skips_opaque_text_witness :
  registry_ok (reset initial).2 ∅ /\
  NoDup (keysOf (breadthFirst scriptDocument)) /\
  scriptElement ∈ breadthFirst scriptDocument /\
  scriptText ∈ breadthFirst scriptDocument /\
  opaque scriptElement = true /\
  textBelow (key (props scriptElement)) scriptText /\
  exists st' m',
    snapshot sample_constants scriptDocument (reset initial).2 = Some (Ok tt, st') /\
    registry_ok st' m' /\
    m' !! key (props scriptElement) = None /\ m' !! key (props scriptText) = None /\
    forall r, r ∈ values st' ->
      exists k i, id r = Num i /\ m' !! k = Some i /\
                  k <> key (props scriptElement) /\ k <> key (props scriptText).
Proof.
  assert (Hok : registry_ok (reset initial).2 ∅).
  { apply registry_ok_reset. simpl. lia. }
  assert (Hnd : NoDup (keysOf (breadthFirst scriptDocument))).
  { apply (bool_decide_unpack _). vm_compute. exact I. }
  assert (He : scriptElement ∈ breadthFirst scriptDocument).
  { apply list_elem_of_lookup. exists 1%nat. reflexivity. }
  assert (Ht : scriptText ∈ breadthFirst scriptDocument).
  { apply list_elem_of_lookup. exists 2%nat. reflexivity. }
  assert (Hb : textBelow (key (props scriptElement)) scriptText).
  { split; reflexivity. }
  split; [exact Hok|]. split; [exact Hnd|]. split; [exact He|]. split; [exact Ht|].
  split; [reflexivity|]. split; [exact Hb|].
  exact (snapshot_skips_opaque_text sample_constants scriptDocument _ _ _ _
           Hok Hnd He Ht eq_refl Hb eq_refl eq_refl).
Defined.

Lemma snapshot_records_registered_text_witness :
  let st := (metadata false (Some 2%positive) (reset initial).2).2 in
  registry_ok st {[ 2%positive := 1 ]} /\
  truthy (Constant.TextTag sample_constants) = true /\
  scriptText ∈ breadthFirst scriptDocument /\
  nodeType (props scriptText) = NodeType.TEXT_NODE /\
  parentOf scriptText = Some scriptP /\
  exists st' r,
    snapshot sample_constants scriptDocument st = Some (Ok tt, st') /\
    r ∈ values st' /\
    tag (data r) = Some (Constant.TextTag sample_constants) /\
    value (data r) = Some "let token = 1"%string /\
    parent r = Num 1.
Proof.
  intros st.
  assert (Hok : registry_ok st {[ 2%positive := 1 ]}).
  { split.
    - reflexivity.
    - vm_compute. discriminate.
    - intros k i Hk. apply lookup_singleton_Some in Hk as [_ <-]. vm_compute.
      split; [discriminate | reflexivity].
    - intros k1 k2 i H1 H2. apply lookup_singleton_Some in H1 as [<- _].
      apply lookup_singleton_Some in H2 as [<- _]. reflexivity. }
  assert (Ht : scriptText ∈ breadthFirst scriptDocument).
  { apply list_elem_of_lookup. exists 2%nat. reflexivity. }
  split; [exact Hok|]. split; [reflexivity|]. split; [exact Ht|].
  split; [reflexivity|]. split; [reflexivity|].
  exact (snapshot_records_registered_text sample_constants scriptDocument st _
           scriptText scriptP 1 Hok eq_refl Ht eq_refl eq_refl eq_refl).
Defined.

End SnapshotExtras.

(** * Further properties of layout/node.ts *)
Module LayoutExtras.
Import Layout LayoutFacts LayoutAux.
Local Open Scope w_scope.

(** ** The two attribute copies *)

(** X10: the attribute copy of the snapshot has no deny-list.  It keeps every
    attribute, the last of a repeated name, but for the name [__proto__],
    which an assignment to a plain object does not store;
    [getAttributes] of the processor drops the names of [IGNORE_ATTRIBUTES]
    from the same attribute list and agrees with it on every other name,
    [value] apart (which the processor may take from the live element). *)
Theorem getAttributes_snapshot_keeps_denied (props : Snapshot.Props) (element : Node) name :
  attributes element = Some (Snapshot.attributes props) ->
  (name <> "__proto__"%string ->
   Snapshot.getAttributes props !! name = attributeValue name (Snapshot.attributes props)) /\
  Snapshot.getAttributes props !! "__proto__"%string = None /\
  (In name IGNORE_ATTRIBUTES -> getAttributes element !! name = None) /\
  (~ In name IGNORE_ATTRIBUTES -> name <> "value"%string ->
   getAttributes element !! name = Snapshot.getAttributes props !! name).
Proof.
  intros Hattrs. unfold Snapshot.getAttributes.
  rewrite !snapshot_copy_lookup.
  destruct (getAttributes_lookup element name) as (Hdenied & Hkept & _ & Hproto).
  rewrite Hattrs in Hkept. cbn [default] in Hkept.
  split; [intros Hp; apply String.eqb_neq in Hp; rewrite Hp; reflexivity|].
  split; [reflexivity|]. split; [exact Hdenied|].
  intros Hin Hv. destruct (String.eqb_spec name "__proto__") as [->|Hp].
  - exact Hproto.
  - apply Hkept; assumption.
Qed.

Lemma getAttributes_snapshot_keeps_denied_witness :
  attributes titledDiv
    = Some (Snapshot.attributes
              {| Snapshot.key := 60; Snapshot.nodeType := NodeType.ELEMENT_NODE;
                 Snapshot.tagName := "DIV"; Snapshot.nodeValue := None;
                 Snapshot.attributes := [("title", "Ann Lee"); ("class", "card")]%string;
                 Snapshot.name := ""; Snapshot.publicId := ""; Snapshot.systemId := "" |}) /\
  Snapshot.getAttributes
    {| Snapshot.key := 60; Snapshot.nodeType := NodeType.ELEMENT_NODE;
       Snapshot.tagName := "DIV"; Snapshot.nodeValue := None;
       Snapshot.attributes := [("title", "Ann Lee"); ("class", "card")]%string;
       Snapshot.name := ""; Snapshot.publicId := ""; Snapshot.systemId := "" |}
    !! "title"%string = Some "Ann Lee"%string /\
  getAttributes titledDiv !! "title"%string = None.
Proof.
  split; [reflexivity|].
  pose proof (getAttributes_snapshot_keeps_denied
                {| Snapshot.key := 60; Snapshot.nodeType := NodeType.ELEMENT_NODE;
                   Snapshot.tagName := "DIV"; Snapshot.nodeValue := None;
                   Snapshot.attributes := [("title", "Ann Lee"); ("class", "card")]%string;
                   Snapshot.name := ""; Snapshot.publicId := ""; Snapshot.systemId := "" |}
                titledDiv "title" eq_refl) as (Hsnap & _ & Hdenied & _).
  split; [exact (Hsnap ltac:(discriminate))|].
  apply Hdenied. vm_compute. tauto.
Defined.

(** ** Calls of [dom.add] and [dom.update] *)

Lemma domCalls_app l1 l2 : domCalls (l1 ++ l2) = domCalls l1 ++ domCalls l2.
Proof. apply List.filter_app. Qed.

Lemma bind_result {A B} (m : W A) (f : A -> W B) :
  (bind m f).2 = match m.2 with Ok a => (f a).2 | Throw e => Throw e end.
Proof. destruct m as [l [a|e]]; simpl; [|reflexivity]. destruct (f a). reflexivity. Qed.

Lemma silent_nil : silent [].
Proof. reflexivity. Qed.

Lemma silent_bind {A B} (m : W A) (f : A -> W B) :
  silent m.1 -> (forall a, silent (f a).1) -> silent (bind m f).1.
Proof.
  unfold silent. intros Hm Hf. rewrite bind_effects, domCalls_app, Hm.
  destruct m.2; [apply Hf | reflexivity].
Qed.

Lemma oneCall_silent c node source l : silent l -> oneCall c node source l.
Proof. intros H. left. exact H. Qed.

Lemma oneCall_emit c node source parent data :
  oneCall c node source (emit (DomCall c node parent data source)).1.
Proof. right. exists parent, data. reflexivity. Qed.

Lemma oneCall_after {A B} c node source (m : W A) (f : A -> W B) :
  silent m.1 -> (forall a, oneCall c node source (f a).1) ->
  oneCall c node source (bind m f).1.
Proof.
  unfold silent, oneCall. intros Hm Hf. rewrite bind_effects, domCalls_app, Hm.
  destruct m.2; [apply Hf | left; reflexivity].
Qed.

Lemma oneCall_before {A B} c node source (m : W A) (f : A -> W B) :
  oneCall c node source m.1 -> (forall a, silent (f a).1) ->
  oneCall c node source (bind m f).1.
Proof.
  unfold silent, oneCall. intros Hm Hf. rewrite bind_effects, domCalls_app.
  assert (Hs : domCalls match m.2 with Ok a => (f a).1 | Throw _ => [] end = []).
  { destruct m.2; [apply Hf | reflexivity]. }
  rewrite Hs, app_nil_r. exact Hm.
Qed.

Lemma everyRecord_nil P : everyRecord P [].
Proof. intros c n p d s []. Qed.

Lemma everyRecord_bind {A B} P (m : W A) (f : A -> W B) :
  everyRecord P m.1 -> (forall a, everyRecord P (f a).1) -> everyRecord P (bind m f).1.
Proof.
  intros Hm Hf c n p d s. rewrite bind_effects. intros Hin.
  apply in_app_or in Hin as [Hin|Hin]; [exact (Hm _ _ _ _ _ Hin)|].
  destruct m.2; [exact (Hf _ _ _ _ _ _ Hin) | destruct Hin].
Qed.

Lemma everyRecord_silent P l : silent l -> everyRecord P l.
Proof.
  unfold silent, domCalls. intros Hs c n p d s Hin.
  assert (H : In (DomCall c n p d s) (List.filter isDomCall l)).
  { apply List.filter_In. split; [exact Hin | reflexivity]. }
  rewrite Hs in H. destruct H.
Qed.

Lemma everyRecord_call (P : NodeData -> Prop) c n p d s :
  P d -> everyRecord P (emit (DomCall c n p d s)).1.
Proof. intros Hd c' n' p' d' s' [[= <- <- <- <- <-]|[]]. exact Hd. Qed.

Ltac silent_step :=
  first
    [ apply silent_nil
    | reflexivity
    | apply silent_bind; [|intros]
    | match goal with
      | |- silent (fst (if ?b then _ else _)) => destruct b
      | |- silent (fst (match ?x with _ => _ end)) => destruct x
      end ].

Lemma getCssRules_silent sheet : silent (getCssRules sheet).1.
Proof. unfold getCssRules, ret, throw, emit. repeat silent_step. Qed.

Lemma getStyleValue_silent style : silent (getStyleValue style).1.
Proof.
  unfold getStyleValue. destruct (_ || _ || _); [apply getCssRules_silent | reflexivity].
Qed.

Lemma observe_silent E root : silent (observe E root).1.
Proof. unfold observe, ret, emit. repeat silent_step. Qed.

Lemma removeObserver_silent E root : silent (removeObserver E root).1.
Proof. unfold removeObserver, ret, emit. repeat silent_step. Qed.

Ltac quiet :=
  solve [ unfold when, ret, emit;
          repeat first [ apply getCssRules_silent | apply getStyleValue_silent
                       | apply observe_silent | apply removeObserver_silent
                       | silent_step ] ].

Ltac one_call :=
  first
    [ apply oneCall_emit
    | apply oneCall_silent; quiet
    | apply oneCall_before; [one_call | intros; quiet]
    | apply oneCall_after; [quiet | intros; one_call]
    | match goal with
      | |- oneCall _ _ _ (fst (if ?b then _ else _)) => destruct b; one_call
      | |- oneCall _ _ _ (fst (match ?x with _ => _ end)) => destruct x; one_call
      end ].

Ltac record_step :=
  first
    [ apply everyRecord_nil
    | apply everyRecord_silent; quiet
    | apply everyRecord_bind; [|intros]
    | match goal with
      | |- everyRecord _ (fst (if ?b then _ else _)) => destruct b eqn:?
      | |- everyRecord _ (fst (match ?x with _ => _ end)) => destruct x eqn:?
      end ].

Section Calls.
Context (K : Constant.t) (E : Env).

Lemma processElement_oneCall node source call insideFrame :
  oneCall call node source (processElement K E node source call insideFrame).1.
Proof. unfold processElement, when. cbv zeta. one_call. Qed.

Lemma processResolved_oneCall node source timestamp :
  oneCall (callFor E node) node source (processResolved K E node source timestamp).1.
Proof.
  unfold processResolved, when. fold (callFor E node). cbv zeta.
  repeat match goal with
         | |- oneCall _ _ _ (fst (if ?b then _ else _)) => destruct b
         end;
    first [ apply processElement_oneCall | one_call ].
Qed.

(** X11: one run of the processor mirrors at most one node.  Among its
    effects there is at most one call of [dom.add] or [dom.update]; it is for
    the node handed in, or for its parent when the node is the text of a
    [STYLE] element; it is [add] exactly when [dom.has] does not know that
    node; and it carries the [source] of the run. *)
Theorem processNode_one_record inputNode source timestamp :
  domCalls (processNode K E inputNode source timestamp).1 = [] \/
  exists node parent data,
    domCalls (processNode K E inputNode source timestamp).1
      = [DomCall (callFor E node) node parent data source] /\
    (node = inputNode \/
     styleText inputNode source = true /\ parentNode inputNode = Some node).
Proof.
  unfold processNode.
  destruct (isChildListRemove source && negb (dom_has E inputNode));
    [left; reflexivity|].
  destruct (styleText inputNode source) eqn:Hstyle.
  - destruct (parentNode inputNode) as [p|] eqn:Hp; [|left; reflexivity].
    rewrite (bind_ret p (fun n => processResolved K E n source timestamp)).
    destruct (processResolved_oneCall p source timestamp) as [H|(parent & data & H)].
    + left. exact H.
    + right. exists p, parent, data. split; [exact H|]. right. split; reflexivity.
  - rewrite (bind_ret inputNode (fun n => processResolved K E n source timestamp)).
    destruct (processResolved_oneCall inputNode source timestamp) as [H|(parent & data & H)].
    + left. exact H.
    + right. exists inputNode, parent, data. split; [exact H|]. left. reflexivity.
Qed.

(** X12: documents, scripts, [META] and [BASE] elements are never mirrored.
    Whatever the source and the state of the dom module, a run on a document
    node or on a [SCRIPT], [META] or [BASE] element (outside SVG) calls
    neither [dom.add] nor [dom.update]. *)
Theorem processNode_never_mirrors inputNode source timestamp :
  nodeType inputNode = NodeType.DOCUMENT_NODE \/
  (nodeType inputNode = NodeType.ELEMENT_NODE /\
   namespaceURI inputNode <> Some (Constant.SvgNamespace K) /\
   In (tagName inputNode) ["SCRIPT"; "META"; "BASE"]%string) ->
  domCalls (processNode K E inputNode source timestamp).1 = [].
Proof.
  intros Hkind. unfold processNode.
  destruct (isChildListRemove source && negb (dom_has E inputNode)); [reflexivity|].
  assert (Hstyle : styleText inputNode source = false).
  { unfold styleText. destruct Hkind as [-> | (-> & _)];
      rewrite andb_false_r; reflexivity. }
  rewrite Hstyle, (bind_ret inputNode (fun n => processResolved K E n source timestamp)).
  unfold processResolved. cbv zeta.
  destruct Hkind as [-> | (-> & Hns & Htag)]; cbn [Z.eqb Pos.eqb NodeType.DOCUMENT_NODE
    NodeType.ELEMENT_NODE NodeType.DOCUMENT_TYPE_NODE NodeType.DOCUMENT_FRAGMENT_NODE
    NodeType.TEXT_NODE].
  - match goal with |- domCalls ?l = [] => change (silent l) end. quiet.
  - unfold processElement. cbv zeta.
    rewrite bool_decide_eq_false_2 by exact Hns.
    destruct Htag as [<- | [<- | [<- | []]]]; cbn [String.eqb Ascii.eqb Bool.eqb];
      match goal with |- domCalls ?l = [] => change (silent l) end; quiet.
Qed.

End Calls.

Lemma processNode_never_mirrors_witness :
  (nodeType metaTitle = NodeType.DOCUMENT_NODE \/
   (nodeType metaTitle = NodeType.ELEMENT_NODE /\
    namespaceURI metaTitle <> Some (Constant.SvgNamespace sample_constants) /\
    In (tagName metaTitle) ["SCRIPT"; "META"; "BASE"]%string)) /\
  domCalls (processNode sample_constants (sampleEnv [7%positive] 1 None) metaTitle
              Attributes 0).1 = [].
Proof.
  assert (Hkind : nodeType metaTitle = NodeType.DOCUMENT_NODE \/
            (nodeType metaTitle = NodeType.ELEMENT_NODE /\
             namespaceURI metaTitle <> Some (Constant.SvgNamespace sample_constants) /\
             In (tagName metaTitle) ["SCRIPT"; "META"; "BASE"]%string)).
  { right. split; [reflexivity|]. split; [discriminate|]. right. left. reflexivity. }
  split; [exact Hkind|].
  exact (processNode_never_mirrors sample_constants (sampleEnv [7%positive] 1 None)
           metaTitle Attributes 0 Hkind).
Defined.

(** ** Attributes that never leave the page *)

Lemma cleanData_none t v : cleanData {| d_tag := t; d_attributes := None; d_value := v |}.
Proof. intros attrs name [=]. Qed.

Lemma cleanData_some t m v :
  cleanMap m -> cleanData {| d_tag := t; d_attributes := Some m; d_value := v |}.
Proof. intros Hm attrs name [= <-]. apply Hm. Qed.

Lemma cleanMap_empty : cleanMap ∅.
Proof. intros name _. apply lookup_empty. Qed.

Lemma cleanMap_insert k v m :
  ~ In k IGNORE_ATTRIBUTES -> cleanMap m -> cleanMap (<[k := v]> m).
Proof.
  intros Hk Hm name Hin. rewrite lookup_insert_ne; [apply Hm; exact Hin|].
  intros ->. contradiction.
Qed.

Lemma cleanMap_getAttributes element : cleanMap (getAttributes element).
Proof. intros name Hin. apply (getAttributes_lookup element name). exact Hin. Qed.

Lemma not_ignored name : absent name IGNORE_ATTRIBUTES = true -> ~ In name IGNORE_ATTRIBUTES.
Proof. intros H. apply absent_In. exact H. Qed.

Section Denied.
Context (K : Constant.t) (E : Env).
Hypothesis base_kept : ~ In (Constant.Base K) IGNORE_ATTRIBUTES.
Hypothesis sameorigin_kept : ~ In (Constant.SameOrigin K) IGNORE_ATTRIBUTES.

Ltac clean_map :=
  repeat first
    [ apply cleanMap_getAttributes
    | apply cleanMap_empty
    | apply cleanMap_insert; [first [ exact base_kept | exact sameorigin_kept
                                     | apply not_ignored; reflexivity ]|]
    | match goal with
      | |- cleanMap (if ?b then _ else _) => destruct b
      | |- cleanMap (match ?x with _ => _ end) => destruct x
      end ].

Ltac clean_step :=
  first
    [ apply everyRecord_call;
      first [ apply cleanData_none | apply cleanData_some; solve [clean_map] ]
    | record_step ].

Lemma processElement_clean node source call insideFrame :
  everyRecord cleanData (processElement K E node source call insideFrame).1.
Proof using base_kept sameorigin_kept.
  unfold processElement, when. cbv zeta. repeat clean_step.
Qed.

Lemma processResolved_clean node source timestamp :
  everyRecord cleanData (processResolved K E node source timestamp).1.
Proof using base_kept sameorigin_kept.
  unfold processResolved, when. cbv zeta.
  repeat first [ apply processElement_clean | clean_step ].
Qed.

(** X13: the deny-list holds for every node kind.  Provided the synthetic
    attribute names [Constant.Base] and [Constant.SameOrigin] are not
    themselves on the list, no [data] the processor hands to [dom.add] or
    [dom.update] carries an attribute named in [IGNORE_ATTRIBUTES], whichever
    branch produced it. *)
Theorem processNode_drops_ignored inputNode source timestamp c n p d s attrs name :
  In (DomCall c n p d s) (processNode K E inputNode source timestamp).1 ->
  d_attributes d = Some attrs ->
  In name IGNORE_ATTRIBUTES ->
  attrs !! name = None.
Proof using base_kept sameorigin_kept.
  intros Hin Hd Hname.
  assert (H : everyRecord cleanData (processNode K E inputNode source timestamp).1).
  { unfold processNode.
    repeat first [ apply processResolved_clean | clean_step ]. }
  exact (H _ _ _ _ _ Hin attrs name Hd Hname).
Qed.

End Denied.

Lemma processNode_drops_ignored_witness :
  ~ In (Constant.Base sample_constants) IGNORE_ATTRIBUTES /\
  ~ In (Constant.SameOrigin sample_constants) IGNORE_ATTRIBUTES /\
  In (DomCall CallAdd titledDiv None
        {| d_tag := "DIV"; d_attributes := Some {[ "class"%string := "card"%string ]};
           d_value := None |} Discover)
     (processNode sample_constants (sampleEnv [] 1 None) titledDiv Discover 0).1 /\
  In "title"%string IGNORE_ATTRIBUTES /\
  ({[ "class"%string := "card"%string ]} : gmap string string) !! "title"%string = None.
Proof.
  assert (Hb : ~ In (Constant.Base sample_constants) IGNORE_ATTRIBUTES).
  { apply not_ignored. reflexivity. }
  assert (Ho : ~ In (Constant.SameOrigin sample_constants) IGNORE_ATTRIBUTES).
  { apply not_ignored. reflexivity. }
  assert (Hin : In (DomCall CallAdd titledDiv None
                      {| d_tag := "DIV";
                         d_attributes := Some {[ "class"%string := "card"%string ]};
                         d_value := None |} Discover)
                   (processNode sample_constants (sampleEnv [] 1 None) titledDiv Discover 0).1).
  { left. vm_compute. reflexivity. }
  assert (Ht : In "title"%string IGNORE_ATTRIBUTES) by (left; reflexivity).
  split; [exact Hb|]. split; [exact Ho|]. split; [exact Hin|]. split; [exact Ht|].
  exact (processNode_drops_ignored sample_constants (sampleEnv [] 1 None) Hb Ho
           titledDiv Discover 0 _ _ _ _ _ _ "title" Hin eq_refl Ht).
Defined.

(** ** Media sources *)

Lemma suffix_HTML p : ~ In (p ++ "HTML")%string mediaTags.
Proof.
  unfold mediaTags.
  do 7 (destruct p as [|? p];
        [intros [H|[H|[H|[]]]]; discriminate H|]).
  intros [H|[H|[H|[]]]]; discriminate H.
Qed.

Lemma media_test tag :
  In tag mediaTags ->
  String.eqb tag "VIDEO" || String.eqb tag "AUDIO" || String.eqb tag "SOURCE" = true.
Proof. intros [<-|[<-|[<-|[]]]]; reflexivity. Qed.

Section Media.
Context (K : Constant.t) (E : Env).

Lemma processElement_media node source call insideFrame :
  everyRecord inlineFree (processElement K E node source call insideFrame).1.
Proof.
  unfold processElement, when. cbv zeta.
  set (tag := if bool_decide (namespaceURI node = Some (Constant.SvgNamespace K))
              then (Constant.SvgPrefix K ++ tagName node)%string else tagName node).
  clearbody tag. repeat record_step.
  all: apply everyRecord_call; intros Htag attrs v Hattrs Hsrc;
    cbn [d_tag d_attributes] in *.
  all: try (exfalso; apply media_test in Htag; congruence).
  all: try (match goal with
            | H : String.eqb _ _ = true |- _ => apply String.eqb_eq in H; rewrite H in Htag
            end;
            first [ exfalso; exact (suffix_HTML _ Htag)
                  | destruct Htag as [Ht|[Ht|[Ht|[]]]]; discriminate Ht ]).
  all: try (destruct Htag as [Ht|[Ht|[Ht|[]]]]; discriminate Ht).
  all: injection Hattrs as <-.
  all: repeat match goal with
       | H : match ?x with _ => _ end !! _ = _ |- _ => destruct x eqn:?
       | H : (if ?b then _ else _) !! _ = _ |- _ => destruct b eqn:?
       end.
  all: try (rewrite lookup_insert in Hsrc; injection Hsrc as <-; reflexivity).
  all: congruence.
Qed.

Lemma processResolved_media node source timestamp :
  everyRecord inlineFree (processResolved K E node source timestamp).1.
Proof.
  unfold processResolved, when. cbv zeta.
  repeat first [ apply processElement_media | record_step ].
  all: apply everyRecord_call; intros Htag attrs v Hattrs Hsrc;
    cbn [d_tag d_attributes] in *.
  all: try discriminate Hattrs.
  all: injection Hattrs as <-.
  all: repeat (rewrite lookup_insert_ne in Hsrc by discriminate).
  all: rewrite lookup_empty in Hsrc; discriminate Hsrc.
Qed.

(** X14: no data URI of a media element is mirrored.  Whatever node the
    processor is run on, a [data] it hands to [dom.add] or [dom.update] with
    the tag [VIDEO], [AUDIO] or [SOURCE] has no [src] that starts with
    [data:]. *)
Theorem processNode_media_src inputNode source timestamp c n p d s attrs v :
  In (DomCall c n p d s) (processNode K E inputNode source timestamp).1 ->
  In (d_tag d) ["VIDEO"; "AUDIO"; "SOURCE"]%string ->
  d_attributes d = Some attrs ->
  attrs !! "src"%string = Some v ->
  String.prefix "data:" v = false.
Proof.
  intros Hin Htag Hattrs Hsrc.
  assert (H : everyRecord inlineFree (processNode K E inputNode source timestamp).1).
  { unfold processNode.
    repeat first [ apply processResolved_media | record_step ]. }
  exact (H _ _ _ _ _ Hin Htag attrs v Hattrs Hsrc).
Qed.

End Media.

Lemma processNode_media_src_witness :
  In (DomCall CallAdd inlineVideo None
        {| d_tag := "VIDEO"; d_attributes := Some {[ "src"%string := ""%string ]};
           d_value := None |} Discover)
     (processNode sample_constants (sampleEnv [] 1 None) inlineVideo Discover 0).1 /\
  In "VIDEO"%string ["VIDEO"; "AUDIO"; "SOURCE"]%string /\
  ({[ "src"%string := ""%string ]} : gmap string string) !! "src"%string = Some ""%string /\
  String.prefix "data:" "" = false.
Proof.
  assert (Hin : In (DomCall CallAdd inlineVideo None
                      {| d_tag := "VIDEO";
                         d_attributes := Some {[ "src"%string := ""%string ]};
                         d_value := None |} Discover)
                   (processNode sample_constants (sampleEnv [] 1 None) inlineVideo Discover 0).1).
  { left. vm_compute. reflexivity. }
  assert (Ht : In "VIDEO"%string ["VIDEO"; "AUDIO"; "SOURCE"]%string) by (left; reflexivity).
  assert (Hs : ({[ "src"%string := ""%string ]} : gmap string string) !! "src"%string
               = Some ""%string) by reflexivity.
  split; [exact Hin|]. split; [exact Ht|]. split; [exact Hs|].
  exact (processNode_media_src sample_constants (sampleEnv [] 1 None) inlineVideo Discover 0
           _ _ _ _ _ _ _ Hin Ht eq_refl Hs).
Defined.

(** ** Failures *)

Lemma failsByCss_ok {A} (w : W A) a : w.2 = Ok a -> failsByCss w.
Proof. intros H e He. rewrite H in He. discriminate. Qed.

Lemma failsByCss_bind {A B} (m : W A) (f : A -> W B) :
  failsByCss m -> (forall a, failsByCss (f a)) -> failsByCss (bind m f).
Proof.
  intros Hm Hf e. rewrite bind_result. unfold cssFailure. rewrite bind_effects.
  destruct m.2 as [a|e'] eqn:Hr.
  - intros He. destruct (Hf a e He) as (name & H1 & H2 & H4).
    exists name. repeat split; try assumption. apply in_or_app. right. exact H4.
  - intros [= ->]. destruct (Hm e Hr) as (name & H1 & H2 & H4).
    exists name. repeat split; try assumption. apply in_or_app. left. exact H4.
Qed.

(** [getCssRules] throws exactly what reading the rule list threw, when that
    is an error object other than a [SecurityError]. *)
Lemma getCssRules_throws s e :
  (getCssRules (Some s)).2 = Throw e <->
  cssRules s = Throw e /\ exists name, e = ExnError name /\ name <> "SecurityError"%string.
Proof.
  destruct (cssRules s) as [rules|[|n]] eqn:Hrules.
  - rewrite (getCssRules_readable (Some s) rules Hrules).
    split; [intros [=] | intros [[=] _]].
  - unfold getCssRules. rewrite Hrules.
    split; [intros [=] | intros [[= <-] (name & [=] & _)]].
  - destruct (String.eqb_spec n "SecurityError") as [->|Hn].
    + rewrite (getCssRules_security s Hrules).
      split; [intros [=] | intros [[= <-] (name & [= <-] & Hne)]; contradiction].
    + rewrite (getCssRules_rethrows s n Hrules Hn). cbn [snd]. split.
      * intros [= <-]. split; [reflexivity|]. exists n. split; [reflexivity | exact Hn].
      * intros [[= <-] _]. reflexivity.
Qed.

Lemma getCssRules_fails sheet : failsByCss (getCssRules sheet).
Proof.
  intros e. destruct sheet as [s|]; [|intros [=]].
  intros He. destruct (proj1 (getCssRules_throws s e) He) as (Hr & name & -> & Hn).
  exists name. split; [reflexivity|]. split; [exact Hn|].
  rewrite (getCssRules_rethrows s name Hr Hn). left. reflexivity.
Qed.

Lemma getStyleValue_fails style : failsByCss (getStyleValue style).
Proof.
  unfold getStyleValue. destruct (_ || _ || _); [apply getCssRules_fails|].
  intros e [=].
Qed.

(** Code that completes normally. *)
Lemma completes_bind {A B} (m : W A) (f : A -> W B) e :
  (m.2 = Throw e -> False) -> (forall a, (f a).2 = Throw e -> False) ->
  (bind m f).2 = Throw e -> False.
Proof.
  intros Hm Hf. rewrite bind_result. destruct m.2 as [a|e'] eqn:Hr; [apply Hf|].
  intros [= ->]. apply Hm. reflexivity.
Qed.

Ltac fails_step :=
  first
    [ apply getCssRules_fails
    | apply getStyleValue_fails
    | eapply failsByCss_ok; reflexivity
    | apply failsByCss_bind; [|intros]
    | match goal with
      | |- failsByCss (if ?b then _ else _) => destruct b
      | |- failsByCss (match ?x with _ => _ end) => destruct x
      end ].

Ltac completes_step :=
  first
    [ discriminate
    | apply completes_bind; [|intros ?]
    | match goal with
      | |- (if ?b then _ else _).2 = Throw _ -> False => destruct b
      | |- (match ?x with _ => _ end).2 = Throw _ -> False => destruct x
      end ].

Section Failures.
Context (K : Constant.t) (E : Env).

Lemma observe_fails root : failsByCss (observe E root).
Proof. unfold observe. repeat fails_step. Qed.

Lemma removeObserver_fails root : failsByCss (removeObserver E root).
Proof. unfold removeObserver. repeat fails_step. Qed.

Lemma processElement_fails node source call insideFrame :
  failsByCss (processElement K E node source call insideFrame).
Proof.
  unfold processElement, when. cbv zeta.
  repeat first [ apply removeObserver_fails | fails_step ].
Qed.

Lemma processResolved_fails node source timestamp :
  failsByCss (processResolved K E node source timestamp).
Proof.
  unfold processResolved, when. cbv zeta.
  repeat first [ apply processElement_fails | apply observe_fails | fails_step ].
Qed.

Lemma observe_completes root e : (observe E root).2 = Throw e -> False.
Proof. unfold observe, ret, emit. repeat completes_step. Qed.

Lemma removeObserver_completes root e : (removeObserver E root).2 = Throw e -> False.
Proof. unfold removeObserver, ret, emit. repeat completes_step. Qed.

Ltac completes :=
  unfold when, ret, emit;
  repeat first [ apply observe_completes | apply removeObserver_completes
               | completes_step ].

(** The switch of an element throws exactly when the rule list it reads
    does. *)
Lemma processElement_throws node source call insideFrame e :
  (processElement K E node source call insideFrame).2 = Throw e <->
  exists s, sheetRead K E node s /\ (getCssRules (Some s)).2 = Throw e.
Proof.
  unfold sheetRead, elementTag, processElement. cbv zeta.
  set (tag := if bool_decide (namespaceURI node = Some (Constant.SvgNamespace K))
              then (Constant.SvgPrefix K ++ tagName node)%string else tagName node).
  clearbody tag. split.
  - destruct (String.eqb tag "HTML") eqn:H1; [intros H; exfalso; revert H; completes|].
    destruct (String.eqb tag "SCRIPT") eqn:H2; [intros H; exfalso; revert H; completes|].
    destruct (String.eqb tag "NOSCRIPT") eqn:H3; [intros H; exfalso; revert H; completes|].
    destruct (String.eqb tag "META") eqn:H4; [intros H; exfalso; revert H; completes|].
    destruct (String.eqb tag "HEAD") eqn:H5; [intros H; exfalso; revert H; completes|].
    destruct (String.eqb tag "BASE") eqn:H6; [intros H; exfalso; revert H; completes|].
    destruct (String.eqb tag "STYLE") eqn:H7.
    { apply String.eqb_eq in H7. rewrite bind_result, getStyleValue_cases.
      fold (readsRules node). destruct (readsRules node) eqn:Hreads.
      - destruct (sheet node) as [s|] eqn:Hsheet.
        + destruct (getCssRules (Some s)).2 as [v|e'] eqn:Hr;
            [intros H; exfalso; revert H; completes|].
          intros [= ->]. exists s. split; [|exact Hr]. left. repeat split; assumption.
        + intros H; exfalso; revert H. cbn. completes.
      - intros H; exfalso; revert H. cbn. completes. }
    destruct (String.eqb tag "IFRAME") eqn:H8; [intros H; exfalso; revert H; completes|].
    destruct (String.eqb tag "LINK") eqn:H9.
    { apply String.eqb_eq in H9.
      destruct (electron E) eqn:Hel; [|intros H; exfalso; revert H; completes].
      destruct (bool_decide (getAttributes node !! "rel"%string = Some (Constant.StyleSheet K)))
        eqn:Hrel; [|intros H; exfalso; revert H; completes].
      apply bool_decide_eq_true_1 in Hrel. cbn [andb].
      destruct (find _ (styleSheets E)) as [s|] eqn:Hfind;
        [|intros H; exfalso; revert H; completes].
      rewrite !bind_result.
      destruct (getCssRules (Some s)).2 as [v|e'] eqn:Hr;
        [intros H; exfalso; revert H; completes|].
      intros [= ->]. exists s. split; [|exact Hr]. right. repeat split; assumption. }
    intros H; exfalso; revert H. completes.
  - intros (s & [(Htag & Hreads & Hsheet) | (Htag & Hel & Hrel & Hfind)] & Hthrow);
      rewrite Htag; cbn [String.eqb Ascii.eqb Bool.eqb].
    + rewrite bind_result, getStyleValue_cases. fold (readsRules node).
      rewrite Hreads, Hsheet, Hthrow. reflexivity.
    + rewrite Hel, (bool_decide_eq_true_2 _ Hrel). cbn [andb].
      rewrite Hfind, !bind_result, Hthrow. reflexivity.
Qed.

Lemma processResolved_throws node source timestamp e :
  (processResolved K E node source timestamp).2 = Throw e <->
  nodeType node = NodeType.ELEMENT_NODE /\
  exists s, sheetRead K E node s /\ (getCssRules (Some s)).2 = Throw e.
Proof.
  split.
  - unfold processResolved. cbv zeta.
    repeat match goal with
           | |- (if ?b then _ else _).2 = _ -> _ =>
               lazymatch b with
               | (nodeType node =? NodeType.ELEMENT_NODE)%Z => fail
               | _ => destruct b; [intros H; exfalso; revert H; completes|]
               end
           end.
    destruct (nodeType node =? NodeType.ELEMENT_NODE)%Z eqn:Htype; [|intros [=]].
    intros H. split; [apply Z.eqb_eq; exact Htype|].
    exact (proj1 (processElement_throws node source _ _ e) H).
  - intros (Htype & Hs). rewrite (processResolved_element K E node source timestamp Htype).
    exact (proj2 (processElement_throws node source _ _ e) Hs).
Qed.

(** X15: when the processor throws.  A run throws exactly in two
    situations: the node is the text of a [STYLE] element that has no
    [parentNode] (a [TypeError]); or the node processed is a [STYLE] element
    whose rule list [getStyleValue] reads, or in electron a style sheet
    [LINK], and reading [cssRules] of that very sheet threw an error object
    other than a [SecurityError], which is what the run throws.  In the first
    case nothing has been done yet; in the second the failure was logged as
    a warning.  A [SecurityError], a falsy thrown value and unparsable JSON-LD
    never escape. *)
Theorem processNode_throws inputNode source timestamp e :
  ((processNode K E inputNode source timestamp).2 = Throw e <->
   isChildListRemove source && negb (dom_has E inputNode) = false /\
   ((styleText inputNode source = true /\ parentNode inputNode = None /\
     e = ExnError "TypeError") \/
    exists node sheet name,
      (if styleText inputNode source then parentNode inputNode = Some node
       else node = inputNode) /\
      nodeType node = NodeType.ELEMENT_NODE /\
      ((elementTag K node = "STYLE"%string /\ readsRules node = true /\
        Layout.sheet node = Some sheet) \/
       (elementTag K node = "LINK"%string /\ electron E = true /\
        getAttributes node !! "rel"%string = Some (Constant.StyleSheet K) /\
        find (fun s => bool_decide (ownerNode s = Some (key node))) (styleSheets E)
        = Some sheet)) /\
      cssRules sheet = Throw e /\
      e = ExnError name /\ name <> "SecurityError"%string)) /\
  ((processNode K E inputNode source timestamp).2 = Throw e ->
   (styleText inputNode source = true /\ parentNode inputNode = None /\
    (processNode K E inputNode source timestamp).1 = []) \/
   (exists name, e = ExnError name /\
      In (InternalLog CssRules Warning (Some name))
         (processNode K E inputNode source timestamp).1)).
Proof.
  assert (Hres : forall node,
            (processResolved K E node source timestamp).2 = Throw e <->
            exists sheet name,
              nodeType node = NodeType.ELEMENT_NODE /\
              sheetRead K E node sheet /\
              cssRules sheet = Throw e /\
              e = ExnError name /\ name <> "SecurityError"%string).
  { intros node. rewrite processResolved_throws. split.
    - intros (Htype & s & Hs & Ht). apply getCssRules_throws in Ht as (Hr & name & He & Hn).
      exists s, name. repeat split; assumption.
    - intros (s & name & Htype & Hs & Hr & He & Hn). split; [exact Htype|].
      exists s. split; [exact Hs|]. apply getCssRules_throws. split; [exact Hr|].
      exists name. split; assumption. }
  unfold processNode.
  destruct (isChildListRemove source && negb (dom_has E inputNode)).
  { split; [|intros [=]]. split; [intros [=] | intros [[=] _]]. }
  destruct (styleText inputNode source) eqn:Hstyle.
  - destruct (parentNode inputNode) as [p|] eqn:Hp.
    + rewrite (bind_ret p (fun n => processResolved K E n source timestamp)). split.
      * rewrite Hres. split.
        -- intros (sheet & name & Htype & Hs & Hr & He & Hn). split; [reflexivity|].
           right. exists p, sheet, name. repeat split; assumption.
        -- intros (_ & [(_ & [=] & _) | (node & sheet & name & [= <-] & Htype & Hs & Hr)]).
           exists sheet, name. split; [exact Htype|]. split; [exact Hs | exact Hr].
      * intros He. right.
        destruct (processResolved_fails p source timestamp e He) as (name & H1 & _ & H3).
        exists name. split; assumption.
    + split.
      * split.
        -- intros [= <-]. split; [reflexivity|]. left. repeat split; reflexivity.
        -- intros (_ & [(_ & _ & ->) | (node & sheet & name & [=] & _)]). reflexivity.
      * intros _. left. repeat split; reflexivity.
  - rewrite (bind_ret inputNode (fun n => processResolved K E n source timestamp)). split.
    + rewrite Hres. split.
      * intros (sheet & name & Htype & Hs & Hr & He & Hn). split; [reflexivity|].
        right. exists inputNode, sheet, name. repeat split; assumption.
      * intros (_ & [([=] & _) | (node & sheet & name & -> & Htype & Hs & Hr)]).
        exists sheet, name. split; [exact Htype|]. split; [exact Hs | exact Hr].
    + intros He. right.
      destruct (processResolved_fails inputNode source timestamp e He) as (name & H1 & _ & H3).
      exists name. split; assumption.
Qed.

End Failures.

Lemma processNode_throws_witness :
  (processNode sample_constants (sampleEnv [] 1 None) lockedStyle Discover 0).2
    = Throw (ExnError "InvalidAccessError") /\
  sheet lockedStyle = Some (lockedSheet "InvalidAccessError") /\
  cssRules (lockedSheet "InvalidAccessError") = Throw (ExnError "InvalidAccessError") /\
  ((styleText lockedStyle Discover = true /\ parentNode lockedStyle = None /\
    (processNode sample_constants (sampleEnv [] 1 None) lockedStyle Discover 0).1 = []) \/
   (exists name, ExnError "InvalidAccessError" = ExnError name /\
      In (InternalLog CssRules Warning (Some name))
         (processNode sample_constants (sampleEnv [] 1 None) lockedStyle Discover 0).1)).
Proof.
  assert (Ht : (processNode sample_constants (sampleEnv [] 1 None) lockedStyle Discover 0).2
               = Throw (ExnError "InvalidAccessError")).
  { apply (proj1 (processNode_throws sample_constants (sampleEnv [] 1 None) lockedStyle
                    Discover 0 (ExnError "InvalidAccessError"))).
    split; [reflexivity|]. right.
    exists lockedStyle, (lockedSheet "InvalidAccessError"), "InvalidAccessError"%string.
    split; [reflexivity|]. split; [reflexivity|].
    split; [left; repeat split; reflexivity|].
    split; [reflexivity|]. split; [reflexivity | discriminate]. }
  split; [exact Ht|]. split; [reflexivity|]. split; [reflexivity|].
  exact (proj2 (processNode_throws sample_constants (sampleEnv [] 1 None) lockedStyle
                  Discover 0 (ExnError "InvalidAccessError")) Ht).
Defined.

(** ** The child handed back *)





Section Children.
Context (K : Constant.t) (E : Env).




End Children.


End LayoutExtras.
